(** * LoanCalculator: the loan recommendation scorer

    A shallow embedding of the analysis service
    (backend/src/services/ai-analysis/index.js), of the rate lookup it calls
    (backend/src/services/rate-tracker/index.js) and of the Mongoose models
    both read (backend/src/models), followed by the properties of the
    eligibility filter, the metric calculator and the ranking engine.

    JavaScript numbers are modelled twice.  [JSNumber.Num] is the model the
    pipeline is written in: exact rational arithmetic on finite values,
    together with NaN and the two infinities and the IEEE rules by which
    they arise and propagate (division by zero, Infinity - Infinity, ...).
    Rounding, overflow and the sign of zero are not part of that model.
    [Binary64] evaluates the weight table of [rankProducts] on primitive
    binary64 floats, the format JavaScript really uses; it needs addition
    and division only.  [Binary64Metrics] evaluates the payment formula and
    the two assessments of [calculateMetrics] the same way, for the
    properties that rounding decides.

    The embedding also covers the rest of the rate tracker (the mock feed,
    [processRates], [getHistoricalRates], [getRateTrendsByType]) and the
    computations of the two frontend components, [LoanCalculator] and
    [LoanComparison], which repeat the payment formula of the service.

    The file has four parts: the embedding of the code, the vocabulary the
    properties are stated in, sample data, and the properties. *)

From Stdlib Require Import QArith ZArith List String Ascii Bool Lia Lra Psatz.
From Stdlib Require Import Qpower Qminmax Qabs Qround Permutation Sorted.
From Stdlib Require PrimFloat SpecFloat FloatOps Uint63.
Import ListNotations.

Open Scope Q_scope.

(* ================================================================== *)
(** * JavaScript numbers, idealised *)
(* ================================================================== *)

Module JSNumber.

Inductive Num : Type :=
| Fin (q : Q)
| PInf
| NInf
| NaN.

Definition Qltb (a b : Q) : bool := negb (Qle_bool b a).

Definition is_finite (x : Num) : Prop :=
  match x with Fin _ => True | _ => False end.

Definition is_nan (x : Num) : bool :=
  match x with NaN => true | _ => false end.

(** Equality of number values: finite values are compared as rationals.
    This is identity of values, not the [===] of the language (see
    [strict_eq]), so [NaN] is related to itself. *)
Definition num_eq (x y : Num) : Prop :=
  match x, y with
  | Fin a, Fin b => a == b
  | PInf, PInf => True
  | NInf, NInf => True
  | NaN, NaN => True
  | _, _ => False
  end.

(** [x === y] on numbers: false as soon as one side is NaN. *)
Definition strict_eq (x y : Num) : bool :=
  match x, y with
  | Fin a, Fin b => Qeq_bool a b
  | PInf, PInf => true
  | NInf, NInf => true
  | _, _ => false
  end.

(** [x <= y] and [x < y]: false as soon as one side is NaN. *)
Definition nleb (x y : Num) : bool :=
  match x, y with
  | NaN, _ | _, NaN => false
  | NInf, _ => true
  | _, PInf => true
  | Fin a, Fin b => Qle_bool a b
  | _, _ => false
  end.

Definition nltb (x y : Num) : bool :=
  match x, y with
  | NaN, _ | _, NaN => false
  | PInf, _ => false
  | _, NInf => false
  | Fin a, Fin b => Qltb a b
  | _, _ => true
  end.

Definition nle (x y : Num) : Prop := nleb x y = true.
Definition nlt (x y : Num) : Prop := nltb x y = true.
(** [x >= y] and [x > y] are [y <= x] and [y < x]. *)
Definition nge (x y : Num) : Prop := nle y x.
Definition ngt (x y : Num) : Prop := nlt y x.

Definition nneg (x : Num) : Num :=
  match x with
  | Fin a => Fin (- a)
  | PInf => NInf
  | NInf => PInf
  | NaN => NaN
  end.

Definition nadd (x y : Num) : Num :=
  match x, y with
  | NaN, _ | _, NaN => NaN
  | Fin a, Fin b => Fin (a + b)
  | PInf, NInf | NInf, PInf => NaN
  | PInf, _ | _, PInf => PInf
  | NInf, _ | _, NInf => NInf
  end.

Definition nsub (x y : Num) : Num := nadd x (nneg y).

(** The sign of a rational, used by the rules for infinite operands. *)
Inductive Sign : Type := Neg | Zero | Pos.

Definition sign (a : Q) : Sign :=
  if Qeq_bool a 0 then Zero else if Qle_bool 0 a then Pos else Neg.

Definition inf_of (s : Sign) : Num :=
  match s with Pos => PInf | Neg => NInf | Zero => NaN end.

Definition flip (s : Sign) : Sign :=
  match s with Pos => Neg | Neg => Pos | Zero => Zero end.

Definition nmul (x y : Num) : Num :=
  match x, y with
  | NaN, _ | _, NaN => NaN
  | Fin a, Fin b => Fin (a * b)
  | PInf, Fin b | Fin b, PInf => inf_of (sign b)
  | NInf, Fin b | Fin b, NInf => inf_of (flip (sign b))
  | PInf, PInf | NInf, NInf => PInf
  | PInf, NInf | NInf, PInf => NaN
  end.

(** Division.  A finite value divided by zero is an infinity of the sign of
    the numerator, and 0 / 0 is NaN; zero is taken to be +0. *)
Definition ndiv (x y : Num) : Num :=
  match x, y with
  | NaN, _ | _, NaN => NaN
  | Fin a, Fin b =>
      if Qeq_bool b 0 then inf_of (sign a) else Fin (a / b)
  | Fin _, PInf | Fin _, NInf => Fin 0
  | PInf, Fin b => match sign b with Neg => NInf | _ => PInf end
  | NInf, Fin b => match sign b with Neg => PInf | _ => NInf end
  | _, _ => NaN
  end.

(** [Math.min] and [Math.max] of two numbers: NaN as soon as one is NaN. *)
Definition nmin (x y : Num) : Num :=
  match x, y with
  | NaN, _ | _, NaN => NaN
  | _, _ => if nleb x y then x else y
  end.

Definition nmax (x y : Num) : Num :=
  match x, y with
  | NaN, _ | _, NaN => NaN
  | _, _ => if nleb x y then y else x
  end.

(** [Math.pow(x, n)] at an integral exponent [n]. *)
Definition npow (x : Num) (n : Z) : Num :=
  if (n =? 0)%Z then Fin 1 else
  match x with
  | NaN => NaN
  | Fin a =>
      if (n <? 0)%Z && Qeq_bool a 0 then PInf else Fin (a ^ n)
  | PInf => if (n <? 0)%Z then Fin 0 else PInf
  | NInf => if (n <? 0)%Z then Fin 0
            else if Z.odd n then NInf else PInf
  end.

(** [ToNumber] of a property that may be absent: [undefined] is NaN. *)
Definition of_option (o : option Q) : Num :=
  match o with Some q => Fin q | None => NaN end.

End JSNumber.

Import JSNumber.

(* ================================================================== *)
(** * The part of MongoDB queries the services use *)
(* ================================================================== *)

Module Mongo.

(** Values stored in a document. *)
Inductive Value : Type :=
| VNum (q : Q)
| VStr (s : string)
| VBool (b : bool)
| VId (n : nat)
| VDate (z : Z)
| VStrs (l : list string).

(** A collection holds documents of a schema; a path that the schema does
    not define, or that the document leaves unset, reads as absent. *)
Class Document (D : Type) : Type := { field : D -> string -> option Value }.

(** The condition put on one path. *)
Inductive Cond : Type :=
| Eq (v : Value)
| Lte (q : Q)
| Gte (q : Q)
| Lt (q : Q).

(** A plain query object is a conjunction of conditions on paths; a query
    may also carry one [$or] of plain query objects. *)
Definition Filter : Type := list (string * Cond).

Record Query : Type := { where_ : Filter; or_ : option (list Filter) }.

Definition value_eqb (v w : Value) : bool :=
  match v, w with
  | VNum a, VNum b => Qeq_bool a b
  | VStr a, VStr b => String.eqb a b
  | VBool a, VBool b => Bool.eqb a b
  | VId a, VId b => Nat.eqb a b
  | VDate a, VDate b => Z.eqb a b
  | _, _ => false
  end.

(** A comparison operator holds of a stored number only: an absent path,
    or a value of another type, does not match. *)
Definition holds (c : Cond) (o : option Value) : bool :=
  match c, o with
  | Eq v, Some w => value_eqb w v
  | Lte q, Some (VNum a) => Qle_bool a q
  | Gte q, Some (VNum a) => Qle_bool q a
  | Lt q, Some (VNum a) => Qltb a q
  | _, _ => false
  end.

Definition matches_filter {D} `{Document D} (f : Filter) (d : D) : bool :=
  forallb (fun pc => holds (snd pc) (field d (fst pc))) f.

Definition matches {D} `{Document D} (q : Query) (d : D) : bool :=
  matches_filter (where_ q) d &&
  match or_ q with
  | None => true
  | Some alts => existsb (fun f => matches_filter f d) alts
  end.

(** [Model.find(q)]: the matching documents, in the order of the
    collection. *)
Definition find {D} `{Document D} (coll : list D) (q : Query) : list D :=
  filter (matches q) coll.

(** [.limit(n)]. *)
Definition limit {D} (n : nat) (docs : list D) : list D := firstn n docs.

(** A stable insertion sort: [keep x y] says that [x] may stay in front of
    [y].  With a consistent order every stable sort returns this list. *)
Fixpoint insert_by {A} (keep : A -> A -> bool) (x : A) (l : list A) : list A :=
  match l with
  | [] => [x]
  | y :: l' => if keep x y then x :: y :: l' else y :: insert_by keep x l'
  end.

Definition sort_by {A} (keep : A -> A -> bool) (l : list A) : list A :=
  fold_right (insert_by keep) [] l.

(** [.sort({ key: -1 })] on a date key; documents with equal dates keep the
    order of the collection. *)
Definition sort_desc {D} (key : D -> Z) (docs : list D) : list D :=
  sort_by (fun x y => (key y <=? key x)%Z) docs.

(** [Model.findOne(q).sort(...)]: the first document of the sorted
    matches, [null] when there is none. *)
Definition findOne_sorted_desc {D} `{Document D} (coll : list D) (q : Query)
    (key : D -> Z) : option D :=
  hd_error (sort_desc key (find coll q)).

End Mongo.

Import Mongo.

(* ================================================================== *)
(** * Models (backend/src/models) *)
(* ================================================================== *)

(** Paths that no query and no computation of the two services reads
    (description, logoUrl, contactInfo, processingTime, createdAt,
    updatedAt, termLength's siblings ...) are left out of the records. *)

Record Institution : Type := {
  inst_id : nat;
  inst_name : string;
  inst_types : list string;
  inst_active : bool
}.

(** A loan product as [find(...).populate('institution')] returns it: the
    institution reference is replaced by the institution.  [minAmount],
    [minTerm], [variableRate] and [active] have schema defaults and are
    always set; [maxAmount], [maxTerm] and [minCreditScore] may be absent. *)
Record LoanProduct : Type := {
  _id : nat;
  institution : Institution;
  name : string;
  type : string;
  minAmount : Q;
  maxAmount : option Q;
  minTerm : Q;
  maxTerm : option Q;
  baseRate : Q;
  variableRate : bool;
  minCreditScore : option Q;
  perks : list string;
  requirements : list string;
  active : bool
}.

Record CreditScoreRange : Type := {
  range_min : option Q;
  range_max : option Q
}.

Record InterestRate : Type := {
  loanProduct : nat;
  date : Z;
  rate : Q;
  termLength : Q;
  creditScoreRange : CreditScoreRange
}.

#[export] Instance LoanProduct_Document : Document LoanProduct := {|
  field p path :=
    if String.eqb path "_id" then Some (VId (_id p))
    else if String.eqb path "institution" then Some (VId (inst_id (institution p)))
    else if String.eqb path "name" then Some (VStr (name p))
    else if String.eqb path "type" then Some (VStr (type p))
    else if String.eqb path "minAmount" then Some (VNum (minAmount p))
    else if String.eqb path "maxAmount" then option_map VNum (maxAmount p)
    else if String.eqb path "minTerm" then Some (VNum (minTerm p))
    else if String.eqb path "maxTerm" then option_map VNum (maxTerm p)
    else if String.eqb path "baseRate" then Some (VNum (baseRate p))
    else if String.eqb path "variableRate" then Some (VBool (variableRate p))
    else if String.eqb path "minCreditScore" then option_map VNum (minCreditScore p)
    else if String.eqb path "perks" then Some (VStrs (perks p))
    else if String.eqb path "requirements" then Some (VStrs (requirements p))
    else if String.eqb path "active" then Some (VBool (active p))
    else None
|}.

#[export] Instance InterestRate_Document : Document InterestRate := {|
  field r path :=
    if String.eqb path "loanProduct" then Some (VId (loanProduct r))
    else if String.eqb path "date" then Some (VDate (date r))
    else if String.eqb path "rate" then Some (VNum (rate r))
    else if String.eqb path "termLength" then Some (VNum (termLength r))
    else if String.eqb path "creditScoreRange.min"
      then option_map VNum (range_min (creditScoreRange r))
    else if String.eqb path "creditScoreRange.max"
      then option_map VNum (range_max (creditScoreRange r))
    else None
|}.

(** The two collections the services read. *)
Record Database : Type := {
  loanProducts : list LoanProduct;
  interestRates : list InterestRate
}.

(* ================================================================== *)
(** * Rate tracker (backend/src/services/rate-tracker/index.js) *)
(* ================================================================== *)

Module RateTrackerService.

(** [getLatestRate(loanProductId, creditScore = 720)]: an omitted score
    takes the default. *)
Definition getLatestRate (db : Database) (loanProductId : nat)
    (creditScore : option Q) : option InterestRate :=
  let creditScore := match creditScore with Some s => s | None => 720 end in
  findOne_sorted_desc (interestRates db)
    {| where_ := [ ("loanProduct", Eq (VId loanProductId));
                   ("creditScoreRange.min", Lte creditScore);
                   ("creditScoreRange.max", Gte creditScore) ]%string;
       or_ := None |}
    date.

End RateTrackerService.

(* ================================================================== *)
(** * Analysis service (backend/src/services/ai-analysis/index.js) *)
(* ================================================================== *)

Module AIAnalysisService.

Import RateTrackerService.

Open Scope string_scope.

(** The five flags read from [preferences]; an absent flag is falsy. *)
Record Preferences : Type := {
  prioritizeRate : bool;
  prioritizePayment : bool;
  prioritizeService : bool;
  prioritizeFlexibility : bool;
  prioritizeApproval : bool
}.

(** [params].  The term is a number of months and is taken integral;
    [creditScore] may be omitted. *)
Record Params : Type := {
  loanType : string;
  amount : Q;
  term : Z;
  creditScore : option Q;
  preferences : Preferences
}.

Definition MAX_SAFE_INTEGER : Q := 9007199254740991.

(** [x || Number.MAX_SAFE_INTEGER]: zero is falsy. *)
Definition or_max (x : Q) : Q := if Qeq_bool x 0 then MAX_SAFE_INTEGER else x.

Definition getEligibleProducts (db : Database) (loanType : string)
    (amount : Q) (term : Z) (creditScore : Q) : list LoanProduct :=
  find (loanProducts db)
    {| where_ := [ ("type", Eq (VStr loanType));
                   ("minAmount", Lte amount);
                   ("maxAmount", Gte (or_max amount));
                   ("minTerm", Lte (inject_Z term));
                   ("maxTerm", Gte (or_max (inject_Z term)));
                   ("minCreditScore", Lte creditScore);
                   ("active", Eq (VBool true)) ];
       or_ := None |}.

(** ** Helper methods *)

(** Truthiness of a property read. *)
Definition truthy (o : option Value) : bool :=
  match o with
  | None => false
  | Some (VNum q) => negb (Qeq_bool q 0)
  | Some (VStr s) => negb (String.eqb s "")
  | Some (VBool b) => b
  | Some _ => true
  end.

Definition calculateAPR (interestRate : Num) (product : LoanProduct) : Num :=
  nadd interestRate (if truthy (field product "fees") then Fin 0.5 else Fin 0).

(** [s.includes(sub)]. *)
Fixpoint includes (s sub : string) : bool :=
  String.prefix sub s ||
  match s with
  | EmptyString => false
  | String _ s' => includes s' sub
  end.

Definition assessFlexibility (product : LoanProduct) : Num :=
  let score := Fin 0.5 in
  let score :=
    if existsb (fun perk => includes perk "No prepayment") (perks product)
    then nadd score (Fin 0.2) else score in
  let score :=
    if existsb (fun perk => includes perk "payment options") (perks product)
    then nadd score (Fin 0.2) else score in
  nmin score (Fin 1).

(** [random] is the value [Math.random()] returns at this call. *)
Definition assessCustomerService (institution : Institution) (random : Q) : Num :=
  nadd (Fin 0.6) (nmul (Fin random) (Fin 0.35)).

Definition assessApprovalLikelihood (product : LoanProduct)
    (creditScoreRange : CreditScoreRange) : Num :=
  nmin (Fin 1)
       (ndiv (nsub (of_option (range_max creditScoreRange))
                   (of_option (range_min creditScoreRange)))
             (Fin 200)).

Definition normalize (value min max : Num) : Num :=
  if strict_eq min max then Fin 0.5
  else ndiv (nsub value min) (nsub max min).

(** ** Metric calculator *)

Record AnalyzedProduct : Type := {
  product : LoanProduct;
  interestRate : Num;
  monthlyPayment : Num;
  totalPayment : Num;
  totalInterest : Num;
  apr : Num;
  flexibility : Num;
  customerService : Num;
  approvalLikelihood : Num
}.

(** The body of the loop of [calculateMetrics] for a product whose rate
    was found. *)
Definition analyzeProduct (product : LoanProduct) (rateInfo : InterestRate)
    (amount : Q) (term : Z) (random : Q) : AnalyzedProduct :=
  let monthlyRate := ndiv (ndiv (Fin (rate rateInfo)) (Fin 100)) (Fin 12) in
  let monthlyPayment :=
    ndiv (nmul (nmul (Fin amount) monthlyRate)
               (npow (nadd (Fin 1) monthlyRate) term))
         (nsub (npow (nadd (Fin 1) monthlyRate) term) (Fin 1)) in
  let totalPayment := nmul monthlyPayment (Fin (inject_Z term)) in
  let totalInterest := nsub totalPayment (Fin amount) in
  {| product := product;
     interestRate := Fin (rate rateInfo);
     monthlyPayment := monthlyPayment;
     totalPayment := totalPayment;
     totalInterest := totalInterest;
     apr := calculateAPR (Fin (rate rateInfo)) product;
     flexibility := assessFlexibility product;
     customerService := assessCustomerService (institution product) random;
     approvalLikelihood :=
       assessApprovalLikelihood product (creditScoreRange rateInfo) |}.

(** [calculateMetrics(products, amount, term)].  [Math.random] is the
    sequence [rnd]; [k] counts the draws made so far, one per product that
    is kept.  The rate is looked up with the product id alone. *)
Fixpoint calculateMetrics_from (db : Database) (rnd : nat -> Q) (k : nat)
    (products : list LoanProduct) (amount : Q) (term : Z)
    : list AnalyzedProduct :=
  match products with
  | [] => []
  | product :: rest =>
      match getLatestRate db (_id product) None with
      | None => calculateMetrics_from db rnd k rest amount term
      | Some rateInfo =>
          analyzeProduct product rateInfo amount term (rnd k)
          :: calculateMetrics_from db rnd (S k) rest amount term
      end
  end.

Definition calculateMetrics (db : Database) (rnd : nat -> Q)
    (products : list LoanProduct) (amount : Q) (term : Z)
    : list AnalyzedProduct :=
  calculateMetrics_from db rnd 0 products amount term.

(** ** Ranking engine *)

(** The keys of [weights] and of [scores], in insertion order. *)
Inductive Metric : Type :=
| InterestRateKey
| MonthlyPaymentKey
| CustomerServiceKey
| FlexibilityKey
| ApprovalLikelihoodKey.

Definition keys : list Metric :=
  [InterestRateKey; MonthlyPaymentKey; CustomerServiceKey; FlexibilityKey;
   ApprovalLikelihoodKey].

Record Weights : Type := {
  w_interestRate : Q;
  w_monthlyPayment : Q;
  w_customerService : Q;
  w_flexibility : Q;
  w_approvalLikelihood : Q
}.

Definition weight (w : Weights) (key : Metric) : Q :=
  match key with
  | InterestRateKey => w_interestRate w
  | MonthlyPaymentKey => w_monthlyPayment w
  | CustomerServiceKey => w_customerService w
  | FlexibilityKey => w_flexibility w
  | ApprovalLikelihoodKey => w_approvalLikelihood w
  end.

Definition initialWeights (preferences : Preferences) : Weights :=
  {| w_interestRate := if prioritizeRate preferences then 0.4 else 0.3;
     w_monthlyPayment := if prioritizePayment preferences then 0.4 else 0.2;
     w_customerService := if prioritizeService preferences then 0.3 else 0.1;
     w_flexibility := if prioritizeFlexibility preferences then 0.3 else 0.1;
     w_approvalLikelihood := if prioritizeApproval preferences then 0.3 else 0.2 |}.

(** [Object.values(weights).reduce((sum, w) => sum + w, 0)]. *)
Definition totalWeight (w : Weights) : Q :=
  fold_left (fun sum key => sum + weight w key) keys 0.

(** [weights[key] /= totalWeight] for every key.  The total is at least
    0.9, so the quotient is the rational one. *)
Definition normalizeWeights (w : Weights) : Weights :=
  let total := totalWeight w in
  {| w_interestRate := w_interestRate w / total;
     w_monthlyPayment := w_monthlyPayment w / total;
     w_customerService := w_customerService w / total;
     w_flexibility := w_flexibility w / total;
     w_approvalLikelihood := w_approvalLikelihood w / total |}.

Definition weights (preferences : Preferences) : Weights :=
  normalizeWeights (initialWeights preferences).

Record Range : Type := { r_min : Num; r_max : Num }.

Record Ranges : Type := {
  rg_interestRate : Range;
  rg_monthlyPayment : Range;
  rg_totalInterest : Range;
  rg_apr : Range
}.

Definition emptyRange : Range := {| r_min := PInf; r_max := NInf |}.

Definition widen (r : Range) (v : Num) : Range :=
  {| r_min := nmin (r_min r) v; r_max := nmax (r_max r) v |}.

Definition ranges (analyzedProducts : list AnalyzedProduct) : Ranges :=
  fold_left
    (fun rg p =>
       {| rg_interestRate := widen (rg_interestRate rg) (interestRate p);
          rg_monthlyPayment := widen (rg_monthlyPayment rg) (monthlyPayment p);
          rg_totalInterest := widen (rg_totalInterest rg) (totalInterest p);
          rg_apr := widen (rg_apr rg) (apr p) |})
    analyzedProducts
    {| rg_interestRate := emptyRange; rg_monthlyPayment := emptyRange;
       rg_totalInterest := emptyRange; rg_apr := emptyRange |}.

Record Scores : Type := {
  s_interestRate : Num;
  s_monthlyPayment : Num;
  s_customerService : Num;
  s_flexibility : Num;
  s_approvalLikelihood : Num
}.

Definition score (s : Scores) (key : Metric) : Num :=
  match key with
  | InterestRateKey => s_interestRate s
  | MonthlyPaymentKey => s_monthlyPayment s
  | CustomerServiceKey => s_customerService s
  | FlexibilityKey => s_flexibility s
  | ApprovalLikelihoodKey => s_approvalLikelihood s
  end.

(** [{ ...product, scores, totalScore }]. *)
Record ScoredProduct : Type := {
  analyzed : AnalyzedProduct;
  scores : Scores;
  totalScore : Num
}.

Definition scoresOf (rg : Ranges) (p : AnalyzedProduct) : Scores :=
  {| s_interestRate :=
       nsub (Fin 1) (normalize (interestRate p)
                               (r_min (rg_interestRate rg))
                               (r_max (rg_interestRate rg)));
     s_monthlyPayment :=
       nsub (Fin 1) (normalize (monthlyPayment p)
                               (r_min (rg_monthlyPayment rg))
                               (r_max (rg_monthlyPayment rg)));
     s_customerService := customerService p;
     s_flexibility := flexibility p;
     s_approvalLikelihood := approvalLikelihood p |}.

(** The summand of one key in the weighted total. *)
Definition contribution (w : Weights) (s : Scores) (key : Metric) : Num :=
  nmul (score s key) (Fin (weight w key)).

(** [Object.keys(scores).reduce((sum, key) => sum + scores[key] *
    weights[key], 0)]. *)
Definition weightedTotal (w : Weights) (s : Scores) : Num :=
  fold_left (fun sum key => nadd sum (contribution w s key)) keys (Fin 0).

Definition scoreProduct (w : Weights) (rg : Ranges) (p : AnalyzedProduct)
    : ScoredProduct :=
  let s := scoresOf rg p in
  {| analyzed := p; scores := s; totalScore := weightedTotal w s |}.

(** [list.sort(compare)] for a comparator returning a number: [b] moves in
    front of [a] when [compare(a, b) > 0]; a NaN result counts as 0. *)
Definition js_sort {A} (compare : A -> A -> Num) (l : list A) : list A :=
  sort_by (fun a b => negb (nltb (Fin 0) (compare a b))) l.

Definition scoredProducts (analyzedProducts : list AnalyzedProduct)
    (preferences : Preferences) : list ScoredProduct :=
  map (scoreProduct (weights preferences) (ranges analyzedProducts))
      analyzedProducts.

Definition rankProducts (analyzedProducts : list AnalyzedProduct)
    (preferences : Preferences) : list ScoredProduct :=
  js_sort (fun a b => nsub (totalScore b) (totalScore a))
          (scoredProducts analyzedProducts preferences).

(** ** Recommendations *)

(** The narrative is kept as the sequence of its sentences, each with the
    values the template interpolates; [toFixed(2)] is presentation only. *)
Inductive Sentence : Type :=
| NoSuitableOptions
| WeRecommend (loanType : string) (amount : Q) (term : Z)
              (institutionName productName : string)
| CompetitiveRate (interestRate monthlyPayment : Num)
| AbsoluteLowestRate (interestRate : Num) (institutionName productName : string)
| LowestPaymentOffer (institutionName productName : string)
                     (monthlyPayment : Num).

Record Recommendations : Type := {
  bestOverall : option ScoredProduct;
  lowestRate : option ScoredProduct;
  lowestPayment : option ScoredProduct;
  text : list Sentence
}.

(** The elements of an array together with their positions: two reads are
    the same object exactly when the positions agree. *)
Definition indexed {A} (l : list A) : list (nat * A) :=
  combine (seq 0 (List.length l)) l.

(** [list.slice().sort((a, b) => key(a) - key(b))[0]]. *)
Definition lowestBy (key : ScoredProduct -> Num) (l : list ScoredProduct)
    : option (nat * ScoredProduct) :=
  hd_error (js_sort (fun a b => nsub (key (snd a)) (key (snd b))) (indexed l)).

Definition generateRecommendations (rankedProducts : list ScoredProduct)
    (params : Params) : Recommendations :=
  match rankedProducts,
        lowestBy (fun p => interestRate (analyzed p)) rankedProducts,
        lowestBy (fun p => monthlyPayment (analyzed p)) rankedProducts with
  | bestOverall :: _, Some (iRate, lowestRate), Some (iPay, lowestPayment) =>
      let sentences :=
        [ WeRecommend (loanType params) (amount params) (term params)
            (inst_name (institution (product (analyzed bestOverall))))
            (name (product (analyzed bestOverall)));
          CompetitiveRate (interestRate (analyzed bestOverall))
                          (monthlyPayment (analyzed bestOverall)) ] in
      let sentences :=
        if negb (Nat.eqb 0 iRate) then
          (sentences ++
           [ AbsoluteLowestRate (interestRate (analyzed lowestRate))
               (inst_name (institution (product (analyzed lowestRate))))
               (name (product (analyzed lowestRate))) ])%list
        else sentences in
      let sentences :=
        if negb (Nat.eqb 0 iPay) && negb (Nat.eqb iRate iPay) then
          (sentences ++
           [ LowestPaymentOffer
               (inst_name (institution (product (analyzed lowestPayment))))
               (name (product (analyzed lowestPayment)))
               (monthlyPayment (analyzed lowestPayment)) ])%list
        else sentences in
      {| bestOverall := Some bestOverall;
         lowestRate := Some lowestRate;
         lowestPayment := Some lowestPayment;
         text := sentences |}
  | _, _, _ =>
      {| bestOverall := None; lowestRate := None; lowestPayment := None;
         text := [NoSuitableOptions] |}
  end.

(** ** Insights *)

Inductive RatePosition : Type := BelowAverage | AboveAverage | AroundAverage.

(** [trendMap[loanType] || { avg: 6.0, trend: 'stable' }]. *)
Definition trendMap (loanType : string) : Q * string :=
  if String.eqb loanType "Mortgage" then (5.5, "rising")
  else if String.eqb loanType "Personal" then (8.0, "stable")
  else if String.eqb loanType "Auto" then (4.0, "rising")
  else if String.eqb loanType "Student" then (5.5, "falling")
  else if String.eqb loanType "Business" then (7.0, "rising")
  else (6.0, "stable").

Definition getRateTrendText (loanType : string) (currentRate : Num)
    : RatePosition * string :=
  let (avg, trend) := trendMap loanType in
  if nltb currentRate (nsub (Fin avg) (Fin 0.5)) then (BelowAverage, trend)
  else if nltb (nadd (Fin avg) (Fin 0.5)) currentRate then (AboveAverage, trend)
  else (AroundAverage, trend).

Inductive CreditBand : Type := Excellent | Good | Fair | Limiting.

(** [params.creditScore] is read here without the default: an omitted
    score compares false with every bound. *)
Definition getCreditScoreImpactText (creditScore : option Q)
    (products : list ScoredProduct) : CreditBand :=
  if nleb (Fin 750) (of_option creditScore) then Excellent
  else if nleb (Fin 700) (of_option creditScore) then Good
  else if nleb (Fin 650) (of_option creditScore) then Fair
  else Limiting.

Inductive TermBand : Type := ShortTerm | MediumTerm | LongTerm.

Definition getTermImpactText (term : Z) (topProduct : ScoredProduct)
    : Q * TermBand * Num :=
  let termYears := inject_Z term / 12 in
  if (term <=? 36)%Z then (termYears, ShortTerm, totalInterest (analyzed topProduct))
  else if (term <=? 60)%Z then (termYears, MediumTerm, totalInterest (analyzed topProduct))
  else (termYears, LongTerm, totalInterest (analyzed topProduct)).

(** [uniquePerks.add(perk)]: a [Set] keeps the first insertion. *)
Definition set_add (s : list string) (x : string) : list string :=
  if existsb (String.eqb x) s then s else (s ++ [x])%list.

Definition findSpecialOffers (products : list ScoredProduct)
    : option (list string) :=
  let uniquePerks :=
    fold_left (fun s p => fold_left set_add (perks (product (analyzed p))) s)
              products [] in
  match uniquePerks with
  | [] => None
  | _ => Some (firstn 3 uniquePerks)
  end.

Inductive InsightText : Type :=
| RateTrendText (loanType : string) (avgRate : Num) (pos : RatePosition)
                (trend : string)
| CreditImpactText (band : CreditBand)
| TermImpactText (termYears : Q) (band : TermBand) (totalInterest : Num)
| SpecialOffersText (perks : list string).

Record Insight : Type := {
  insight_type : string;
  insight_title : string;
  insight_text : InsightText
}.

Definition generateInsights (rankedProducts : list ScoredProduct)
    (params : Params) : list Insight :=
  match rankedProducts with
  | [] => []
  | top :: _ =>
      let avgRate :=
        ndiv (fold_left (fun sum p => nadd sum (interestRate (analyzed p)))
                        rankedProducts (Fin 0))
             (Fin (inject_Z (Z.of_nat (List.length rankedProducts)))) in
      let (pos, trend) := getRateTrendText (loanType params) avgRate in
      let '(termYears, band, interest) := getTermImpactText (term params) top in
      ([ {| insight_type := "rate_trend";
           insight_title := "Interest Rate Trend";
           insight_text := RateTrendText (loanType params) avgRate pos trend |};
        {| insight_type := "credit_impact";
           insight_title := "Credit Score Impact";
           insight_text :=
             CreditImpactText
               (getCreditScoreImpactText (creditScore params) rankedProducts) |};
        {| insight_type := "term_impact";
           insight_title := "Loan Term Consideration";
           insight_text := TermImpactText termYears band interest |} ]
      ++ match findSpecialOffers rankedProducts with
         | Some perksList =>
             [ {| insight_type := "special_offers";
                  insight_title := "Special Offers";
                  insight_text := SpecialOffersText perksList |} ]
         | None => []
         end)%list
  end.

(** ** Educational content *)

(** The static table is kept by its titles and the sizes of its lists. *)
Record EducationalContent : Type := {
  edu_title : string;
  edu_description : string;
  edu_keyPoints : nat;
  edu_videoLinks : nat;
  edu_commonTerms : nat
}.

Definition getEducationalContent (loanType : string) : EducationalContent :=
  if String.eqb loanType "Mortgage" then
    {| edu_title := "Understanding Mortgage Loans";
       edu_description := "A mortgage is a loan used to purchase real estate, typically a home. The property serves as collateral for the loan, which means it can be seized by the lender if you fail to make payments.";
       edu_keyPoints := 5; edu_videoLinks := 2; edu_commonTerms := 4 |}
  else if String.eqb loanType "Personal" then
    {| edu_title := "Understanding Personal Loans";
       edu_description := "Personal loans are unsecured loans that can be used for almost any purpose, from debt consolidation to funding major purchases or expenses.";
       edu_keyPoints := 4; edu_videoLinks := 2; edu_commonTerms := 4 |}
  else
    {| edu_title := "Understanding " ++ loanType ++ " Loans";
       edu_description := "Learn about " ++ loanType ++ " loans and how they work.";
       edu_keyPoints := 3; edu_videoLinks := 0; edu_commonTerms := 0 |}.

(** ** Alternatives *)

(** The three kinds of entry, [lower_credit_options],
    [different_term_options] and [different_loan_type]. *)
Inductive Alternative : Type :=
| LowerCreditOptions (products : list LoanProduct)
| DifferentTermOptions (products : list LoanProduct)
| DifferentLoanType (title description : string).

Definition suggestAlternatives (db : Database) (loanType : string)
    (amount : Q) (term : Z) (creditScore : Q) : list Alternative :=
  let lowerCreditOptions :=
    limit 2 (find (loanProducts db)
      {| where_ := [ ("type", Eq (VStr loanType));
                     ("minAmount", Lte amount);
                     ("maxAmount", Gte (or_max amount));
                     ("minTerm", Lte (inject_Z term));
                     ("maxTerm", Gte (or_max (inject_Z term)));
                     ("minCreditScore", Lt (creditScore - 30));
                     ("active", Eq (VBool true)) ];
         or_ := None |}) in
  let differentTermOptions :=
    limit 2 (find (loanProducts db)
      {| where_ := [ ("type", Eq (VStr loanType));
                     ("minAmount", Lte amount);
                     ("maxAmount", Gte (or_max amount));
                     ("minCreditScore", Lte creditScore);
                     ("active", Eq (VBool true)) ];
         or_ := Some [ [ ("minTerm", Lte (inject_Z term - 12)) ];
                       [ ("maxTerm", Gte (inject_Z term + 12)) ] ] |}) in
  ((match lowerCreditOptions with
    | [] => []
    | _ => [LowerCreditOptions lowerCreditOptions]
    end)
  ++ (match differentTermOptions with
      | [] => []
      | _ => [DifferentTermOptions differentTermOptions]
      end)
  ++ (if String.eqb loanType "Personal" && Qle_bool 25000 amount
      then [DifferentLoanType "Consider a Home Equity Loan"
              "For larger amounts, a home equity loan might offer lower interest rates if you own a home with sufficient equity."]
      else []))%list.

(** ** The entry point *)

Inductive AnalysisResult : Type :=
| NoEligibleProducts (message : string) (alternatives : list Alternative)
| Analysis (recommendations : Recommendations)
           (topOptions allOptions : list ScoredProduct)
           (educationalContent : EducationalContent)
           (insights : list Insight).

(** The [success] property of the returned object. *)
Definition success (r : AnalysisResult) : bool :=
  match r with
  | NoEligibleProducts _ _ => false
  | Analysis _ _ _ _ _ => true
  end.

(** [analyzeLoanOptions(params)], with the database it queries and the
    sequence [Math.random] returns during the call. *)
Definition analyzeLoanOptions (db : Database) (rnd : nat -> Q)
    (params : Params) : AnalysisResult :=
  let creditScore_ :=
    match creditScore params with Some s => s | None => 700 end in
  let eligibleProducts :=
    getEligibleProducts db (loanType params) (amount params) (term params)
                        creditScore_ in
  match eligibleProducts with
  | [] =>
      NoEligibleProducts
        "No eligible loan products found. Consider improving your credit score or adjusting loan parameters."
        (suggestAlternatives db (loanType params) (amount params)
                             (term params) creditScore_)
  | _ =>
      let analyzedProducts :=
        calculateMetrics db rnd eligibleProducts (amount params) (term params) in
      let rankedProducts :=
        rankProducts analyzedProducts (preferences params) in
      Analysis (generateRecommendations rankedProducts params)
               (firstn 3 rankedProducts)
               rankedProducts
               (getEducationalContent (loanType params))
               (generateInsights rankedProducts params)
  end.

End AIAnalysisService.

(* ================================================================== *)
(** * The weight table on binary64 *)
(* ================================================================== *)

(** The weights of [rankProducts] are built from decimal literals with
    [+] and [/] alone, both correctly rounded in JavaScript as in
    [PrimFloat], so the table can be evaluated bit for bit. *)
Module Binary64.

Import AIAnalysisService.
Import PrimFloat.

#[local] Set Warnings "-inexact-float".
#[local] Open Scope float_scope.

Definition initialWeight (preferences : Preferences) (key : Metric) : float :=
  match key with
  | InterestRateKey => if prioritizeRate preferences then 0.4 else 0.3
  | MonthlyPaymentKey => if prioritizePayment preferences then 0.4 else 0.2
  | CustomerServiceKey => if prioritizeService preferences then 0.3 else 0.1
  | FlexibilityKey => if prioritizeFlexibility preferences then 0.3 else 0.1
  | ApprovalLikelihoodKey => if prioritizeApproval preferences then 0.3 else 0.2
  end.

(** [Object.values(weights).reduce((sum, w) => sum + w, 0)]. *)
Definition totalWeight (preferences : Preferences) : float :=
  fold_left (fun sum key => sum + initialWeight preferences key) keys 0.

(** [weights[key]] after [weights[key] /= totalWeight]. *)
Definition weight (preferences : Preferences) (key : Metric) : float :=
  initialWeight preferences key / totalWeight preferences.

(** The sum of the renormalised weights, added in key order. *)
Definition weightSum (preferences : Preferences) : float :=
  fold_left (fun sum key => sum + weight preferences key) keys 0.

Definition one : float := 1.

(** One unit in the last place of 1, and the float next above 1. *)
Definition ulp1 : float := 0x1p-52.
Definition succ_one : float := 0x1.0000000000001p+0.

(** [|x - 1|] is at most one unit in the last place of 1. *)
Definition near_one (x : float) : bool := leb (abs (x - one)) ulp1.

(** The rational a finite binary64 value stands for. *)
Definition exact (x : float) : option Q :=
  match FloatOps.Prim2SF x with
  | SpecFloat.S754_zero _ => Some 0%Q
  | SpecFloat.S754_finite s m e =>
      Some ((if s then -1 else 1) * inject_Z (Z.pos m) * 2 ^ e)%Q
  | _ => None
  end.

(** The sum of the renormalised weights as rationals, free of the rounding
    and of the order of a floating-point summation. *)
Definition exactWeightSum (preferences : Preferences) : option Q :=
  fold_left (fun sum key =>
               match sum, exact (weight preferences key) with
               | Some s, Some w => Some (s + w)%Q
               | _, _ => None
               end)
            keys (Some 0%Q).

End Binary64.

(* ================================================================== *)
(** * The metrics on binary64 *)
(* ================================================================== *)

(** The arithmetic of [calculateMetrics] and of the two assessments on
    primitive binary64 floats.  [+], [-], [*] and [/] are correctly rounded
    in JavaScript as in [PrimFloat]. *)
Module Binary64Metrics.

Import PrimFloat.

#[local] Set Warnings "-inexact-float".
#[local] Open Scope float_scope.

(** [Math.pow(x, n)] at a whole exponent [n >= 0].  It is 1 at the exponent
    0 and [x] at the exponent 1; above, where the language leaves the
    result to the implementation, repeated multiplication stands in. *)
Fixpoint pow (x : float) (n : nat) : float :=
  match n with
  | O => 1
  | S O => x
  | S n' => x * pow x n'
  end.

(** A term in months as a number. *)
Definition months (term : nat) : float :=
  of_uint63 (Uint63.of_Z (Z.of_nat term)).

Definition monthlyPayment (amount rate : float) (term : nat) : float :=
  let monthlyRate := rate / 100 / 12 in
  amount * monthlyRate * pow (1 + monthlyRate) term
  / (pow (1 + monthlyRate) term - 1).

Definition totalPayment (amount rate : float) (term : nat) : float :=
  monthlyPayment amount rate term * months term.

Definition totalInterest (amount rate : float) (term : nat) : float :=
  totalPayment amount rate term - amount.

(** [Math.min] on numbers that are not NaN. *)
Definition fmin (x y : float) : float := if ltb y x then y else x.

(** [assessFlexibility], given the outcome of the two tests on the perks. *)
Definition assessFlexibility (noPrepayment paymentOptions : bool) : float :=
  let score := 0.5 in
  let score := if noPrepayment then score + 0.2 else score in
  let score := if paymentOptions then score + 0.2 else score in
  fmin score 1.

(** [assessCustomerService], given the value [Math.random] returns. *)
Definition assessCustomerService (random : float) : float :=
  0.6 + random * 0.35.

(** The largest value [Math.random] can return, the float next below 1. *)
Definition pred_one : float := 0x1.fffffffffffffp-1.

(** The bounds of the two assessments, as the literals denote them. *)
Definition zero : float := 0.
Definition flexibilityFloor : float := 0.5.
Definition flexibilityCap : float := 0.9.
Definition serviceFloor : float := 0.6.
Definition serviceCap : float := 0.95.

(** A principal of 10000 and a rate of 0.000001 percent a year. *)
Definition principal : float := 10000.
Definition tinyRate : float := 1e-6.

End Binary64Metrics.

(* ================================================================== *)
(** * Number formatting *)
(* ================================================================== *)

Module NumberFormat.

(** The value of [x.toFixed(2)] for a finite [x]: the multiple of 0.01
    nearest to [x], the one of larger magnitude on a tie.  The rounding is
    that of the exact value; above 10^21 the method switches to exponent
    notation, which is not modelled. *)
Definition toFixed2 (x : Q) : Q :=
  if Qle_bool 0 x
  then Qfloor (x * 100 + (1 # 2)) # 100
  else - (Qfloor (- x * 100 + (1 # 2)) # 100).

(** What [x.toFixed(2)] shows. *)
Inductive Shown : Type :=
| Digits (q : Q)
| ShownNaN
| ShownInfinity
| ShownNegInfinity.

Definition toFixed (x : Num) : Shown :=
  match x with
  | Fin q => Digits (toFixed2 q)
  | NaN => ShownNaN
  | PInf => ShownInfinity
  | NInf => ShownNegInfinity
  end.

End NumberFormat.

(* ================================================================== *)
(** * Rate tracker: ingest, history and trends
      (backend/src/services/rate-tracker/index.js) *)
(* ================================================================== *)

Module RateTrackerIngest.

Import NumberFormat.

Open Scope string_scope.

(** An entry of a feed, as [getMockRates] builds it and [processRates]
    reads it. *)
Record RateInfo : Type := {
  ri_productName : string;
  ri_loanType : string;
  ri_interestRate : Q;
  ri_termMonths : Q;
  ri_minCreditScore : option Q;
  ri_maxCreditScore : option Q
}.

Definition getBaseRateForType (type : string) : Q :=
  if String.eqb type "Mortgage" then 5.75
  else if String.eqb type "Personal" then 8.5
  else if String.eqb type "Auto" then 4.25
  else if String.eqb type "Student" then 6.0
  else if String.eqb type "Business" then 7.25
  else 6.0.

Definition getDefaultTermForType (type : string) : Q :=
  if String.eqb type "Mortgage" then 360
  else if String.eqb type "Personal" then 60
  else if String.eqb type "Auto" then 72
  else if String.eqb type "Student" then 120
  else if String.eqb type "Business" then 84
  else 60.

Definition getMinCreditScoreForProduct (suffix : string) : Q :=
  if String.eqb suffix "Premium" then 740
  else if String.eqb suffix "Plus" then 700
  else if String.eqb suffix "Select" then 680
  else if String.eqb suffix "Standard" then 650
  else if String.eqb suffix "Basic" then 620
  else 650.

Definition loanTypes : list string :=
  ["Mortgage"; "Personal"; "Auto"; "Student"; "Business"].

Definition productSuffixes : list string :=
  ["Premium"; "Standard"; "Basic"; "Plus"; "Select"].

Definition variationFactor (suffix : string) : Q :=
  if String.eqb suffix "Premium" then - 0.3
  else if String.eqb suffix "Plus" then - 0.15
  else if String.eqb suffix "Select" then - 0.1
  else if String.eqb suffix "Standard" then 0
  else 0.2.

(** The body of the two loops of [getMockRates] over the pairs of a loan
    type and a suffix, the type in the outer loop.  [rnd] is the sequence
    [Math.random] returns and [k] the number of draws made so far: one
    draw decides whether the pair is skipped, a second one varies the rate
    of a pair that is kept. *)
Fixpoint mockRates_from (sourceName : string) (rnd : nat -> Q) (k : nat)
    (pairs : list (string * string)) : list RateInfo * nat :=
  match pairs with
  | [] => ([], k)
  | (loanType, suffix) :: rest =>
      if Qltb 0.7 (rnd k) then mockRates_from sourceName rnd (S k) rest
      else
        let baseRate := getBaseRateForType loanType in
        let productName := sourceName ++ " " ++ loanType ++ " " ++ suffix in
        let interestRate :=
          baseRate + variationFactor suffix + (rnd (S k) * 0.2 - 0.1) in
        let (rates, k') := mockRates_from sourceName rnd (S (S k)) rest in
        ({| ri_productName := productName;
            ri_loanType := loanType;
            ri_interestRate := toFixed2 interestRate;
            ri_termMonths := getDefaultTermForType loanType;
            ri_minCreditScore := Some (getMinCreditScoreForProduct suffix);
            ri_maxCreditScore := None |} :: rates, k')
  end.

Definition getMockRates (sourceName : string) (rnd : nat -> Q) (k : nat)
    : list RateInfo * nat :=
  mockRates_from sourceName rnd k (list_prod loanTypes productSuffixes).

(** One element of [fetchedRates.results]. *)
Record FetchResult : Type := {
  source : string;
  data : list RateInfo;
  timestamp : Z
}.

(** [x || d] for a number that may be absent. *)
Definition or_default (x : option Q) (d : Q) : Q :=
  match x with
  | Some q => if Qeq_bool q 0 then d else q
  | None => d
  end.

(** [LoanProduct.findOne({ name, type })]. *)
Definition findLoanProduct (db : Database) (rateInfo : RateInfo)
    : option LoanProduct :=
  hd_error (find (loanProducts db)
              {| where_ := [ ("name", Eq (VStr (ri_productName rateInfo)));
                             ("type", Eq (VStr (ri_loanType rateInfo))) ];
                 or_ := None |}).

(** The record [processRates] saves for a feed entry of a known product. *)
Definition newRate (product : LoanProduct) (timestamp : Z)
    (rateInfo : RateInfo) : InterestRate :=
  {| loanProduct := _id product;
     date := timestamp;
     rate := ri_interestRate rateInfo;
     termLength := ri_termMonths rateInfo;
     creditScoreRange :=
       {| range_min := Some (or_default (ri_minCreditScore rateInfo) 0);
          range_max := Some (or_default (ri_maxCreditScore rateInfo) 850) |} |}.

(** The inner loop of [processRates]: the entries of one source.  The
    state is the database and the list [processed]; an entry whose product
    is unknown is passed over. *)
Fixpoint processData (timestamp : Z) (data : list RateInfo)
    (st : Database * list InterestRate) : Database * list InterestRate :=
  match data with
  | [] => st
  | rateInfo :: rest =>
      let (db, processed) := st in
      match findLoanProduct db rateInfo with
      | None => processData timestamp rest st
      | Some product =>
          let saved := newRate product timestamp rateInfo in
          processData timestamp rest
            ({| loanProducts := loanProducts db;
                interestRates := (interestRates db ++ [saved])%list |},
             (processed ++ [saved])%list)
      end
  end.

Fixpoint processResults (results : list FetchResult)
    (st : Database * list InterestRate) : Database * list InterestRate :=
  match results with
  | [] => st
  | result :: rest =>
      processResults rest (processData (timestamp result) (data result) st)
  end.

(** [processRates(fetchedRates)]: the database afterwards and the list
    returned. *)
Definition processRates (db : Database) (results : list FetchResult)
    : Database * list InterestRate :=
  processResults results (db, []).

Definition msPerDay : Z := 86400000.

(** The time zone of the server: the conversions [LocalTime] and [UTC] of
    the language between time values and local time values, both in ms. *)
Record TimeZone : Type := {
  LocalTime : Z -> Z;
  UTC : Z -> Z
}.

(** [startDate.setDate(startDate.getDate() - days)] on the date [now].
    [setDate] works on the local time value: it moves the day of the month,
    hence the local day, back by [days] and keeps the local time of day,
    and converts the result back.  Across a change of the clock the result
    is not [days] times 24 hours before [now]. *)
Definition daysBefore (tz : TimeZone) (now : Z) (days : Z) : Z :=
  UTC tz (LocalTime tz now - days * msPerDay)%Z.

(** [.sort({ date: 1 })]. *)
Definition sort_asc {D} (key : D -> Z) (docs : list D) : list D :=
  sort_by (fun x y => (key x <=? key y)%Z) docs.

(** [getHistoricalRates(loanProductId, days = 30)] called at [now] on a
    server in the zone [tz].  The
    query puts [$gte] on the date, which is matched here directly. *)
Definition getHistoricalRates (db : Database) (tz : TimeZone) (now : Z)
    (loanProductId : nat) (days : option Z) : list InterestRate :=
  let days := match days with Some d => d | None => 30%Z end in
  let startDate := daysBefore tz now days in
  sort_asc date
    (filter (fun r => Nat.eqb (loanProduct r) loanProductId
                      && (startDate <=? date r)%Z)
            (interestRates db)).

(** A group of the aggregation of [getRateTrendsByType]. *)
Record RateTrend : Type := {
  trend_id : Z;
  averageRate : Q;
  minRate : Q;
  maxRate : Q;
  count : nat
}.

(** The key [$dateToString] with format [%Y-%m-%d] groups by is the UTC
    day of the date; it is kept as the number of the day, which orders as
    the string does for four-digit years. *)
Definition dayOf (r : InterestRate) : Z := (date r / msPerDay)%Z.

(** The keys of the groups in ascending order, each once. *)
Fixpoint insert_key (d : Z) (keys : list Z) : list Z :=
  match keys with
  | [] => [d]
  | e :: rest =>
      if (d <? e)%Z then d :: e :: rest
      else if (d =? e)%Z then e :: rest
      else e :: insert_key d rest
  end.

Definition groupKeys (docs : list InterestRate) : list Z :=
  fold_right (fun r keys => insert_key (dayOf r) keys) [] docs.

Definition sumRates (docs : list InterestRate) : Q :=
  fold_right (fun r acc => rate r + acc) 0 docs.

Definition leastRate (docs : list InterestRate) : Q :=
  match docs with
  | [] => 0
  | r :: rest => fold_right (fun r acc => Qmin (rate r) acc) (rate r) rest
  end.

Definition greatestRate (docs : list InterestRate) : Q :=
  match docs with
  | [] => 0
  | r :: rest => fold_right (fun r acc => Qmax (rate r) acc) (rate r) rest
  end.

Definition groupOf (docs : list InterestRate) (d : Z) : list InterestRate :=
  filter (fun r => (dayOf r =? d)%Z) docs.

(** [$avg] is taken as the mean without rounding. *)
Definition trendOf (docs : list InterestRate) (d : Z) : RateTrend :=
  let group := groupOf docs d in
  {| trend_id := d;
     averageRate := sumRates group / inject_Z (Z.of_nat (List.length group));
     minRate := leastRate group;
     maxRate := greatestRate group;
     count := List.length group |}.

(** The documents the [$match] stage lets through. *)
Definition matchedRates (db : Database) (tz : TimeZone) (now : Z)
    (loanType : string) (days : Z) : list InterestRate :=
  let startDate := daysBefore tz now days in
  let loanProductIds :=
    map _id (find (loanProducts db)
               {| where_ := [ ("type", Eq (VStr loanType)) ]; or_ := None |}) in
  filter (fun r => existsb (Nat.eqb (loanProduct r)) loanProductIds
                   && (startDate <=? date r)%Z)
         (interestRates db).

(** [getRateTrendsByType(loanType, days = 90)] called at [now] on a server
    in the zone [tz]. *)
Definition getRateTrendsByType (db : Database) (tz : TimeZone) (now : Z)
    (loanType : string) (days : option Z) : list RateTrend :=
  let days := match days with Some d => d | None => 90%Z end in
  let matched := matchedRates db tz now loanType days in
  map (trendOf matched) (groupKeys matched).

End RateTrackerIngest.

(* ================================================================== *)
(** * Frontend components *)
(* ================================================================== *)

Module Frontend.

Import NumberFormat.

(** An institution as [LoanComparison] holds it; [rates] is the object of
    rates by loan type. *)
Record OfferingInstitution : Type := {
  oi_id : nat;
  oi_name : string;
  oi_loanTypes : list string;
  oi_rates : list (string * Q);
  oi_minCreditScore : Q;
  oi_processingTime : string;
  oi_perks : list string
}.

(** [rates[type]], [undefined] for a type the object lacks. *)
Fixpoint rateOf (rates : list (string * Q)) (type : string) : option Q :=
  match rates with
  | [] => None
  | (t, r) :: rest => if String.eqb t type then Some r else rateOf rest type
  end.

Record Comparison : Type := {
  inst : OfferingInstitution;
  cmp_rate : option Q;
  monthlyPayment : Num;
  totalPayment : Num;
  totalInterest : Num
}.

(** The function mapped over the filtered institutions (frontend
    LoanComparison.jsx, lines 47-65); the term is in years. *)
Definition compareOne (selectedLoanType : string) (loanAmount : Q)
    (loanTerm : Z) (i : OfferingInstitution) : Comparison :=
  let rate := rateOf (oi_rates i) selectedLoanType in
  let monthlyRate := ndiv (ndiv (of_option rate) (Fin 100)) (Fin 12) in
  let totalMonths := (loanTerm * 12)%Z in
  let monthlyPayment :=
    ndiv (nmul (nmul (Fin loanAmount) monthlyRate)
               (npow (nadd (Fin 1) monthlyRate) totalMonths))
         (nsub (npow (nadd (Fin 1) monthlyRate) totalMonths) (Fin 1)) in
  let totalPayment := nmul monthlyPayment (Fin (inject_Z totalMonths)) in
  let totalInterest := nsub totalPayment (Fin loanAmount) in
  {| inst := i;
     cmp_rate := rate;
     monthlyPayment := monthlyPayment;
     totalPayment := totalPayment;
     totalInterest := totalInterest |}.

(** The list the effect of [LoanComparison] stores in [comparisons]. *)
Definition comparisons (institutions : list OfferingInstitution)
    (selectedLoanType : string) (loanAmount : Q) (loanTerm : Z)
    : list Comparison :=
  let filteredInstitutions :=
    filter (fun i => existsb (String.eqb selectedLoanType) (oi_loanTypes i))
           institutions in
  AIAnalysisService.js_sort
    (fun a b => nsub (monthlyPayment a) (monthlyPayment b))
    (map (compareOne selectedLoanType loanAmount loanTerm)
         filteredInstitutions).

(** What [calculateLoan] of [LoanCalculator] stores: the three figures,
    each through [toFixed(2)]. *)
Record LoanFigures : Type := {
  shownMonthlyPayment : Shown;
  shownTotalPayment : Shown;
  shownTotalInterest : Shown
}.

Definition calculateLoan (loanAmount interestRate : Q) (loanTerm : Z)
    : LoanFigures :=
  let monthlyRate := ndiv (ndiv (Fin interestRate) (Fin 100)) (Fin 12) in
  let totalMonths := (loanTerm * 12)%Z in
  let monthlyPaymentCalc :=
    ndiv (nmul (nmul (Fin loanAmount) monthlyRate)
               (npow (nadd (Fin 1) monthlyRate) totalMonths))
         (nsub (npow (nadd (Fin 1) monthlyRate) totalMonths) (Fin 1)) in
  let totalPaymentCalc := nmul monthlyPaymentCalc (Fin (inject_Z totalMonths)) in
  let totalInterestCalc := nsub totalPaymentCalc (Fin loanAmount) in
  {| shownMonthlyPayment := toFixed monthlyPaymentCalc;
     shownTotalPayment := toFixed totalPaymentCalc;
     shownTotalInterest := toFixed totalInterestCalc |}.

End Frontend.

(* ================================================================== *)
(** * Vocabulary of the properties *)
(* ================================================================== *)

Import RateTrackerService AIAnalysisService.

(** [preferences = {}]: no flag set. *)
Definition noPreferences : Preferences :=
  {| prioritizeRate := false; prioritizePayment := false;
     prioritizeService := false; prioritizeFlexibility := false;
     prioritizeApproval := false |}.

(** [l] is [m] with some elements left out, the others in place. *)
Inductive Subsequence {A} : list A -> list A -> Prop :=
| Subsequence_nil : Subsequence [] []
| Subsequence_skip x l m : Subsequence l m -> Subsequence l (x :: m)
| Subsequence_keep x l m : Subsequence l m -> Subsequence (x :: l) (x :: m).

(** What the query of [getEligibleProducts] asks of one product, read off
    the stored fields. *)
Definition eligible (loanType : string) (amount : Q) (term : Z)
    (creditScore : Q) (p : LoanProduct) : Prop :=
  type p = loanType /\
  minAmount p <= amount /\
  (exists hi, maxAmount p = Some hi /\ or_max amount <= hi) /\
  minTerm p <= inject_Z term /\
  (exists hi, maxTerm p = Some hi /\ or_max (inject_Z term) <= hi) /\
  (exists lo, minCreditScore p = Some lo /\ lo <= creditScore) /\
  active p = true.

(** The filter as C3 words it: an absent upper bound is no bound.  The
    claim does not say what an absent minimum credit score means; it is
    read as the query reads it. *)
Definition spec_eligibleb (loanType : string) (amount : Q) (term : Z)
    (creditScore : Q) (p : LoanProduct) : bool :=
  String.eqb (type p) loanType
  && Qle_bool (minAmount p) amount
  && match maxAmount p with Some hi => Qle_bool amount hi | None => true end
  && Qle_bool (minTerm p) (inject_Z term)
  && match maxTerm p with
     | Some hi => Qle_bool (inject_Z term) hi
     | None => true
     end
  && match minCreditScore p with
     | Some lo => Qle_bool lo creditScore
     | None => false
     end
  && active p.

(** An observation is applicable to a product and a score when it belongs
    to the product and both bounds of its range are set and enclose the
    score. *)
Definition applicable (loanProductId : nat) (score : Q) (r : InterestRate)
    : Prop :=
  loanProduct r = loanProductId /\
  (exists lo, range_min (creditScoreRange r) = Some lo /\ lo <= score) /\
  (exists hi, range_max (creditScoreRange r) = Some hi /\ score <= hi).

(** [monthlyRate = rateInfo.rate / 100 / 12]. *)
Definition monthlyRateOf (r : Q) : Q := r / 100 / 12.

(** A credit-score range with both bounds set. *)
Definition rangeOf (lo hi : Q) : CreditScoreRange :=
  {| range_min := Some lo; range_max := Some hi |}.

(** The value a key of [weights] reads from an analyzed product. *)
Definition metric (key : Metric) (p : AnalyzedProduct) : Num :=
  match key with
  | InterestRateKey => interestRate p
  | MonthlyPaymentKey => monthlyPayment p
  | CustomerServiceKey => customerService p
  | FlexibilityKey => flexibility p
  | ApprovalLikelihoodKey => approvalLikelihood p
  end.

(** The range [rankProducts] keeps for a cost key. *)
Definition rangeOfKey (rg : Ranges) (key : Metric) : Range :=
  match key with
  | MonthlyPaymentKey => rg_monthlyPayment rg
  | _ => rg_interestRate rg
  end.

(** The keys whose score is normalised and inverted. *)
Definition isCostKey (key : Metric) : bool :=
  match key with
  | InterestRateKey | MonthlyPaymentKey => true
  | _ => false
  end.

(** The range of one value over the list, from a given start. *)
Definition rangeFrom (f : AnalyzedProduct -> Num) (l : list AnalyzedProduct)
    (start : Range) : Range :=
  fold_left (fun r p => widen r (f p)) l start.

(** All five weighted metrics of a candidate are finite numbers. *)
Definition finiteMetrics (p : AnalyzedProduct) : Prop :=
  forall key, is_finite (metric key p).

(** [a] is at least as good as [b] on each of the five weighted metrics:
    no higher rate and payment, no lower service, flexibility and approval
    likelihood. *)
Definition dominates (a b : AnalyzedProduct) : Prop :=
  nle (interestRate a) (interestRate b) /\
  nle (monthlyPayment a) (monthlyPayment b) /\
  nge (customerService a) (customerService b) /\
  nge (flexibility a) (flexibility b) /\
  nge (approvalLikelihood a) (approvalLikelihood b).

(** A range with finite ends, the lower not above the upper. *)
Definition finiteRange (r : Range) : Prop :=
  exists lo hi, r = {| r_min := Fin lo; r_max := Fin hi |} /\ lo <= hi.

(** The flag of [preferences] that a key of [weights] reads. *)
Definition prioritized (key : Metric) (preferences : Preferences) : bool :=
  match key with
  | InterestRateKey => prioritizeRate preferences
  | MonthlyPaymentKey => prioritizePayment preferences
  | CustomerServiceKey => prioritizeService preferences
  | FlexibilityKey => prioritizeFlexibility preferences
  | ApprovalLikelihoodKey => prioritizeApproval preferences
  end.

(** [preferences] with the flag of one key set. *)
Definition prioritize (key : Metric) (preferences : Preferences)
    : Preferences :=
  {| prioritizeRate :=
       match key with InterestRateKey => true
                    | _ => prioritizeRate preferences end;
     prioritizePayment :=
       match key with MonthlyPaymentKey => true
                    | _ => prioritizePayment preferences end;
     prioritizeService :=
       match key with CustomerServiceKey => true
                    | _ => prioritizeService preferences end;
     prioritizeFlexibility :=
       match key with FlexibilityKey => true
                    | _ => prioritizeFlexibility preferences end;
     prioritizeApproval :=
       match key with ApprovalLikelihoodKey => true
                    | _ => prioritizeApproval preferences end |}.

(** [params] with another [creditScore] property. *)
Definition withCreditScore (params : Params) (score : option Q) : Params :=
  {| loanType := loanType params; amount := amount params;
     term := term params; creditScore := score;
     preferences := preferences params |}.

(** The three benefit-type metrics of a candidate lie in [0,1]. *)
Definition benefitsInUnit (p : AnalyzedProduct) : Prop :=
  forall key, isCostKey key = false ->
              nle (Fin 0) (metric key p) /\ nle (metric key p) (Fin 1).

(** The records a feed entry gives rise to when it is processed against
    the products of [db]: one if its product is known, none otherwise. *)
Definition savedFor (db : Database) (timestamp : Z)
    (rateInfo : RateTrackerIngest.RateInfo) : list InterestRate :=
  match RateTrackerIngest.findLoanProduct db rateInfo with
  | Some product => [RateTrackerIngest.newRate product timestamp rateInfo]
  | None => []
  end.

Definition savedFrom (db : Database) (result : RateTrackerIngest.FetchResult)
    : list InterestRate :=
  flat_map (savedFor db (RateTrackerIngest.timestamp result))
           (RateTrackerIngest.data result).

(** A feed with one entry. *)
Definition singleEntry (timestamp : Z) (rateInfo : RateTrackerIngest.RateInfo)
    : list RateTrackerIngest.FetchResult :=
  [ {| RateTrackerIngest.source := "feed"%string;
       RateTrackerIngest.data := [rateInfo];
       RateTrackerIngest.timestamp := timestamp |} ].

(** What [getMockRates] promises of the entry it builds for a loan type
    and a suffix. *)
Definition mockEntry (sourceName loanType suffix : string)
    (rateInfo : RateTrackerIngest.RateInfo) : Prop :=
  let centre := RateTrackerIngest.getBaseRateForType loanType
                + RateTrackerIngest.variationFactor suffix in
  RateTrackerIngest.ri_productName rateInfo
  = (sourceName ++ " " ++ loanType ++ " " ++ suffix)%string /\
  RateTrackerIngest.ri_loanType rateInfo = loanType /\
  centre - 0.1 <= RateTrackerIngest.ri_interestRate rateInfo /\
  RateTrackerIngest.ri_interestRate rateInfo <= centre + 0.1 /\
  (exists n : Z, RateTrackerIngest.ri_interestRate rateInfo = n # 100) /\
  RateTrackerIngest.ri_termMonths rateInfo
  = RateTrackerIngest.getDefaultTermForType loanType /\
  RateTrackerIngest.ri_minCreditScore rateInfo
  = Some (RateTrackerIngest.getMinCreditScoreForProduct suffix) /\
  RateTrackerIngest.ri_maxCreditScore rateInfo = None.

(** Draws of [Math.random] lie in [0, 1). *)
Definition unitDraws (rnd : nat -> Q) : Prop :=
  forall n, 0 <= rnd n /\ rnd n < 1.

(** The payment formula all three components compute, on a monthly rate
    and a number of months. *)
Definition paymentFormula (amount : Q) (monthlyRate : Num) (months : Z) : Num :=
  ndiv (nmul (nmul (Fin amount) monthlyRate)
             (npow (nadd (Fin 1) monthlyRate) months))
       (nsub (npow (nadd (Fin 1) monthlyRate) months) (Fin 1)).

(** The institutions [LoanComparison] keeps for a loan type. *)
Definition offers (selectedLoanType : string)
    (i : Frontend.OfferingInstitution) : bool :=
  existsb (String.eqb selectedLoanType) (Frontend.oi_loanTypes i).

(* ================================================================== *)
(** * Sample data *)
(* ================================================================== *)

(** A mortgage product that leaves [maxAmount] unset. *)
Definition openEndedProduct : LoanProduct :=
  {| _id := 1;
     institution := {| inst_id := 1; inst_name := "Community Credit Union";
                       inst_types := ["Credit Union"]; inst_active := true |};
     name := "Open Mortgage"; type := "Mortgage";
     minAmount := 0; maxAmount := None;
     minTerm := 1; maxTerm := Some 360;
     baseRate := 4.35; variableRate := false;
     minCreditScore := Some 650;
     perks := ["No prepayment penalty"]; requirements := [];
     active := true |}%string.

(** A credit union and its catalog of three mortgage products, of which
    the second is not active. *)
Definition creditUnion : Institution :=
  {| inst_id := 2; inst_name := "Community Credit Union";
     inst_types := ["Credit Union"]; inst_active := true |}%string.

Definition mortgageProduct (id : nat) (label : string) (isActive : bool)
    : LoanProduct :=
  {| _id := id; institution := creditUnion;
     name := label; type := "Mortgage";
     minAmount := 50000; maxAmount := Some 1000000;
     minTerm := 60; maxTerm := Some 360;
     baseRate := 4.5; variableRate := false;
     minCreditScore := Some 650;
     perks := []; requirements := [];
     active := isActive |}%string.

Definition mortgageCatalog : Database :=
  {| loanProducts := [ mortgageProduct 1 "Fixed 30" true;
                       mortgageProduct 2 "Fixed 15" false;
                       mortgageProduct 3 "Flex" true ]%string;
     interestRates := [] |}.

(** A bank with two personal-loan products.  The first has one rate for
    scores 600 to 699 and a later one for scores 700 to 850; the second has
    a single rate, for scores 600 to 699. *)
Definition lender : Institution :=
  {| inst_id := 7; inst_name := "First National Bank";
     inst_types := ["Bank"]; inst_active := true |}%string.

Definition personalProduct (id : nat) (label : string) : LoanProduct :=
  {| _id := id; institution := lender;
     name := label; type := "Personal";
     minAmount := 1000; maxAmount := Some 50000;
     minTerm := 12; maxTerm := Some 60;
     baseRate := 7.2; variableRate := false;
     minCreditScore := Some 600;
     perks := []; requirements := [];
     active := true |}%string.

Definition observation (id : nat) (day : Z) (r lo hi : Q) : InterestRate :=
  {| loanProduct := id; date := day; rate := r; termLength := 36;
     creditScoreRange := {| range_min := Some lo; range_max := Some hi |} |}.

Definition bandedRates : Database :=
  {| loanProducts := [ personalProduct 1 "Steady"; personalProduct 2 "Starter" ]%string;
     interestRates := [ observation 1 20240101 9 600 699;
                        observation 1 20240301 5 700 850;
                        observation 2 20240201 11 600 699 ] |}.

(** Three auto loans for 12000 over 12 months, analyzed at their rates.
    "Plus" beats "Basic" on all five metrics; "Promo" is a 0% offer. *)
Definition autoProduct (id : nat) (label : string) (perkList : list string)
    : LoanProduct :=
  {| _id := id; institution := lender;
     name := label; type := "Auto";
     minAmount := 1000; maxAmount := Some 80000;
     minTerm := 6; maxTerm := Some 72;
     baseRate := 3.8; variableRate := false;
     minCreditScore := Some 600;
     perks := perkList; requirements := [];
     active := true |}%string.

Definition promoCatalog : Database :=
  {| loanProducts := [ autoProduct 1 "Basic" [];
                       autoProduct 2 "Plus" ["No prepayment penalty"];
                       autoProduct 3 "Promo" [] ]%string;
     interestRates := [ observation 1 20240101 5 700 850;
                        observation 2 20240101 4 600 850;
                        observation 3 20240101 0 600 850 ] |}.

Definition promoRandom (k : nat) : Q :=
  match k with 1%nat => 1 # 2 | _ => 0 end.

Definition basicOffer : AnalyzedProduct :=
  analyzeProduct (autoProduct 1 "Basic" [])
                 (observation 1 20240101 5 700 850) 12000 12 0.

Definition plusOffer : AnalyzedProduct :=
  analyzeProduct (autoProduct 2 "Plus" ["No prepayment penalty"%string])
                 (observation 2 20240101 4 600 850) 12000 12 (1 # 2).

Definition promoOffer : AnalyzedProduct :=
  analyzeProduct (autoProduct 3 "Promo" [])
                 (observation 3 20240101 0 600 850) 12000 12 0.

(** A fourth auto offer, with the rate and the perk of "Plus". *)
Definition selectOffer : AnalyzedProduct :=
  analyzeProduct (autoProduct 4 "Select" ["No prepayment penalty"%string])
                 (observation 4 20240101 4 650 850) 12000 12 0.

(** A ranked entry given by its label, rate, payment and total score. *)
Definition scoredOffer (label : string) (r payment total : Q)
    : ScoredProduct :=
  {| analyzed :=
       {| product := autoProduct 9 label [];
          interestRate := Fin r;
          monthlyPayment := Fin payment;
          totalPayment := Fin (payment * 12);
          totalInterest := Fin (payment * 12 - 12000);
          apr := Fin r;
          flexibility := Fin 0.5;
          customerService := Fin 0.6;
          approvalLikelihood := Fin 1 |};
     scores :=
       {| s_interestRate := Fin 0.5; s_monthlyPayment := Fin 0.5;
          s_customerService := Fin 0.6; s_flexibility := Fin 0.5;
          s_approvalLikelihood := Fin 1 |};
     totalScore := Fin total |}.

(** A feed entry for the product "Steady" of [bandedRates], with the
    minimum score of a "Premium" product of the mock feed. *)
Definition premiumEntry : RateTrackerIngest.RateInfo :=
  {| RateTrackerIngest.ri_productName := "Steady";
     RateTrackerIngest.ri_loanType := "Personal";
     RateTrackerIngest.ri_interestRate := 6.5;
     RateTrackerIngest.ri_termMonths := 60;
     RateTrackerIngest.ri_minCreditScore := Some 740;
     RateTrackerIngest.ri_maxCreditScore := None |}%string.

(** A server whose local time is UTC. *)
Definition utcZone : RateTrackerIngest.TimeZone :=
  {| RateTrackerIngest.LocalTime := fun t => t;
     RateTrackerIngest.UTC := fun t => t |}.

(** The institutions [LoanComparison] starts with. *)
Definition initialInstitutions : list Frontend.OfferingInstitution :=
  [ {| Frontend.oi_id := 1; Frontend.oi_name := "First National Bank";
       Frontend.oi_loanTypes := ["Mortgage"; "Personal"; "Auto"];
       Frontend.oi_rates := [("Mortgage", 4.5); ("Personal", 7.2); ("Auto", 3.8)];
       Frontend.oi_minCreditScore := 680;
       Frontend.oi_processingTime := "2-3 business days";
       Frontend.oi_perks := ["No origination fee";
                             "0.25% rate discount with autopay"] |};
    {| Frontend.oi_id := 2; Frontend.oi_name := "Community Credit Union";
       Frontend.oi_loanTypes := ["Mortgage"; "Personal"; "Auto"; "Student"];
       Frontend.oi_rates := [("Mortgage", 4.35); ("Personal", 6.9);
                             ("Auto", 3.5); ("Student", 5.1)];
       Frontend.oi_minCreditScore := 650;
       Frontend.oi_processingTime := "1-2 business days";
       Frontend.oi_perks := ["No prepayment penalty";
                             "Financial education resources"] |};
    {| Frontend.oi_id := 3; Frontend.oi_name := "Global Financial";
       Frontend.oi_loanTypes := ["Mortgage"; "Personal"; "Business"];
       Frontend.oi_rates := [("Mortgage", 4.6); ("Personal", 7.8);
                             ("Business", 6.2)];
       Frontend.oi_minCreditScore := 720;
       Frontend.oi_processingTime := "3-5 business days";
       Frontend.oi_perks := ["Rate lock guarantee";
                             "Relationship discounts"] |} ]%string.

(* ================================================================== *)
(** * Properties *)
(* ================================================================== *)

(** ** Ranking engine: the weight table *)

Ltac each_preference p :=
  destruct p as [[] [] [] [] []].

Lemma totalWeight_positive (preferences : Preferences) :
  0 < totalWeight (initialWeights preferences).
Proof. each_preference preferences; reflexivity. Qed.

(** C5, as stated, on the numbers the code computes with: with no flag
    set the five renormalised binary64 weights add up, in key order, to
    1.0000000000000002, one unit in the last place above 1; added without
    any rounding they give 1 + 3/2^54, so no order of summation makes the
    sum of these five numbers exactly 1. *)
Lemma default_weights_do_not_sum_to_one :
  Binary64.weightSum noPreferences = Binary64.succ_one /\
  PrimFloat.eqb (Binary64.weightSum noPreferences) Binary64.one = false /\
  exists q, Binary64.exactWeightSum noPreferences = Some q /\
            q == 1 + (3 # 18014398509481984) /\ ~ q == 1.
Proof.
  split; [vm_compute; reflexivity|].
  split; [vm_compute; reflexivity|].
  eexists. split; [vm_compute; reflexivity|].
  split; [reflexivity | discriminate].
Qed.

(** C5, amended: for each of the 32 settings of the five flags the derived
    weights are the chosen values (defaults 0.3, 0.2, 0.1, 0.1, 0.2; a set
    flag gives 0.4 for rate and payment, 0.3 for the other three) divided
    by their total; in exact arithmetic they sum to 1, and as computed in
    binary64 their sum is within one unit in the last place, 2^-52, of 1,
    whether the five weights are added in floating point in key order or
    without rounding. *)
Theorem weights_renormalize (preferences : Preferences) :
  (forall key,
     weight (weights preferences) key ==
     weight (initialWeights preferences) key
     / totalWeight (initialWeights preferences)) /\
  totalWeight (weights preferences) == 1 /\
  Binary64.near_one (Binary64.weightSum preferences) = true /\
  exists q, Binary64.exactWeightSum preferences = Some q /\
            Qabs (q - 1) <= 1 # 4503599627370496.
Proof.
  split; [ intros []; reflexivity | ].
  each_preference preferences;
    (split; [vm_compute; reflexivity|]);
    (split; [vm_compute; reflexivity|]);
    (eexists; split; [vm_compute; reflexivity|]);
    vm_compute; discriminate.
Qed.

(** ** Eligibility filter *)

Lemma filter_Subsequence {A} (f : A -> bool) (l : list A) :
  Subsequence (filter f l) l.
Proof.
  induction l as [|x l IH]; simpl.
  - constructor.
  - destruct (f x); now constructor.
Qed.

Lemma eligible_matches loanType amount term creditScore p :
  matches
    {| where_ := [ ("type", Eq (VStr loanType));
                   ("minAmount", Lte amount);
                   ("maxAmount", Gte (or_max amount));
                   ("minTerm", Lte (inject_Z term));
                   ("maxTerm", Gte (or_max (inject_Z term)));
                   ("minCreditScore", Lte creditScore);
                   ("active", Eq (VBool true)) ]%string;
       or_ := None |} p = true
  <-> eligible loanType amount term creditScore p.
Proof.
  unfold matches, matches_filter, eligible.
  cbn -[Qle_bool Qeq_bool or_max inject_Z].
  rewrite !andb_true_iff, String.eqb_eq, !Qle_bool_iff, Bool.eqb_true_iff.
  destruct (maxAmount p) as [hiA|], (maxTerm p) as [hiT|],
           (minCreditScore p) as [lo|];
    cbn -[Qle_bool Qeq_bool or_max inject_Z]; rewrite ?Qle_bool_iff;
    split;
    try (intros (_ & _ & (? & [=] & _) & _); fail);
    try (intros (_ & _ & _ & _ & (? & [=] & _) & _); fail);
    try (intros (_ & _ & _ & _ & _ & (? & [=] & _) & _); fail);
    try (intros [[_ [_ [? _]]] _]; discriminate);
    try (intros [[_ [_ [_ [_ [? _]]]]] _]; discriminate);
    try (intros [[_ [_ [_ [_ [_ [? _]]]]]] _]; discriminate).
  - intros [(Ht & Ha & HA & Hm & HT & Hc & Hact & _) _].
    repeat split; eauto.
  - intros (Ht & Ha & (? & [= <-] & HA) & Hm & (? & [= <-] & HT)
            & (? & [= <-] & Hc) & Hact).
    repeat split; assumption.
Qed.

(** C3, as stated, fails on a product that leaves [maxAmount] unset: the
    claim keeps it (no upper bound), the query drops it, because
    [{ $gte: ... }] matches a stored number only. *)
Lemma absent_upper_bound_is_not_unbounded :
  let db := {| loanProducts := [openEndedProduct]; interestRates := [] |} in
  filter (spec_eligibleb "Mortgage" 250000 360 700) (loanProducts db)
    = [openEndedProduct] /\
  getEligibleProducts db "Mortgage" 250000 360 700 = [].
Proof. split; reflexivity. Qed.

(** C3, amended: the eligibility filter returns exactly the products, in
    catalog order, whose type is the requested one, whose [minAmount] is at
    most the amount, whose [maxAmount] is set and at least the amount,
    whose [minTerm] is at most the term, whose [maxTerm] is set and at least
    the term, whose [minCreditScore] is set and at most the requested score,
    and which are active; a product with an absent upper bound or an absent
    minimum score is left out, and a requested amount or term of 0 is
    replaced by 2^53 - 1 in the upper-bound test.  Every returned product
    satisfies all clauses and the result is a subsequence of the catalog. *)
Theorem getEligibleProducts_exact (db : Database) (loanType : string)
    (amount : Q) (term : Z) (creditScore : Q) :
  let result := getEligibleProducts db loanType amount term creditScore in
  (forall f : LoanProduct -> bool,
     (forall p, f p = true <-> eligible loanType amount term creditScore p) ->
     result = filter f (loanProducts db)) /\
  (forall p, In p result <->
             In p (loanProducts db) /\
             eligible loanType amount term creditScore p) /\
  Forall (eligible loanType amount term creditScore) result /\
  Subsequence result (loanProducts db).
Proof.
  cbv zeta. unfold getEligibleProducts, find.
  assert (Hin : forall (p : LoanProduct) q coll,
             In p (filter (matches q) coll) <->
             In p coll /\ matches q p = true)
    by (intros; apply filter_In).
  split; [| split; [| split]].
  - intros f Hf. apply filter_ext. intros p.
    apply eq_true_iff_eq. rewrite Hf. apply eligible_matches.
  - intros p. rewrite Hin, eligible_matches. reflexivity.
  - apply Forall_forall. intros p Hp. apply Hin in Hp.
    now apply eligible_matches.
  - apply filter_Subsequence.
Qed.

Lemma getEligibleProducts_exact_example :
  getEligibleProducts mortgageCatalog "Mortgage" 250000 360 700
  = filter active (loanProducts mortgageCatalog) /\
  Subsequence (getEligibleProducts mortgageCatalog "Mortgage" 250000 360 700)
              (loanProducts mortgageCatalog).
Proof.
  split.
  - reflexivity.
  - apply (getEligibleProducts_exact mortgageCatalog "Mortgage" 250000 360 700).
Defined.

(** ** Sorting *)

Section InsertionSort.

Context {A : Type} (keep : A -> A -> bool).

Lemma insert_by_Permutation (x : A) (l : list A) :
  Permutation (insert_by keep x l) (x :: l).
Proof.
  induction l as [|y l IH]; simpl.
  - reflexivity.
  - destruct (keep x y).
    + reflexivity.
    + rewrite IH. apply perm_swap.
Qed.

Lemma sort_by_Permutation (l : list A) : Permutation (sort_by keep l) l.
Proof.
  induction l as [|x l IH]; simpl.
  - constructor.
  - rewrite insert_by_Permutation. now constructor.
Qed.

Lemma sort_by_nil_iff (l : list A) : sort_by keep l = [] <-> l = [].
Proof.
  split; intros H.
  - apply Permutation_nil. rewrite <- H. apply sort_by_Permutation.
  - now subst.
Qed.

(** The order need only be total and transitive on the elements that
    occur, which are described by [P]. *)
Variable P : A -> Prop.
Hypothesis keep_total :
  forall x y, P x -> P y -> keep x y = false -> keep y x = true.
Hypothesis keep_trans :
  forall x y z, P x -> P y -> P z ->
                keep x y = true -> keep y z = true -> keep x z = true.

Let ordered (x y : A) : Prop := keep x y = true.

Lemma insert_by_sorted (x : A) (l : list A) :
  P x -> Forall P l ->
  StronglySorted ordered l -> StronglySorted ordered (insert_by keep x l).
Proof.
  intros Px Pl Hs. induction Hs as [|y l Hs IH Hy]; simpl.
  - repeat constructor.
  - inversion Pl as [|? ? Py Pl']; subst.
    destruct (keep x y) eqn:Hxy.
    + constructor; [now constructor|].
      constructor; [exact Hxy|].
      rewrite Forall_forall in Hy, Pl' |- *. intros z Hz.
      apply (keep_trans x y z); auto. now apply Hy.
    + constructor; [now apply IH|].
      eapply Permutation_Forall;
        [symmetry; apply insert_by_Permutation|].
      constructor; [|exact Hy].
      now apply keep_total.
Qed.

Lemma sort_by_sorted (l : list A) :
  Forall P l -> StronglySorted ordered (sort_by keep l).
Proof.
  induction 1 as [|x l Px Pl IH]; simpl.
  - constructor.
  - apply insert_by_sorted; auto.
    eapply Permutation_Forall; [symmetry; apply sort_by_Permutation|exact Pl].
Qed.

End InsertionSort.

Lemma hd_sorted_first {A} (R : A -> A -> Prop) (l : list A) (x : A) :
  StronglySorted R l -> hd_error l = Some x ->
  forall y, In y l -> y = x \/ R x y.
Proof.
  intros Hs Hhd y Hy. destruct l as [|z l]; [discriminate|].
  injection Hhd as ->. inversion Hs as [|? ? _ Hall]; subst.
  destruct Hy as [->|Hy]; [now left|right].
  rewrite Forall_forall in Hall. now apply Hall.
Qed.

(** ** Rate lookup *)

Lemma applicable_matches loanProductId score r :
  matches
    {| where_ := [ ("loanProduct", Eq (VId loanProductId));
                   ("creditScoreRange.min", Lte score);
                   ("creditScoreRange.max", Gte score) ]%string;
       or_ := None |} r = true
  <-> applicable loanProductId score r.
Proof.
  unfold matches, matches_filter, applicable.
  cbn -[Qle_bool].
  rewrite !andb_true_iff, Nat.eqb_eq.
  destruct (range_min (creditScoreRange r)) as [lo|],
           (range_max (creditScoreRange r)) as [hi|];
    cbn -[Qle_bool]; rewrite ?Qle_bool_iff; split;
    try (intros (_ & (? & [=] & _) & _); fail);
    try (intros (_ & _ & (? & [=] & _)); fail);
    try (intros [[_ [? _]] _]; discriminate);
    try (intros [[_ [_ [? _]]] _]; discriminate).
  - intros [(Hid & Hlo & Hhi & _) _]. repeat split; eauto.
  - intros (Hid & (? & [= <-] & Hlo) & (? & [= <-] & Hhi)).
    repeat split; assumption.
Qed.

(** [getLatestRate] returns an applicable observation of the collection
    that no applicable observation postdates, and returns nothing exactly
    when no observation is applicable; the score is the one passed, or 720
    when none is passed. *)
Lemma getLatestRate_spec (db : Database) (loanProductId : nat)
    (creditScore : option Q) :
  let score := match creditScore with Some s => s | None => 720 end in
  match getLatestRate db loanProductId creditScore with
  | Some r =>
      In r (interestRates db) /\ applicable loanProductId score r /\
      forall r', In r' (interestRates db) ->
                 applicable loanProductId score r' ->
                 (date r' <= date r)%Z
  | None =>
      forall r', In r' (interestRates db) ->
                 ~ applicable loanProductId score r'
  end.
Proof.
  cbv zeta. unfold getLatestRate, findOne_sorted_desc, sort_desc.
  set (score := match creditScore with Some s => s | None => 720 end).
  set (q := {| where_ := _; or_ := None |}).
  set (keep := fun x y : InterestRate => (date y <=? date x)%Z).
  pose proof (sort_by_Permutation keep (find (interestRates db) q)) as Hperm.
  assert (Hfind : forall r, In r (find (interestRates db) q) <->
                            In r (interestRates db) /\
                            applicable loanProductId score r).
  { intros r. unfold find. rewrite filter_In.
    subst q. now rewrite applicable_matches. }
  destruct (sort_by keep (find (interestRates db) q)) as [|r l] eqn:Hsort;
    simpl.
  - intros r' Hin Happ.
    apply Permutation_nil in Hperm.
    assert (Hr' : In r' (find (interestRates db) q)) by now apply Hfind.
    rewrite Hperm in Hr'. exact Hr'.
  - assert (Hr : In r (find (interestRates db) q)).
    { eapply Permutation_in; [exact Hperm|]. now left. }
    apply Hfind in Hr. destruct Hr as [Hin Happ].
    repeat split; try apply Happ; [exact Hin|].
    intros r' Hin' Happ'.
    assert (Hs : StronglySorted (fun x y => keep x y = true)
                                (sort_by keep (find (interestRates db) q))).
    { apply (sort_by_sorted keep (fun _ => True)).
      - intros x y _ _. unfold keep. rewrite Z.leb_gt. intros H.
        apply Z.leb_le. lia.
      - intros x y z _ _ _. unfold keep. rewrite !Z.leb_le. lia.
      - apply Forall_forall. trivial. }
    rewrite Hsort in Hs.
    assert (Hr' : In r' (r :: l)).
    { eapply Permutation_in; [symmetry; exact Hperm|]. now apply Hfind. }
    destruct (hd_sorted_first _ (r :: l) r Hs eq_refl r' Hr') as [->|Hk].
    + lia.
    + unfold keep in Hk. now apply Z.leb_le.
Qed.

(** ** Metric calculator *)

(** Every analyzed product comes from one of the products passed in, with
    the observation [getLatestRate] finds for its id and the default
    score, and products without such an observation leave no trace. *)
Lemma calculateMetrics_from_In db rnd products amount term :
  forall k a,
    In a (calculateMetrics_from db rnd k products amount term) ->
    exists p rateInfo j,
      In p products /\
      getLatestRate db (_id p) None = Some rateInfo /\
      a = analyzeProduct p rateInfo amount term (rnd j).
Proof.
  induction products as [|p rest IH]; simpl; intros k a Ha.
  - contradiction.
  - destruct (getLatestRate db (_id p) None) as [rateInfo|] eqn:Hrate.
    + destruct Ha as [<-|Ha].
      * exists p, rateInfo, k. auto.
      * destruct (IH _ _ Ha) as (p' & r' & j & Hin & Hr & ->).
        exists p', r', j. auto.
    + destruct (IH _ _ Ha) as (p' & r' & j & Hin & Hr & ->).
      exists p', r', j. auto.
Qed.

Lemma calculateMetrics_products db rnd products amount term :
  forall k,
    map product (calculateMetrics_from db rnd k products amount term)
    = filter (fun p => match getLatestRate db (_id p) None with
                       | Some _ => true
                       | None => false
                       end) products.
Proof.
  induction products as [|p rest IH]; simpl; intros k.
  - reflexivity.
  - destruct (getLatestRate db (_id p) None); simpl; now rewrite IH.
Qed.

(** C1 at a caller with credit score 640, amount 10000 and term 36: both
    products are eligible and each has an observation whose range contains
    640 (9% and 11%), yet [calculateMetrics] looks rates up without the
    score, so the default 720 applies: the first product is analyzed at the
    5% rate of the 700-850 band and the second is dropped. *)
Theorem calculateMetrics_ignores_caller_score (rnd : nat -> Q) :
  let eligibleProducts :=
    getEligibleProducts bandedRates "Personal" 10000 36 640 in
  map _id eligibleProducts = [1%nat; 2%nat] /\
  getLatestRate bandedRates 1 (Some 640)
    = Some (observation 1 20240101 9 600 699) /\
  getLatestRate bandedRates 2 (Some 640)
    = Some (observation 2 20240201 11 600 699) /\
  map (fun a => (_id (product a), interestRate a))
      (calculateMetrics bandedRates rnd eligibleProducts 10000 36)
    = [(1%nat, Fin 5)].
Proof. repeat split. Qed.

(** ** Arithmetic on [Num] *)

Lemma Qeq_bool_false (a b : Q) : ~ a == b -> Qeq_bool a b = false.
Proof.
  intros H. destruct (Qeq_bool a b) eqn:E; [|reflexivity].
  apply Qeq_bool_iff in E. contradiction.
Qed.

Lemma Qeq_bool_true (a b : Q) : a == b -> Qeq_bool a b = true.
Proof. apply Qeq_bool_iff. Qed.

Lemma Qle_bool_false (a b : Q) : b < a -> Qle_bool a b = false.
Proof.
  intros H. destruct (Qle_bool a b) eqn:E; [|reflexivity].
  apply Qle_bool_iff in E. lra.
Qed.

Lemma Qle_bool_cases (a b : Q) :
  (Qle_bool a b = true /\ a <= b) \/ (Qle_bool a b = false /\ b < a).
Proof.
  destruct (Qle_bool a b) eqn:E.
  - left. split; [reflexivity|]. now apply Qle_bool_iff.
  - right. split; [reflexivity|]. apply Qnot_le_lt. intros H.
    apply Qle_bool_iff in H. congruence.
Qed.

Lemma ndiv_fin (a b : Q) : ~ b == 0 -> ndiv (Fin a) (Fin b) = Fin (a / b).
Proof. intros H. unfold ndiv. now rewrite Qeq_bool_false. Qed.

Lemma ndiv_zero_zero (a b : Q) : a == 0 -> b == 0 -> ndiv (Fin a) (Fin b) = NaN.
Proof.
  intros Ha Hb. unfold ndiv, sign. now rewrite !Qeq_bool_true.
Qed.

Lemma npow_fin_pos (b : Q) (n : Z) :
  (0 < n)%Z -> npow (Fin b) n = Fin (b ^ n).
Proof.
  intros Hn. unfold npow.
  destruct (Z.eqb_spec n 0); [lia|].
  destruct (Z.ltb_spec n 0); [lia|]. reflexivity.
Qed.

Lemma npow_fin_one (b : Q) (n : Z) :
  b == 1 -> exists x, npow (Fin b) n = Fin x /\ x == 1.
Proof.
  intros Hb. unfold npow.
  destruct (n =? 0)%Z; [exists 1; split; reflexivity|].
  rewrite Qeq_bool_false, andb_false_r by (rewrite Hb; discriminate).
  exists (b ^ n). split; [reflexivity|]. rewrite Hb. apply Qpower_1.
Qed.

Lemma nle_fin (a b : Q) : nle (Fin a) (Fin b) <-> a <= b.
Proof. unfold nle. simpl. apply Qle_bool_iff. Qed.

Lemma nlt_fin (a b : Q) : nlt (Fin a) (Fin b) <-> a < b.
Proof.
  unfold nlt, nltb, Qltb. rewrite negb_true_iff. split; intros H.
  - destruct (Qlt_le_dec a b) as [|Hle]; [assumption|].
    apply Qle_bool_iff in Hle. congruence.
  - now apply Qle_bool_false.
Qed.

(** ** Amortization *)

Lemma monthlyPayment_formula product rateInfo amount term random :
  monthlyPayment (analyzeProduct product rateInfo amount term random)
  = let monthlyRate := Fin (monthlyRateOf (rate rateInfo)) in
    ndiv (nmul (nmul (Fin amount) monthlyRate)
               (npow (nadd (Fin 1) monthlyRate) term))
         (nsub (npow (nadd (Fin 1) monthlyRate) term) (Fin 1)).
Proof. reflexivity. Qed.

Lemma totalPayment_formula product rateInfo amount term random :
  totalPayment (analyzeProduct product rateInfo amount term random)
  = nmul (monthlyPayment (analyzeProduct product rateInfo amount term random))
         (Fin (inject_Z term)).
Proof. reflexivity. Qed.

(** The sum of the geometric series bounds the growth factor:
    (1+r)^n - 1 <= n r (1+r)^n. *)
Lemma growth_bound (r : Q) (n : nat) :
  0 <= r ->
  (1 + r) ^ Z.of_nat n - 1 <= inject_Z (Z.of_nat n) * r * (1 + r) ^ Z.of_nat n.
Proof.
  intros Hr. induction n as [|n IH].
  - cbn [Z.of_nat Qpower]. change (inject_Z 0) with 0. lra.
  - rewrite Nat2Z.inj_succ, <- Z.add_1_r.
    rewrite Qpower_plus by lra.
    rewrite inject_Z_plus.
    change ((1 + r) ^ 1) with (1 + r).
    assert (Hx : 1 <= (1 + r) ^ Z.of_nat n)
      by (apply Qpower_1_le; [lra | lia]).
    assert (Hn : 0 <= inject_Z (Z.of_nat n))
      by (change 0 with (inject_Z 0); rewrite <- Zle_Qle; lia).
    change (inject_Z 1) with 1.
    set (x := (1 + r) ^ Z.of_nat n) in *.
    set (m := inject_Z (Z.of_nat n)) in *.
    assert (0 <= m * r * x * r) by (repeat apply Qmult_le_0_compat; lra).
    assert (0 <= r * x * r) by (repeat apply Qmult_le_0_compat; lra).
    nra.
Qed.

(** C4, as stated, fails at any zero rate: for 12000 over 12 months at 0%
    the monthly payment is NaN, not 12000 / 12. *)
Lemma zero_rate_payment_is_not_principal_over_term :
  let a := analyzeProduct (personalProduct 1 "Steady")
                          (observation 1 20240101 0 600 850) 12000 12 0 in
  monthlyPayment a = NaN /\ ~ num_eq (monthlyPayment a) (Fin (12000 / 12)).
Proof. split; [reflexivity | intros []]. Qed.

(** C4, amended: the amortization computation has no special case for
    R = 0; it evaluates the closed form, whose numerator and denominator
    are then both zero, and the monthly payment, the total payment and the
    total interest are NaN for every principal and term. *)
Theorem zero_rate_yields_NaN product rateInfo (amount : Q) (term : Z)
    (random : Q) :
  rate rateInfo == 0 ->
  let a := analyzeProduct product rateInfo amount term random in
  (exists num den,
     nmul (nmul (Fin amount) (Fin (monthlyRateOf (rate rateInfo))))
          (npow (nadd (Fin 1) (Fin (monthlyRateOf (rate rateInfo)))) term)
       = Fin num /\
     nsub (npow (nadd (Fin 1) (Fin (monthlyRateOf (rate rateInfo)))) term)
          (Fin 1) = Fin den /\
     num == 0 /\ den == 0) /\
  monthlyPayment a = NaN /\ totalPayment a = NaN /\ totalInterest a = NaN.
Proof.
  intros Hr a.
  assert (Hm : monthlyRateOf (rate rateInfo) == 0)
    by (unfold monthlyRateOf; rewrite Hr; reflexivity).
  assert (Hb : 1 + monthlyRateOf (rate rateInfo) == 1) by (rewrite Hm; reflexivity).
  destruct (npow_fin_one _ term Hb) as (x & Hx & Hx1).
  assert (Hpay : monthlyPayment a = NaN).
  { subst a. rewrite monthlyPayment_formula. cbv zeta.
    change (nadd (Fin 1) (Fin (monthlyRateOf (rate rateInfo))))
      with (Fin (1 + monthlyRateOf (rate rateInfo))).
    rewrite Hx. apply ndiv_zero_zero.
    - rewrite Hm. ring.
    - rewrite Hx1. reflexivity. }
  split; [| split; [exact Hpay | split]].
  - exists (amount * monthlyRateOf (rate rateInfo) * x), (x + - 1).
    change (nadd (Fin 1) (Fin (monthlyRateOf (rate rateInfo))))
      with (Fin (1 + monthlyRateOf (rate rateInfo))).
    rewrite Hx. repeat split.
    + rewrite Hm. ring.
    + rewrite Hx1. reflexivity.
  - subst a. rewrite totalPayment_formula, Hpay. reflexivity.
  - change (totalInterest a) with (nsub (totalPayment a) (Fin amount)).
    subst a. rewrite totalPayment_formula, Hpay. reflexivity.
Qed.

Lemma zero_rate_yields_NaN_example :
  monthlyPayment (analyzeProduct (personalProduct 1 "Steady")
                    (observation 1 20240101 0 600 850) 12000 12 0) = NaN.
Proof.
  apply (zero_rate_yields_NaN (personalProduct 1 "Steady")
           (observation 1 20240101 0 600 850) 12000 12 0).
  reflexivity.
Defined.

(** C6: in the exact arithmetic of [Num], for a positive principal, a
    positive term and a positive rate the monthly payment is the closed form
    P * monthlyRate * (1+monthlyRate)^N / ((1+monthlyRate)^N - 1) with
    monthlyRate = R/100/12, and the total payment, payment * N, is at least
    the principal. *)
Theorem total_payment_covers_principal product rateInfo (amount : Q)
    (term : Z) (random : Q) :
  0 < amount -> (0 < term)%Z -> 0 < rate rateInfo ->
  let a := analyzeProduct product rateInfo amount term random in
  let monthlyRate := rate rateInfo / 100 / 12 in
  let payment :=
    amount * monthlyRate * (1 + monthlyRate) ^ term
    / ((1 + monthlyRate) ^ term - 1) in
  monthlyPayment a = Fin payment /\
  totalPayment a = Fin (payment * inject_Z term) /\
  amount <= payment * inject_Z term /\
  nge (totalPayment a) (Fin amount).
Proof.
  intros Hp Hn Hr a monthlyRate payment.
  assert (Hm : 0 < monthlyRate).
  { subst monthlyRate. apply Qlt_shift_div_l; [reflexivity|].
    apply Qlt_shift_div_l; [reflexivity|]. lra. }
  assert (Hx : 1 < (1 + monthlyRate) ^ term)
    by (apply Qpower_1_lt; [lra | assumption]).
  assert (Hpay : monthlyPayment a = Fin payment).
  { unfold a. rewrite monthlyPayment_formula. cbv zeta.
    change (monthlyRateOf (rate rateInfo)) with monthlyRate.
    change (nadd (Fin 1) (Fin monthlyRate)) with (Fin (1 + monthlyRate)).
    rewrite npow_fin_pos by assumption.
    change (nsub (Fin ((1 + monthlyRate) ^ term)) (Fin 1))
      with (Fin ((1 + monthlyRate) ^ term - 1)).
    change (nmul (nmul (Fin amount) (Fin monthlyRate))
                 (Fin ((1 + monthlyRate) ^ term)))
      with (Fin (amount * monthlyRate * (1 + monthlyRate) ^ term)).
    apply ndiv_fin. lra. }
  assert (Htot : totalPayment a = Fin (payment * inject_Z term)).
  { unfold a in *. rewrite totalPayment_formula, Hpay. reflexivity. }
  assert (Hle : amount <= payment * inject_Z term).
  { pose proof (growth_bound monthlyRate (Z.to_nat term) (Qlt_le_weak _ _ Hm))
      as Hg.
    rewrite Z2Nat.id in Hg by lia.
    subst payment.
    set (x := (1 + monthlyRate) ^ term) in *.
    set (n := inject_Z term) in *.
    assert (Hd : 0 < x - 1) by lra.
    assert (Heq : amount * monthlyRate * x / (x - 1) * n
                  == amount * ((n * monthlyRate * x) / (x - 1)))
      by (field; lra).
    rewrite Heq.
    assert (H1 : 1 <= n * monthlyRate * x / (x - 1))
      by (apply Qle_shift_div_l; [exact Hd | lra]).
    nra. }
  repeat split; try assumption.
  unfold nge. rewrite Htot. now apply nle_fin.
Qed.

Lemma total_payment_covers_principal_example :
  nge (totalPayment (analyzeProduct (personalProduct 1 "Steady")
                       (observation 1 20240301 5 700 850) 10000 36 0))
      (Fin 10000).
Proof.
  apply (total_payment_covers_principal (personalProduct 1 "Steady")
           (observation 1 20240301 5 700 850) 10000 36 0);
    reflexivity.
Defined.

(** C6, as the code computes it: on binary64 the total payment can fall
    below the principal.  For a principal of 10000 at a rate of 0.000001
    percent over one month, where [Math.pow(x, 1)] is [x], the sum
    [1 + monthlyRate] is rounded, the quotient comes out low, and the
    total payment is 9999.99918...: less than the principal. *)
Lemma binary64_total_payment_below_principal :
  PrimFloat.ltb Binary64Metrics.zero Binary64Metrics.principal = true /\
  PrimFloat.ltb Binary64Metrics.zero Binary64Metrics.tinyRate = true /\
  PrimFloat.ltb (Binary64Metrics.totalPayment Binary64Metrics.principal
                   Binary64Metrics.tinyRate 1)
                Binary64Metrics.principal = true.
Proof. vm_compute. repeat split. Qed.

(** ** APR estimate *)

(** C10: the LoanProduct schema defines no [fees] path, so reading
    [product.fees] gives nothing for every product, the fee branch of
    [calculateAPR] is never taken, and every analyzed product that
    [calculateMetrics] produces has an APR estimate equal to its matched
    interest rate. *)
Theorem apr_is_interest_rate :
  (forall p : LoanProduct, field p "fees"%string = None) /\
  (forall (r : Q) (p : LoanProduct),
     calculateAPR (Fin r) p = nadd (Fin r) (Fin 0) /\
     num_eq (calculateAPR (Fin r) p) (Fin r)) /\
  (forall db rnd products amount term,
     Forall (fun a => num_eq (apr a) (interestRate a))
            (calculateMetrics db rnd products amount term)).
Proof.
  assert (Hapr : forall (r : Q) (p : LoanProduct),
             calculateAPR (Fin r) p = nadd (Fin r) (Fin 0) /\
             num_eq (calculateAPR (Fin r) p) (Fin r)).
  { intros r p. split; [reflexivity|].
    change (calculateAPR (Fin r) p) with (Fin (r + 0)).
    simpl. ring. }
  split; [reflexivity | split; [exact Hapr|]].
  intros db rnd products amount term.
  apply Forall_forall. intros a Ha.
  apply calculateMetrics_from_In in Ha.
  destruct Ha as (p & rateInfo & j & _ & _ & ->).
  apply Hapr.
Qed.

(** ** Approval likelihood *)

Lemma assessApprovalLikelihood_value product (lo hi : Q) :
  assessApprovalLikelihood product (rangeOf lo hi)
  = if Qle_bool 1 ((hi - lo) / 200) then Fin 1 else Fin ((hi - lo) / 200).
Proof. reflexivity. Qed.

(** C9: for a credit-score range the approval-likelihood score is
    min(1, (max - min) / 200); it lies in [0,1] when min <= max; a range at
    least as wide scores at least as high; and every analyzed product of
    [calculateMetrics] carries a score in [0,1], because the ranges that
    reach the score come from [getLatestRate] and enclose the lookup
    score. *)
Theorem approvalLikelihood_in_unit_interval :
  (forall product (lo hi : Q),
     let s := assessApprovalLikelihood product (rangeOf lo hi) in
     num_eq s (Fin (Qmin 1 ((hi - lo) / 200))) /\
     (lo <= hi -> nle (Fin 0) s /\ nle s (Fin 1))) /\
  (forall product product' (lo hi lo' hi' : Q),
     hi - lo <= hi' - lo' ->
     nle (assessApprovalLikelihood product (rangeOf lo hi))
         (assessApprovalLikelihood product' (rangeOf lo' hi'))) /\
  (forall db rnd products amount term,
     Forall (fun a => nle (Fin 0) (approvalLikelihood a) /\
                      nle (approvalLikelihood a) (Fin 1))
            (calculateMetrics db rnd products amount term)).
Proof.
  assert (Hdiv : forall w w' : Q, w <= w' -> w / 200 <= w' / 200).
  { intros w w' H. unfold Qdiv. apply Qmult_le_compat_r; [exact H|].
    discriminate. }
  assert (Hunit : forall product (lo hi : Q),
             let s := assessApprovalLikelihood product (rangeOf lo hi) in
             num_eq s (Fin (Qmin 1 ((hi - lo) / 200))) /\
             (lo <= hi -> nle (Fin 0) s /\ nle s (Fin 1))).
  { intros product lo hi s. subst s.
    rewrite assessApprovalLikelihood_value.
    assert (H0 : lo <= hi -> 0 <= (hi - lo) / 200).
    { intros Hle. setoid_replace 0 with (0 / 200) by reflexivity.
      apply Hdiv. lra. }
    destruct (Qle_bool_cases 1 ((hi - lo) / 200)) as [[-> E]|[-> E]].
    - split; [simpl; symmetry; now apply Q.min_l|].
      intros Hle. split; apply nle_fin; lra.
    - split; [simpl; symmetry; apply Q.min_r; lra|].
      intros Hle. specialize (H0 Hle). split; apply nle_fin; lra. }
  split; [exact Hunit | split].
  - intros product product' lo hi lo' hi' Hw.
    rewrite !assessApprovalLikelihood_value.
    apply Hdiv in Hw.
    destruct (Qle_bool 1 ((hi - lo) / 200)) eqn:E,
             (Qle_bool 1 ((hi' - lo') / 200)) eqn:E'; apply nle_fin.
    + lra.
    + apply Qle_bool_iff in E.
      assert (1 <= (hi' - lo') / 200) as H by lra.
      apply Qle_bool_iff in H. congruence.
    + assert ((hi - lo) / 200 < 1); [|lra].
      apply Qnot_le_lt. intros H. apply Qle_bool_iff in H. congruence.
    + exact Hw.
  - intros db rnd products amount term.
    apply Forall_forall. intros a Ha.
    apply calculateMetrics_from_In in Ha.
    destruct Ha as (p & rateInfo & j & _ & Hrate & ->).
    pose proof (getLatestRate_spec db (_id p) None) as Hspec.
    cbv zeta in Hspec. rewrite Hrate in Hspec.
    destruct Hspec as (_ & (_ & (lo & Hlo & Hlo') & (hi & Hhi & Hhi')) & _).
    change (approvalLikelihood (analyzeProduct p rateInfo amount term (rnd j)))
      with (assessApprovalLikelihood p (creditScoreRange rateInfo)).
    destruct (creditScoreRange rateInfo) as [rmin rmax].
    simpl in Hlo, Hhi. subst rmin rmax.
    apply (Hunit p lo hi). lra.
Qed.

Lemma approvalLikelihood_in_unit_interval_example :
  nle (Fin 0) (assessApprovalLikelihood (personalProduct 1 "Steady")
                                        (rangeOf 700 850)) /\
  nle (assessApprovalLikelihood (personalProduct 1 "Steady") (rangeOf 700 850))
      (Fin 1).
Proof.
  apply (proj1 approvalLikelihood_in_unit_interval
               (personalProduct 1 "Steady") 700 850).
  discriminate.
Defined.

(** ** Ranking engine: ranges *)

Lemma ranges_by_key (l : list AnalyzedProduct) (key : Metric) :
  isCostKey key = true ->
  rangeOfKey (ranges l) key = rangeFrom (metric key) l emptyRange.
Proof.
  intros Hk. unfold ranges, rangeFrom.
  set (step := fun rg p => _).
  set (init := {| rg_interestRate := emptyRange |}).
  assert (H : forall rg,
             rangeOfKey (fold_left step l rg) key
             = fold_left (fun r p => widen r (metric key p)) l
                         (rangeOfKey rg key)).
  { induction l as [|p l IH]; intros rg; simpl.
    - reflexivity.
    - rewrite IH. f_equal. destruct key; try discriminate; reflexivity. }
  rewrite H. destruct key; try discriminate; reflexivity.
Qed.

Lemma scoresOf_cost (rg : Ranges) (p : AnalyzedProduct) (key : Metric) :
  isCostKey key = true ->
  score (scoresOf rg p) key
  = nsub (Fin 1) (normalize (metric key p)
                            (r_min (rangeOfKey rg key))
                            (r_max (rangeOfKey rg key))).
Proof. destruct key; try discriminate; reflexivity. Qed.

Lemma scoresOf_benefit (rg : Ranges) (p : AnalyzedProduct) (key : Metric) :
  isCostKey key = false -> score (scoresOf rg p) key = metric key p.
Proof. destruct key; try discriminate; reflexivity. Qed.

Lemma nmin_PInf (y : Num) : nmin PInf y = y.
Proof. now destruct y. Qed.

Lemma nmax_NInf (y : Num) : nmax NInf y = y.
Proof. now destruct y. Qed.

Lemma rangeFrom_cons f p l :
  rangeFrom f (p :: l) emptyRange
  = rangeFrom f l {| r_min := f p; r_max := f p |}.
Proof.
  unfold rangeFrom. cbn [fold_left]. f_equal.
  unfold widen, emptyRange. cbn [r_min r_max].
  now rewrite nmin_PInf, nmax_NInf.
Qed.

Lemma widen_finite (lo hi q : Q) :
  lo <= hi ->
  exists lo' hi',
    widen {| r_min := Fin lo; r_max := Fin hi |} (Fin q)
    = {| r_min := Fin lo'; r_max := Fin hi' |} /\
    lo' <= lo /\ hi <= hi' /\ lo' <= q <= hi' /\ lo' <= hi'.
Proof.
  intros Hle. unfold widen. cbn [r_min r_max nmin nmax nleb].
  destruct (Qle_bool_cases lo q) as [[-> H1]|[-> H1]],
           (Qle_bool_cases hi q) as [[-> H2]|[-> H2]].
  - exists lo, q. repeat split; lra.
  - exists lo, hi. repeat split; lra.
  - exists q, q. repeat split; lra.
  - exists q, hi. repeat split; lra.
Qed.

(** Over finite values the range is the pair of the least and the greatest
    value. *)
Lemma rangeFrom_finite f l :
  Forall (fun p => is_finite (f p)) l ->
  forall lo hi,
    lo <= hi ->
    exists lo' hi',
      rangeFrom f l {| r_min := Fin lo; r_max := Fin hi |}
      = {| r_min := Fin lo'; r_max := Fin hi' |} /\
      lo' <= lo /\ hi <= hi' /\ lo' <= hi' /\
      forall p q, In p l -> f p = Fin q -> lo' <= q <= hi'.
Proof.
  induction 1 as [|p l Hp Hl IH]; intros lo hi Hle.
  - exists lo, hi. split; [reflexivity|].
    split; [lra|]. split; [lra|]. split; [lra|]. intros p q [].
  - destruct (f p) as [q0| | |] eqn:Hq; try contradiction.
    destruct (widen_finite lo hi q0 Hle)
      as (lo1 & hi1 & Hw & Hlo1 & Hhi1 & Hq1 & Hle1).
    destruct (IH lo1 hi1 Hle1) as (lo' & hi' & Heq & H1 & H2 & H3 & H4).
    exists lo', hi'.
    split.
    { unfold rangeFrom in *. cbn [fold_left]. rewrite Hq, Hw. exact Heq. }
    split; [lra|]. split; [lra|]. split; [lra|].
    intros p' q [<-|Hin] Hf.
    + rewrite Hq in Hf. injection Hf as <-. lra.
    + exact (H4 _ _ Hin Hf).
Qed.

(** The range of a non-empty list of finite values. *)
Lemma rangeFrom_empty_finite f l p0 :
  In p0 l ->
  Forall (fun p => is_finite (f p)) l ->
  exists lo hi,
    rangeFrom f l emptyRange = {| r_min := Fin lo; r_max := Fin hi |} /\
    lo <= hi /\
    forall p q, In p l -> f p = Fin q -> lo <= q <= hi.
Proof.
  intros Hin Hfin. destruct l as [|p l]; [contradiction|].
  rewrite rangeFrom_cons.
  inversion Hfin as [|? ? Hp Hl]; subst.
  destruct (f p) as [q0| | |] eqn:Hq; try contradiction.
  destruct (rangeFrom_finite f l Hl q0 q0 (Qle_refl _))
    as (lo & hi & Heq & H1 & H2 & H3 & H4).
  exists lo, hi. split; [exact Heq|]. split; [exact H3|].
  intros p' q [<-|Hin'] Hf.
  - rewrite Hq in Hf. injection Hf as <-. lra.
  - exact (H4 _ _ Hin' Hf).
Qed.

(** ** Ranking engine: scores *)

Lemma weights_positive (preferences : Preferences) (key : Metric) :
  0 < weight (weights preferences) key.
Proof. each_preference preferences; destruct key; reflexivity. Qed.

(** The inverted normalised score of a finite cost inside a finite range
    is finite and does not increase with the cost. *)
Lemma cost_score_antitone (lo hi v v' : Q) :
  lo <= hi -> v <= v' ->
  exists s s',
    nsub (Fin 1) (normalize (Fin v) (Fin lo) (Fin hi)) = Fin s /\
    nsub (Fin 1) (normalize (Fin v') (Fin lo) (Fin hi)) = Fin s' /\
    s' <= s.
Proof.
  intros Hle Hv. unfold normalize. cbn [strict_eq].
  destruct (Qeq_bool lo hi) eqn:E.
  - exists (1 - 0.5), (1 - 0.5). repeat split. lra.
  - apply Qeq_bool_neq in E.
    assert (Hd : 0 < hi - lo) by (destruct (Qlt_le_dec lo hi); [lra|];
                                  exfalso; apply E; lra).
    change (nsub (Fin v) (Fin lo)) with (Fin (v - lo)).
    change (nsub (Fin v') (Fin lo)) with (Fin (v' - lo)).
    change (nsub (Fin hi) (Fin lo)) with (Fin (hi - lo)).
    rewrite !ndiv_fin by lra.
    exists (1 - (v - lo) / (hi - lo)), (1 - (v' - lo) / (hi - lo)).
    repeat split.
    assert ((v - lo) / (hi - lo) <= (v' - lo) / (hi - lo)); [|lra].
    unfold Qdiv. apply Qmult_le_compat_r; [lra|].
    apply Qlt_le_weak, Qinv_lt_0_compat, Hd.
Qed.

Lemma ranges_finite (l : list AnalyzedProduct) (p0 : AnalyzedProduct)
    (key : Metric) :
  In p0 l -> Forall finiteMetrics l -> isCostKey key = true ->
  finiteRange (rangeOfKey (ranges l) key).
Proof.
  intros Hin Hfin Hk. rewrite ranges_by_key by assumption.
  destruct (rangeFrom_empty_finite (metric key) l p0 Hin)
    as (lo & hi & Heq & Hle & _).
  - eapply Forall_impl; [|exact Hfin]. intros p Hp. apply Hp.
  - exists lo, hi. auto.
Qed.

Lemma score_order (rg : Ranges) (a b : AnalyzedProduct) (key : Metric) :
  finiteRange (rg_interestRate rg) -> finiteRange (rg_monthlyPayment rg) ->
  finiteMetrics a -> finiteMetrics b -> dominates a b ->
  exists sa sb,
    score (scoresOf rg a) key = Fin sa /\
    score (scoresOf rg b) key = Fin sb /\
    sb <= sa.
Proof.
  intros (lo1 & hi1 & Hr1 & Hle1) (lo2 & hi2 & Hr2 & Hle2) Ha Hb
         (D1 & D2 & D3 & D4 & D5).
  pose proof (Ha key) as Hak. pose proof (Hb key) as Hbk.
  destruct key; cbn [score scoresOf s_interestRate s_monthlyPayment
                       s_customerService s_flexibility s_approvalLikelihood];
    cbn [metric] in Hak, Hbk.
  - rewrite Hr1. cbn [r_min r_max].
    destruct (interestRate a) as [va| | |]; try contradiction.
    destruct (interestRate b) as [vb| | |]; try contradiction.
    apply nle_fin in D1.
    destruct (cost_score_antitone lo1 hi1 va vb Hle1 D1) as (s & s' & ? & ? & ?).
    exists s, s'. auto.
  - rewrite Hr2. cbn [r_min r_max].
    destruct (monthlyPayment a) as [va| | |]; try contradiction.
    destruct (monthlyPayment b) as [vb| | |]; try contradiction.
    apply nle_fin in D2.
    destruct (cost_score_antitone lo2 hi2 va vb Hle2 D2) as (s & s' & ? & ? & ?).
    exists s, s'. auto.
  - destruct (customerService a) as [va| | |]; try contradiction.
    destruct (customerService b) as [vb| | |]; try contradiction.
    apply nle_fin in D3. exists va, vb. auto.
  - destruct (flexibility a) as [va| | |]; try contradiction.
    destruct (flexibility b) as [vb| | |]; try contradiction.
    apply nle_fin in D4. exists va, vb. auto.
  - destruct (approvalLikelihood a) as [va| | |]; try contradiction.
    destruct (approvalLikelihood b) as [vb| | |]; try contradiction.
    apply nle_fin in D5. exists va, vb. auto.
Qed.

Lemma dominates_refl (a : AnalyzedProduct) : finiteMetrics a -> dominates a a.
Proof.
  intros Ha. unfold dominates, nge.
  pose proof (Ha InterestRateKey) as H1. pose proof (Ha MonthlyPaymentKey) as H2.
  pose proof (Ha CustomerServiceKey) as H3. pose proof (Ha FlexibilityKey) as H4.
  pose proof (Ha ApprovalLikelihoodKey) as H5. cbn [metric] in *.
  destruct (interestRate a), (monthlyPayment a), (customerService a),
           (flexibility a), (approvalLikelihood a); try contradiction.
  repeat split; apply nle_fin; apply Qle_refl.
Qed.

Lemma weightedTotal_finite (w : Weights) (s : Scores) (s1 s2 s3 s4 s5 : Q) :
  score s InterestRateKey = Fin s1 ->
  score s MonthlyPaymentKey = Fin s2 ->
  score s CustomerServiceKey = Fin s3 ->
  score s FlexibilityKey = Fin s4 ->
  score s ApprovalLikelihoodKey = Fin s5 ->
  weightedTotal w s
  = Fin (0 + s1 * w_interestRate w + s2 * w_monthlyPayment w
         + s3 * w_customerService w + s4 * w_flexibility w
         + s5 * w_approvalLikelihood w).
Proof.
  intros H1 H2 H3 H4 H5. unfold weightedTotal, contribution.
  cbn [fold_left keys]. rewrite H1, H2, H3, H4, H5. reflexivity.
Qed.

(** With finite ranges and metrics the total score is finite, and it is
    monotone in dominance. *)
Lemma totalScore_order (w : Weights) (rg : Ranges) (a b : AnalyzedProduct) :
  (forall key, 0 <= weight w key) ->
  finiteRange (rg_interestRate rg) -> finiteRange (rg_monthlyPayment rg) ->
  finiteMetrics a -> finiteMetrics b -> dominates a b ->
  exists ta tb,
    totalScore (scoreProduct w rg a) = Fin ta /\
    totalScore (scoreProduct w rg b) = Fin tb /\
    tb <= ta.
Proof.
  intros Hw Hr1 Hr2 Ha Hb Hd.
  destruct (score_order rg a b InterestRateKey Hr1 Hr2 Ha Hb Hd)
    as (a1 & b1 & Ha1 & Hb1 & H1).
  destruct (score_order rg a b MonthlyPaymentKey Hr1 Hr2 Ha Hb Hd)
    as (a2 & b2 & Ha2 & Hb2 & H2).
  destruct (score_order rg a b CustomerServiceKey Hr1 Hr2 Ha Hb Hd)
    as (a3 & b3 & Ha3 & Hb3 & H3).
  destruct (score_order rg a b FlexibilityKey Hr1 Hr2 Ha Hb Hd)
    as (a4 & b4 & Ha4 & Hb4 & H4).
  destruct (score_order rg a b ApprovalLikelihoodKey Hr1 Hr2 Ha Hb Hd)
    as (a5 & b5 & Ha5 & Hb5 & H5).
  cbn [totalScore scoreProduct].
  rewrite (weightedTotal_finite w _ a1 a2 a3 a4 a5) by assumption.
  rewrite (weightedTotal_finite w _ b1 b2 b3 b4 b5) by assumption.
  eexists _, _. split; [reflexivity|]. split; [reflexivity|].
  pose proof (Hw InterestRateKey) as W1. pose proof (Hw MonthlyPaymentKey) as W2.
  pose proof (Hw CustomerServiceKey) as W3. pose proof (Hw FlexibilityKey) as W4.
  pose proof (Hw ApprovalLikelihoodKey) as W5. cbn [weight] in *.
  pose proof (Qmult_le_compat_r _ _ _ H1 W1).
  pose proof (Qmult_le_compat_r _ _ _ H2 W2).
  pose proof (Qmult_le_compat_r _ _ _ H3 W3).
  pose proof (Qmult_le_compat_r _ _ _ H4 W4).
  pose proof (Qmult_le_compat_r _ _ _ H5 W5).
  lra.
Qed.

(** ** Ranking engine: the order of the result *)

Lemma StronglySorted_weaken {A} (R R' : A -> A -> Prop) (l : list A) :
  (forall x y, In x l -> In y l -> R x y -> R' x y) ->
  StronglySorted R l -> StronglySorted R' l.
Proof.
  intros HR Hs. induction Hs as [|x l Hs IH Hx].
  - constructor.
  - constructor.
    + apply IH. intros y z Hy Hz. apply HR; now right.
    + rewrite Forall_forall in *. intros y Hy.
      apply HR; [now left | now right | now apply Hx].
Qed.

Lemma StronglySorted_later {A} (R : A -> A -> Prop) (l1 l2 : list A) (x y : A) :
  StronglySorted R (l1 ++ x :: l2)%list -> In y l2 -> R x y.
Proof.
  induction l1 as [|z l1 IH]; simpl; intros Hs Hy.
  - inversion Hs as [|? ? _ Hall]; subst.
    rewrite Forall_forall in Hall. now apply Hall.
  - inversion Hs; subst. now apply IH.
Qed.

(** The comparator of [rankProducts] on two finite scores. *)
Lemma keep_finite (tx ty : Q) :
  negb (nltb (Fin 0) (nsub (Fin ty) (Fin tx))) = true <-> ty <= tx.
Proof.
  cbn [nsub nneg nadd nltb]. unfold Qltb. rewrite negb_involutive.
  rewrite Qle_bool_iff. split; intros H; lra.
Qed.

Lemma rankProducts_Permutation l preferences :
  Permutation (rankProducts l preferences) (scoredProducts l preferences).
Proof. apply sort_by_Permutation. Qed.

Lemma js_sort_descending (l : list ScoredProduct) :
  Forall (fun s => is_finite (totalScore s)) l ->
  StronglySorted (fun x y => nge (totalScore x) (totalScore y))
                 (js_sort (fun a b => nsub (totalScore b) (totalScore a)) l).
Proof.
  intros Hfin. unfold js_sort.
  set (keep := fun a b : ScoredProduct =>
                 negb (nltb (Fin 0) (nsub (totalScore b) (totalScore a)))).
  assert (Hk : forall x y tx ty,
             totalScore x = Fin tx -> totalScore y = Fin ty ->
             (keep x y = true <-> ty <= tx)).
  { intros x y tx ty Hx Hy. unfold keep. rewrite Hx, Hy. apply keep_finite. }
  assert (Hs : StronglySorted (fun x y => keep x y = true) (sort_by keep l)).
  { apply (sort_by_sorted keep (fun s => is_finite (totalScore s))).
    - intros x y Px Py Hxy.
      destruct (totalScore x) as [tx| | |] eqn:Hx; try contradiction.
      destruct (totalScore y) as [ty| | |] eqn:Hy; try contradiction.
      apply (Hk y x ty tx Hy Hx).
      destruct (Qlt_le_dec ty tx) as [Hlt|Hle]; [|exact Hle].
      apply Qlt_le_weak in Hlt.
      apply (Hk x y tx ty Hx Hy) in Hlt. congruence.
    - intros x y z Px Py Pz Hxy Hyz.
      destruct (totalScore x) as [tx| | |] eqn:Hx; try contradiction.
      destruct (totalScore y) as [ty| | |] eqn:Hy; try contradiction.
      destruct (totalScore z) as [tz| | |] eqn:Hz; try contradiction.
      apply (Hk x y tx ty Hx Hy) in Hxy. apply (Hk y z ty tz Hy Hz) in Hyz.
      apply (Hk x z tx tz Hx Hz). lra.
    - exact Hfin. }
  eapply StronglySorted_weaken; [|exact Hs].
  intros x y Hx Hy Hxy. cbv beta in Hxy.
  assert (Hfin' : Forall (fun s => is_finite (totalScore s)) (sort_by keep l)).
  { eapply Permutation_Forall; [symmetry; apply sort_by_Permutation|exact Hfin]. }
  rewrite Forall_forall in Hfin'.
  pose proof (Hfin' x Hx) as Px. pose proof (Hfin' y Hy) as Py.
  destruct (totalScore x) as [tx| | |] eqn:Ex; try contradiction.
  destruct (totalScore y) as [ty| | |] eqn:Ey; try contradiction.
  unfold nge. apply nle_fin. now apply (Hk x y tx ty Ex Ey).
Qed.

(** C7, amended: in a candidate list all of whose weighted metrics are
    finite numbers, a candidate A that is at least as good as a candidate B
    on every weighted metric (so in particular one that is strictly better
    on all) has a total score at least B's; the ranked list is the scored
    list sorted by total score descending, so B stands in front of A only
    when the two scores are equal. *)
Theorem dominance_is_respected (l : list AnalyzedProduct)
    (preferences : Preferences) (a b : AnalyzedProduct) :
  Forall finiteMetrics l -> In a l -> In b l -> dominates a b ->
  let w := weights preferences in
  let sa := scoreProduct w (ranges l) a in
  let sb := scoreProduct w (ranges l) b in
  In sa (rankProducts l preferences) /\
  In sb (rankProducts l preferences) /\
  nge (totalScore sa) (totalScore sb) /\
  StronglySorted (fun x y => nge (totalScore x) (totalScore y))
                 (rankProducts l preferences) /\
  (forall l1 l2 l3,
     rankProducts l preferences = (l1 ++ sb :: l2 ++ sa :: l3)%list ->
     num_eq (totalScore sa) (totalScore sb)).
Proof.
  intros Hfin Ha Hb Hd w sa sb.
  assert (Hw : forall key, 0 <= weight w key)
    by (intros key; apply Qlt_le_weak, weights_positive).
  assert (Hr1 : finiteRange (rg_interestRate (ranges l)))
    by (apply (ranges_finite l a InterestRateKey); auto).
  assert (Hr2 : finiteRange (rg_monthlyPayment (ranges l)))
    by (apply (ranges_finite l a MonthlyPaymentKey); auto).
  rewrite Forall_forall in Hfin.
  destruct (totalScore_order w (ranges l) a b Hw Hr1 Hr2
              (Hfin a Ha) (Hfin b Hb) Hd) as (ta & tb & Hta & Htb & Hle).
  assert (Hin : forall p, In p l ->
                  In (scoreProduct w (ranges l) p) (rankProducts l preferences)).
  { intros p Hp. eapply Permutation_in;
      [symmetry; apply rankProducts_Permutation|].
    unfold scoredProducts. now apply in_map. }
  assert (Hsorted : StronglySorted (fun x y => nge (totalScore x) (totalScore y))
                                   (rankProducts l preferences)).
  { apply js_sort_descending. apply Forall_forall. intros s Hs.
    unfold scoredProducts in Hs. apply in_map_iff in Hs.
    destruct Hs as (p & <- & Hp).
    destruct (totalScore_order w (ranges l) p p Hw Hr1 Hr2
                (Hfin p Hp) (Hfin p Hp) (dominates_refl p (Hfin p Hp)))
      as (tp & _ & Htp & _).
    fold w. rewrite Htp. exact I. }
  split; [now apply Hin|]. split; [now apply Hin|].
  split; [fold sa sb in Hta, Htb; unfold nge; rewrite Hta, Htb;
          now apply nle_fin|].
  split; [exact Hsorted|].
  intros l1 l2 l3 Heq. rewrite Heq in Hsorted.
  assert (Hba : nge (totalScore sb) (totalScore sa)).
  { apply (StronglySorted_later _ l1 (l2 ++ sa :: l3)%list sb sa Hsorted).
    apply in_or_app. right. now left. }
  fold sa sb in Hta, Htb. unfold nge in Hba. rewrite Hta, Htb in *.
  apply nle_fin in Hba. simpl. lra.
Qed.

Lemma promoCatalog_analyzed :
  calculateMetrics promoCatalog promoRandom
    (getEligibleProducts promoCatalog "Auto" 12000 12 720) 12000 12
  = [basicOffer; plusOffer; promoOffer].
Proof. reflexivity. Qed.

(** C7, as stated, fails when the list holds a candidate whose payment is
    NaN: "Plus" is strictly better than "Basic" on every weighted metric,
    but the 0% "Promo" offer turns the payment range, and with it every
    total score, into NaN; A's score is then not >= B's, and the sort
    leaves "Basic" in front of "Plus". *)
Lemma NaN_candidate_breaks_dominance :
  let l := [basicOffer; plusOffer; promoOffer] in
  let w := weights noPreferences in
  let sa := scoreProduct w (ranges l) plusOffer in
  let sb := scoreProduct w (ranges l) basicOffer in
  (nlt (interestRate plusOffer) (interestRate basicOffer) /\
   nlt (monthlyPayment plusOffer) (monthlyPayment basicOffer) /\
   ngt (customerService plusOffer) (customerService basicOffer) /\
   ngt (flexibility plusOffer) (flexibility basicOffer) /\
   ngt (approvalLikelihood plusOffer) (approvalLikelihood basicOffer)) /\
  monthlyPayment promoOffer = NaN /\
  totalScore sa = NaN /\ totalScore sb = NaN /\
  ~ nge (totalScore sa) (totalScore sb) /\
  map (fun s => name (product (analyzed s))) (rankProducts l noPreferences)
  = ["Basic"; "Plus"; "Promo"]%string.
Proof.
  vm_compute. repeat split; discriminate.
Qed.

Lemma dominance_is_respected_example :
  nge (totalScore (scoreProduct (weights noPreferences)
                                (ranges [basicOffer; plusOffer]) plusOffer))
      (totalScore (scoreProduct (weights noPreferences)
                                (ranges [basicOffer; plusOffer]) basicOffer)).
Proof.
  assert (Hfin : Forall finiteMetrics [basicOffer; plusOffer]).
  { repeat apply Forall_cons; try apply Forall_nil;
      intros []; vm_compute; exact I. }
  assert (Hd : dominates plusOffer basicOffer).
  { vm_compute. repeat split. }
  exact (proj1 (proj2 (proj2
           (dominance_is_respected [basicOffer; plusOffer] noPreferences
              plusOffer basicOffer Hfin
              (or_intror (or_introl eq_refl)) (or_introl eq_refl) Hd)))).
Defined.

(** ** Ranking engine: a metric on which all candidates agree *)

Lemma num_eq_refl (x : Num) : num_eq x x.
Proof. destruct x; simpl; auto. reflexivity. Qed.

Lemma nmin_shared (x y v : Num) :
  is_nan v = false -> num_eq x v -> num_eq y v -> num_eq (nmin x y) v.
Proof.
  destruct x, y, v; simpl; try contradiction; try discriminate; auto;
    intros _ Hx Hy; destruct (Qle_bool _ _); assumption.
Qed.

Lemma nmax_shared (x y v : Num) :
  is_nan v = false -> num_eq x v -> num_eq y v -> num_eq (nmax x y) v.
Proof.
  destruct x, y, v; simpl; try contradiction; try discriminate; auto;
    intros _ Hx Hy; destruct (Qle_bool _ _); assumption.
Qed.

Lemma strict_eq_shared (x y v : Num) :
  is_nan v = false -> num_eq x v -> num_eq y v -> strict_eq x y = true.
Proof.
  destruct x, y, v; simpl; try contradiction; try discriminate; auto.
  intros _ Hx Hy. apply Qeq_bool_true. now rewrite Hx, Hy.
Qed.

Lemma rangeFrom_shared f l v :
  is_nan v = false ->
  (forall p, In p l -> num_eq (f p) v) ->
  forall start,
    num_eq (r_min start) v -> num_eq (r_max start) v ->
    num_eq (r_min (rangeFrom f l start)) v /\
    num_eq (r_max (rangeFrom f l start)) v.
Proof.
  intros Hv. induction l as [|p l IH]; intros Hl start Hmin Hmax.
  - now split.
  - unfold rangeFrom. cbn [fold_left].
    apply IH.
    + intros q Hq. apply Hl. now right.
    + cbn [widen r_min]. apply nmin_shared; auto. apply Hl. now left.
    + cbn [widen r_max]. apply nmax_shared; auto. apply Hl. now left.
Qed.

Lemma nmul_num_eq (x y : Num) (w : Q) :
  num_eq x y -> num_eq (nmul x (Fin w)) (nmul y (Fin w)).
Proof.
  destruct x, y; simpl; try contradiction; auto using num_eq_refl.
  intros ->. reflexivity.
Qed.

(** C8, as stated, fails for the metrics that are not normalised: two
    candidates that share the flexibility 0.7 each get 0.7 x the
    flexibility weight from it, not 0.5 x the weight. *)
Lemma shared_flexibility_is_not_neutral :
  let l := [plusOffer; selectOffer] in
  let w := weights noPreferences in
  Forall (fun p =>
            num_eq (flexibility p) (Fin 0.7) /\
            num_eq (contribution w (scoresOf (ranges l) p) FlexibilityKey)
                   (Fin (0.7 * weight w FlexibilityKey)) /\
            ~ num_eq (contribution w (scoresOf (ranges l) p) FlexibilityKey)
                     (Fin (0.5 * weight w FlexibilityKey)))
         l.
Proof.
  vm_compute. repeat constructor; discriminate.
Qed.

(** C8, amended: when all candidates share one value (not NaN) for a
    cost-type metric, interest rate or monthly payment, the range of that
    metric has min = max, its score is the neutral 0.5 and it contributes
    exactly 0.5 x its weight to every candidate's total; a benefit-type
    metric (service, flexibility, approval) is not normalised, and a shared
    value v contributes v x its weight, again the same for all. *)
Theorem shared_metric_contribution (l : list AnalyzedProduct)
    (preferences : Preferences) (key : Metric) (v : Num) :
  is_nan v = false ->
  (forall p, In p l -> num_eq (metric key p) v) ->
  let w := weights preferences in
  forall p, In p l ->
    let c := contribution w (scoresOf (ranges l) p) key in
    if isCostKey key then
      strict_eq (r_min (rangeOfKey (ranges l) key))
                (r_max (rangeOfKey (ranges l) key)) = true /\
      num_eq (score (scoresOf (ranges l) p) key) (Fin 0.5) /\
      num_eq c (Fin (0.5 * weight w key))
    else
      num_eq c (nmul v (Fin (weight w key))).
Proof.
  intros Hv Hl w p Hp c. subst c. unfold contribution.
  destruct (isCostKey key) eqn:Hk.
  - assert (Hrange : strict_eq (r_min (rangeOfKey (ranges l) key))
                               (r_max (rangeOfKey (ranges l) key)) = true).
    { rewrite ranges_by_key by assumption.
      destruct l as [|p0 l0]; [contradiction|].
      rewrite rangeFrom_cons.
      destruct (rangeFrom_shared (metric key) l0 v Hv
                  (fun q Hq => Hl q (or_intror Hq))
                  {| r_min := metric key p0; r_max := metric key p0 |})
        as [Hmin Hmax]; try (apply Hl; now left).
      now apply (strict_eq_shared _ _ v). }
    split; [exact Hrange|].
    rewrite scoresOf_cost by assumption.
    unfold normalize. rewrite Hrange.
    split; simpl; [reflexivity | ring].
  - rewrite scoresOf_benefit by assumption.
    apply nmul_num_eq. now apply Hl.
Qed.

Lemma shared_metric_contribution_example :
  num_eq (contribution (weights noPreferences)
            (scoresOf (ranges [plusOffer; selectOffer]) plusOffer)
            InterestRateKey)
         (Fin (0.5 * weight (weights noPreferences) InterestRateKey)).
Proof.
  assert (Hl : forall p, In p [plusOffer; selectOffer] ->
                         num_eq (metric InterestRateKey p) (Fin 4)).
  { intros p [<-|[<-|[]]]; reflexivity. }
  exact (proj2 (proj2
           (shared_metric_contribution [plusOffer; selectOffer] noPreferences
              InterestRateKey (Fin 4) eq_refl Hl plusOffer (or_introl eq_refl)))).
Defined.

(** ** The entry point *)

(** C2: [analyzeLoanOptions] returns the [success: false] object, with the
    fixed message and the result of the alternatives search, exactly when
    the eligibility filter returns no product; otherwise it returns the
    [success: true] object made of the recommendations, the first three and
    all ranked products, the educational content and the insights.  The
    function is total: neither branch raises. *)
Theorem analyzeLoanOptions_result (db : Database) (rnd : nat -> Q)
    (params : Params) :
  let score := match creditScore params with Some s => s | None => 700 end in
  let eligibleProducts :=
    getEligibleProducts db (loanType params) (amount params) (term params)
                        score in
  let ranked :=
    rankProducts (calculateMetrics db rnd eligibleProducts (amount params)
                                   (term params))
                 (preferences params) in
  let result := analyzeLoanOptions db rnd params in
  (success result = false <-> eligibleProducts = []) /\
  (eligibleProducts = [] ->
   exists message,
     result = NoEligibleProducts message
                (suggestAlternatives db (loanType params) (amount params)
                                     (term params) score)) /\
  (eligibleProducts <> [] ->
   result = Analysis (generateRecommendations ranked params)
                     (firstn 3 ranked) ranked
                     (getEducationalContent (loanType params))
                     (generateInsights ranked params)).
Proof.
  cbv zeta. unfold analyzeLoanOptions.
  destruct (getEligibleProducts db (loanType params) (amount params)
              (term params)
              match creditScore params with Some s => s | None => 700 end)
    as [|p rest] eqn:He.
  - split; [split; reflexivity|]. split.
    + intros _. eexists. reflexivity.
    + intros H. now contradiction H.
  - split; [split; discriminate|]. split.
    + discriminate.
    + intros _. reflexivity.
Qed.

(** A business loan of 5,000,000 at credit score 500 against a catalog of
    personal loans: nothing is eligible. *)
Lemma analyzeLoanOptions_result_example :
  success (analyzeLoanOptions bandedRates (fun _ => 0)
             {| loanType := "Business"; amount := 5000000; term := 60;
                creditScore := Some 500; preferences := noPreferences |})
  = false.
Proof.
  apply (proj1 (analyzeLoanOptions_result bandedRates (fun _ => 0)
                  {| loanType := "Business"; amount := 5000000; term := 60;
                     creditScore := Some 500;
                     preferences := noPreferences |})).
  reflexivity.
Defined.

(* ================================================================== *)
(** * Further properties of the analysis service *)
(* ================================================================== *)

(** ** Ranking *)

(** X1: ranking neither loses nor duplicates a candidate, whatever the
    numbers are: the analyzed products of the ranked list are a
    permutation of the list passed in. *)
Theorem rankProducts_keeps_every_candidate (l : list AnalyzedProduct)
    (preferences : Preferences) :
  Permutation (map analyzed (rankProducts l preferences)) l /\
  List.length (rankProducts l preferences) = List.length l.
Proof.
  assert (Hp : Permutation (map analyzed (rankProducts l preferences)) l).
  { rewrite (Permutation_map analyzed (rankProducts_Permutation l preferences)).
    unfold scoredProducts. rewrite map_map. cbn [analyzed scoreProduct].
    now rewrite map_id. }
  split; [exact Hp|].
  rewrite <- (Permutation_length Hp). now rewrite length_map.
Qed.

(** X2: every renormalised weight lies strictly between 0 and 1, and
    setting the flag of a metric that was not prioritised strictly raises
    that metric's weight and strictly lowers each of the other four. *)
Theorem prioritizing_shifts_weight (preferences : Preferences)
    (key : Metric) :
  prioritized key preferences = false ->
  (forall k, 0 < weight (weights preferences) k < 1) /\
  weight (weights preferences) key
    < weight (weights (prioritize key preferences)) key /\
  (forall other, other <> key ->
     weight (weights (prioritize key preferences)) other
       < weight (weights preferences) other).
Proof.
  intros Hflag. split; [|split].
  - intros k. each_preference preferences; destruct k; split; reflexivity.
  - each_preference preferences; destruct key;
      try discriminate Hflag; reflexivity.
  - intros other Hother.
    each_preference preferences; destruct key; try discriminate Hflag;
      destruct other; try (now contradiction Hother); reflexivity.
Qed.

Lemma prioritizing_shifts_weight_example :
  weight (weights noPreferences) MonthlyPaymentKey
    < weight (weights (prioritize MonthlyPaymentKey noPreferences))
             MonthlyPaymentKey.
Proof.
  apply (prioritizing_shifts_weight noPreferences MonthlyPaymentKey).
  reflexivity.
Defined.

(** ** Eligibility and alternatives *)

Lemma filter_implies_Subsequence {A} (f g : A -> bool) (l : list A) :
  (forall x, f x = true -> g x = true) ->
  Subsequence (filter f l) (filter g l).
Proof.
  intros Hfg. induction l as [|x l IH]; simpl.
  - constructor.
  - destruct (f x) eqn:Hf.
    + rewrite (Hfg x Hf). now constructor.
    + destruct (g x); [now constructor | exact IH].
Qed.

(** X3: a higher credit score never costs a product: the products eligible
    at a score are, in the same order, among those eligible at any higher
    score for the same type, amount and term. *)
Theorem eligibility_grows_with_score (db : Database) (loanType : string)
    (amount : Q) (term : Z) (score score' : Q) :
  score <= score' ->
  Subsequence (getEligibleProducts db loanType amount term score)
              (getEligibleProducts db loanType amount term score').
Proof.
  intros Hle. unfold getEligibleProducts, find.
  apply filter_implies_Subsequence. intros p Hp.
  apply eligible_matches in Hp. apply eligible_matches.
  destruct Hp as (Ht & Ha & HA & Hm & HT & (lo & Hlo & Hc) & Hact).
  repeat split; try assumption.
  exists lo. split; [assumption | lra].
Qed.

Lemma eligibility_grows_with_score_example :
  Subsequence (getEligibleProducts bandedRates "Personal" 10000 36 640)
              (getEligibleProducts bandedRates "Personal" 10000 36 700).
Proof.
  apply (eligibility_grows_with_score bandedRates "Personal" 10000 36 640 700).
  discriminate.
Defined.

(** The query of the first alternative search. *)
Lemma lowerCredit_matches loanType amount term creditScore p :
  matches
    {| where_ := [ ("type", Eq (VStr loanType));
                   ("minAmount", Lte amount);
                   ("maxAmount", Gte (or_max amount));
                   ("minTerm", Lte (inject_Z term));
                   ("maxTerm", Gte (or_max (inject_Z term)));
                   ("minCreditScore", Lt (creditScore - 30));
                   ("active", Eq (VBool true)) ]%string;
       or_ := None |} p = true ->
  eligible loanType amount term creditScore p /\
  exists lo, minCreditScore p = Some lo /\ lo < creditScore - 30.
Proof.
  unfold matches, matches_filter, eligible.
  cbn -[Qle_bool Qeq_bool Qltb or_max inject_Z].
  rewrite !andb_true_iff, String.eqb_eq, !Qle_bool_iff, Bool.eqb_true_iff.
  destruct (maxAmount p) as [hiA|], (maxTerm p) as [hiT|],
           (minCreditScore p) as [lo|];
    cbn -[Qle_bool Qeq_bool Qltb or_max inject_Z]; rewrite ?Qle_bool_iff;
    try (intros [[_ [_ [? _]]] _]; discriminate);
    try (intros [[_ [_ [_ [_ [? _]]]]] _]; discriminate);
    try (intros [[_ [_ [_ [_ [_ [? _]]]]]] _]; discriminate).
  intros [(Ht & Ha & HA & Hm & HT & Hc & Hact & _) _].
  assert (Hlt : lo < creditScore - 30).
  { unfold Qltb in Hc. apply negb_true_iff in Hc.
    apply Qnot_le_lt. intros H. apply Qle_bool_iff in H. congruence. }
  split.
  - repeat split; eauto. exists lo. split; [reflexivity | lra].
  - exists lo. split; [reflexivity | exact Hlt].
Qed.

(** X4: when [analyzeLoanOptions] takes the no-eligible-products branch,
    the alternatives never hold an "Options for Lower Credit Scores"
    entry: that search asks everything the eligibility filter asks (its
    credit clause, minCreditScore < score - 30, implies
    minCreditScore <= score), so it finds nothing when the filter found
    nothing. *)
Theorem lower_credit_options_never_offered (db : Database) (rnd : nat -> Q)
    (params : Params) (message : string) (alternatives : list Alternative) :
  analyzeLoanOptions db rnd params = NoEligibleProducts message alternatives ->
  forall products, ~ In (LowerCreditOptions products) alternatives.
Proof.
  unfold analyzeLoanOptions.
  set (score := match creditScore params with Some s => s | None => 700 end).
  destruct (getEligibleProducts db (loanType params) (amount params)
              (term params) score) as [|p rest] eqn:He; [|discriminate].
  intros [= _ <-] products Hin.
  unfold suggestAlternatives in Hin.
  match type of Hin with
  | context [limit 2 (find ?c ?q)] =>
      assert (Hnone : find c q = [])
  end.
  { match goal with
    | |- ?l = [] => destruct l as [|x l'] eqn:Hl; [reflexivity|]
    end.
    assert (Hx : In x (getEligibleProducts db (loanType params)
                         (amount params) (term params) score)).
    { unfold getEligibleProducts, find. apply filter_In.
      assert (Hx' : In x (x :: l')) by now left.
      rewrite <- Hl in Hx'. unfold find in Hx'. apply filter_In in Hx'.
      destruct Hx' as [Hc Hm]. split; [exact Hc|].
      apply eligible_matches. now apply lowerCredit_matches in Hm. }
    rewrite He in Hx. contradiction. }
  rewrite Hnone in Hin. cbn [limit firstn app] in Hin.
  apply in_app_or in Hin. destruct Hin as [Hin|Hin].
  - destruct (find (loanProducts db) _) as [|a l]; [contradiction|].
    destruct Hin as [Hin|[]]. discriminate.
  - destruct (_ && _); [destruct Hin as [Hin|[]]; discriminate | contradiction].
Qed.

Lemma lower_credit_options_never_offered_example :
  exists message alternatives,
    analyzeLoanOptions bandedRates (fun _ => 0)
      {| loanType := "Personal"; amount := 10000; term := 36;
         creditScore := Some 550; preferences := noPreferences |}
    = NoEligibleProducts message alternatives /\
    forall products, ~ In (LowerCreditOptions products) alternatives.
Proof.
  eexists _, _. split; [reflexivity|].
  apply (lower_credit_options_never_offered bandedRates (fun _ => 0)
           {| loanType := "Personal"; amount := 10000; term := 36;
              creditScore := Some 550; preferences := noPreferences |}
           "No eligible loan products found. Consider improving your credit score or adjusting loan parameters.").
  reflexivity.
Defined.

(** ** Metric calculator *)

(** X5: the score is 720 when it is not passed; the lookup returns nothing
    exactly when the collection holds no observation applicable to the
    product and the score; and what it returns is an applicable observation
    of the collection that no applicable observation postdates. *)
Theorem getLatestRate_latest_applicable (db : Database) (loanProductId : nat)
    (score : Q) :
  getLatestRate db loanProductId None
    = getLatestRate db loanProductId (Some 720) /\
  (getLatestRate db loanProductId (Some score) = None <->
   forall r, In r (interestRates db) -> ~ applicable loanProductId score r) /\
  (forall r,
     getLatestRate db loanProductId (Some score) = Some r ->
     In r (interestRates db) /\ applicable loanProductId score r /\
     forall r', In r' (interestRates db) -> applicable loanProductId score r' ->
                (date r' <= date r)%Z).
Proof.
  split; [reflexivity|].
  pose proof (getLatestRate_spec db loanProductId (Some score)) as Hspec.
  cbv zeta in Hspec.
  destruct (getLatestRate db loanProductId (Some score)) as [r|].
  - split.
    + split; [discriminate|]. intros Hnone.
      destruct Hspec as (Hin & Happ & _). now destruct (Hnone r Hin).
    + intros r' [= <-]. exact Hspec.
  - split.
    + split; [intros _; exact Hspec | reflexivity].
    + discriminate.
Qed.

(** X6: the analyzed list holds, in the order of the list passed in, one
    entry for each product that has an observation applicable at the score
    720 and none for the others, whatever the amount, the term and the
    caller's score are; it is never longer than the list passed in. *)
Theorem calculateMetrics_keeps_rated_products (db : Database)
    (rnd : nat -> Q) (products : list LoanProduct) (amount : Q) (term : Z) :
  let analyzedProducts := calculateMetrics db rnd products amount term in
  Subsequence (map product analyzedProducts) products /\
  (forall p, In p (map product analyzedProducts) <->
             In p products /\
             exists r, In r (interestRates db) /\ applicable (_id p) 720 r) /\
  (List.length analyzedProducts <= List.length products)%nat.
Proof.
  cbv zeta. unfold calculateMetrics.
  rewrite calculateMetrics_products.
  split; [apply filter_Subsequence|]. split.
  - intros p. rewrite filter_In.
    pose proof (getLatestRate_spec db (_id p) None) as Hspec.
    cbv zeta in Hspec.
    destruct (getLatestRate db (_id p) None) as [r|].
    + destruct Hspec as (Hin & Happ & _). split.
      * intros [Hp _]. split; [exact Hp|]. now exists r.
      * intros [Hp _]. now split.
    + split; [intros [_ H]; discriminate|].
      intros [_ (r & Hin & Happ)]. now destruct (Hspec r Hin).
  - rewrite <- (length_map product), calculateMetrics_products.
    apply filter_length_le.
Qed.

(** X7: every analyzed product has a flexibility between 0.5 and 0.9, so
    the cap at 1 is never reached, and, when [Math.random] returns values
    in [0,1), a customer-service score between 0.6 and 0.95.  The same
    bounds hold of the computation on binary64: there the flexibility is
    0.5, 0.7 or the float just below 0.9, all between the floats 0.5 and
    0.9, and the service score, which grows with the draw, is 0.6 at the
    draw 0 and reaches 0.95 itself at the largest draw. *)
Theorem benefit_scores_bounded (db : Database) (rnd : nat -> Q)
    (products : list LoanProduct) (amount : Q) (term : Z) :
  (forall k, 0 <= rnd k < 1) ->
  Forall (fun a =>
            nle (Fin 0.5) (flexibility a) /\
            nle (flexibility a) (Fin 0.9) /\
            nle (Fin 0.6) (customerService a) /\
            nle (customerService a) (Fin 0.95))
         (calculateMetrics db rnd products amount term) /\
  (forall noPrepayment paymentOptions,
     PrimFloat.leb Binary64Metrics.flexibilityFloor
       (Binary64Metrics.assessFlexibility noPrepayment paymentOptions) = true /\
     PrimFloat.leb
       (Binary64Metrics.assessFlexibility noPrepayment paymentOptions)
       Binary64Metrics.flexibilityCap = true) /\
  PrimFloat.eqb (Binary64Metrics.assessCustomerService Binary64Metrics.zero)
                Binary64Metrics.serviceFloor = true /\
  PrimFloat.eqb
    (Binary64Metrics.assessCustomerService Binary64Metrics.pred_one)
    Binary64Metrics.serviceCap = true.
Proof.
  intros Hrnd. split; [|split; [|split]].
  - apply Forall_forall. intros a Ha.
    apply calculateMetrics_from_In in Ha.
    destruct Ha as (p & rateInfo & j & _ & _ & ->).
    split; [|split; [|split]].
    + change (flexibility (analyzeProduct p rateInfo amount term (rnd j)))
        with (assessFlexibility p).
      unfold assessFlexibility.
      destruct (existsb _ (perks p)), (existsb _ (perks p));
        vm_compute; congruence.
    + change (flexibility (analyzeProduct p rateInfo amount term (rnd j)))
        with (assessFlexibility p).
      unfold assessFlexibility.
      destruct (existsb _ (perks p)), (existsb _ (perks p));
        vm_compute; congruence.
    + change (customerService (analyzeProduct p rateInfo amount term (rnd j)))
        with (Fin (0.6 + rnd j * 0.35)).
      apply nle_fin. destruct (Hrnd j). lra.
    + change (customerService (analyzeProduct p rateInfo amount term (rnd j)))
        with (Fin (0.6 + rnd j * 0.35)).
      apply nle_fin. destruct (Hrnd j). lra.
  - intros [|] [|]; vm_compute; split; reflexivity.
  - vm_compute. reflexivity.
  - vm_compute. reflexivity.
Qed.

Lemma benefit_scores_bounded_example :
  Forall (fun a =>
            nle (Fin 0.5) (flexibility a) /\
            nle (flexibility a) (Fin 0.9) /\
            nle (Fin 0.6) (customerService a) /\
            nle (customerService a) (Fin 0.95))
         (calculateMetrics promoCatalog promoRandom
            (loanProducts promoCatalog) 12000 12).
Proof.
  apply (benefit_scores_bounded promoCatalog promoRandom
           (loanProducts promoCatalog) 12000 12).
  intros [|[|k]]; split; vm_compute; first [reflexivity | discriminate].
Defined.

(** ** Alternatives *)

Lemma firstn_Subsequence {A} (n : nat) (l : list A) :
  Subsequence (firstn n l) l.
Proof.
  revert n. induction l as [|x l IH]; intros [|n]; simpl.
  - constructor.
  - constructor.
  - apply Subsequence_skip. apply (IH 0%nat).
  - apply Subsequence_keep. apply IH.
Qed.

Lemma Subsequence_trans {A} (l m n : list A) :
  Subsequence l m -> Subsequence m n -> Subsequence l n.
Proof.
  intros Hlm Hmn. revert l Hlm.
  induction Hmn as [|x m n Hmn IH|x m n Hmn IH]; intros l Hlm.
  - exact Hlm.
  - constructor. now apply IH.
  - inversion Hlm; subst.
    + apply Subsequence_skip. now apply IH.
    + apply Subsequence_keep. now apply IH.
Qed.

Lemma Subsequence_In {A} (l m : list A) (x : A) :
  Subsequence l m -> In x l -> In x m.
Proof.
  induction 1 as [|y l m H IH|y l m H IH]; simpl; intros Hx.
  - exact Hx.
  - right. now apply IH.
  - destruct Hx as [->|Hx]; [now left | right; now apply IH].
Qed.

(** What both alternative searches ask of a product. *)
Lemma differentTerm_matches loanType amount term creditScore p :
  matches
    {| where_ := [ ("type", Eq (VStr loanType));
                   ("minAmount", Lte amount);
                   ("maxAmount", Gte (or_max amount));
                   ("minCreditScore", Lte creditScore);
                   ("active", Eq (VBool true)) ]%string;
       or_ := Some [ [ ("minTerm", Lte (inject_Z term - 12)) ];
                     [ ("maxTerm", Gte (inject_Z term + 12)) ] ]%string |}
    p = true ->
  type p = loanType /\ active p = true /\ minAmount p <= amount /\
  (exists lo, minCreditScore p = Some lo /\ lo <= creditScore) /\
  (minTerm p <= inject_Z term - 12 \/
   exists hi, maxTerm p = Some hi /\ inject_Z term + 12 <= hi).
Proof.
  unfold matches, matches_filter.
  cbn -[Qle_bool Qeq_bool Qltb or_max inject_Z].
  rewrite !andb_true_iff, !orb_true_iff, String.eqb_eq, !Qle_bool_iff,
    Bool.eqb_true_iff.
  intros [(Ht & Ha & _ & Hc & Hact & _) Hor].
  assert (Hcredit : exists lo, minCreditScore p = Some lo /\ lo <= creditScore).
  { destruct (minCreditScore p) as [lo|]; [|discriminate Hc].
    exists lo. split; [reflexivity|]. now apply Qle_bool_iff. }
  repeat split; auto.
  destruct Hor as [Hm|[Hm|Hm]]; [| |discriminate Hm];
    rewrite andb_true_r in Hm.
  - left. now apply Qle_bool_iff.
  - right. destruct (maxTerm p) as [hi|]; [|discriminate Hm].
    exists hi. split; [reflexivity|]. now apply Qle_bool_iff.
Qed.

(** X8: [suggestAlternatives] returns at most three entries.  A product
    list it offers, for lower credit scores or for different terms, is
    never empty, holds at most two products, is a subsequence of the
    catalog, and holds only active products of the requested type whose
    minimum credit score is set and at most the requested score; the
    home-equity suggestion is made exactly for a Personal loan of at least
    25000. *)
Theorem suggestAlternatives_shape (db : Database) (loanType : string)
    (amount : Q) (term : Z) (creditScore : Q) :
  let alternatives := suggestAlternatives db loanType amount term creditScore in
  (List.length alternatives <= 3)%nat /\
  (forall products,
     In (LowerCreditOptions products) alternatives \/
     In (DifferentTermOptions products) alternatives ->
     products <> [] /\ (List.length products <= 2)%nat /\
     Subsequence products (loanProducts db) /\
     Forall (fun p => type p = loanType /\ active p = true /\
                      exists lo, minCreditScore p = Some lo /\
                                 lo <= creditScore)
            products) /\
  ((exists title description,
      In (DifferentLoanType title description) alternatives) <->
   loanType = "Personal"%string /\ 25000 <= amount).
Proof.
  cbv zeta. unfold suggestAlternatives.
  set (q1 := {| where_ := _; or_ := None |}).
  match goal with
  | |- context [find (loanProducts db) ?q] =>
      lazymatch q with q1 => fail | _ => set (q2 := q) end
  end.
  assert (H1 : Forall (fun p => type p = loanType /\ active p = true /\
                          exists lo, minCreditScore p = Some lo /\
                                     lo <= creditScore)
                      (limit 2 (find (loanProducts db) q1))).
  { apply Forall_forall. intros p Hp.
    apply (Subsequence_In _ _ _ (firstn_Subsequence 2 _)) in Hp.
    unfold find in Hp. apply filter_In in Hp. destruct Hp as [_ Hp].
    apply lowerCredit_matches in Hp.
    destruct Hp as [(Ht & _ & _ & _ & _ & Hc & Hact) _]. auto. }
  assert (H2 : Forall (fun p => type p = loanType /\ active p = true /\
                          exists lo, minCreditScore p = Some lo /\
                                     lo <= creditScore)
                      (limit 2 (find (loanProducts db) q2))).
  { apply Forall_forall. intros p Hp.
    apply (Subsequence_In _ _ _ (firstn_Subsequence 2 _)) in Hp.
    unfold find in Hp. apply filter_In in Hp. destruct Hp as [_ Hp].
    apply differentTerm_matches in Hp.
    destruct Hp as (Ht & Hact & _ & Hc & _). auto. }
  assert (HS : forall q : Query,
             Subsequence (limit 2 (find (loanProducts db) q)) (loanProducts db)
             /\ (List.length (limit 2 (find (loanProducts db) q)) <= 2)%nat).
  { intros q. split.
    - eapply Subsequence_trans; [apply firstn_Subsequence|].
      apply filter_Subsequence.
    - apply firstn_le_length. }
  destruct (HS q1) as [S1 L1]. destruct (HS q2) as [S2 L2].
  set (found1 := limit 2 (find (loanProducts db) q1)) in *.
  set (found2 := limit 2 (find (loanProducts db) q2)) in *.
  set (suggest := String.eqb loanType "Personal" && Qle_bool 25000 amount).
  assert (Hsuggest : suggest = true <->
                     loanType = "Personal"%string /\ 25000 <= amount).
  { unfold suggest. now rewrite andb_true_iff, String.eqb_eq, Qle_bool_iff. }
  split; [|split].
  - destruct found1, found2, suggest; cbn [app List.length]; lia.
  - intros products Hin.
    assert (Hcases : (products = found1 /\ found1 <> []) \/
                     (products = found2 /\ found2 <> [])).
    { destruct Hin as [Hin|Hin];
        apply in_app_or in Hin; destruct Hin as [Hin|Hin];
        try (apply in_app_or in Hin; destruct Hin as [Hin|Hin]).
      - destruct found1; [contradiction|].
        destruct Hin as [[= <-]|[]]. left. split; [reflexivity|discriminate].
      - destruct found2; [contradiction|]. destruct Hin as [Hin|[]].
        discriminate.
      - destruct suggest; [|contradiction]. destruct Hin as [Hin|[]].
        discriminate.
      - destruct found1; [contradiction|]. destruct Hin as [Hin|[]].
        discriminate.
      - destruct found2; [contradiction|].
        destruct Hin as [[= <-]|[]]. right. split; [reflexivity|discriminate].
      - destruct suggest; [|contradiction]. destruct Hin as [Hin|[]].
        discriminate. }
    destruct Hcases as [[-> Hne]|[-> Hne]]; auto.
  - rewrite <- Hsuggest. split.
    + intros (title & description & Hin).
      apply in_app_or in Hin. destruct Hin as [Hin|Hin];
        [|apply in_app_or in Hin; destruct Hin as [Hin|Hin]].
      * destruct found1; [contradiction|]. destruct Hin as [Hin|[]].
        discriminate.
      * destruct found2; [contradiction|]. destruct Hin as [Hin|[]].
        discriminate.
      * destruct suggest; [reflexivity | contradiction].
    + intros ->. eexists _, _.
      apply in_or_app. right. apply in_or_app. right. left. reflexivity.
Qed.

Lemma suggestAlternatives_shape_example :
  exists title description,
    In (DifferentLoanType title description)
       (suggestAlternatives bandedRates "Personal" 30000 72 640).
Proof.
  apply (proj2 (proj2 (suggestAlternatives_shape bandedRates "Personal"
                         30000 72 640))).
  split; [reflexivity | discriminate].
Defined.

(** ** The entry point *)

Lemma filter_none {A} (f : A -> bool) (l : list A) :
  (forall x, In x l -> f x = false) -> filter f l = [].
Proof.
  induction l as [|x l IH]; intros H; simpl.
  - reflexivity.
  - rewrite (H x (or_introl eq_refl)). apply IH.
    intros y Hy. apply H. now right.
Qed.

(** X9: when products are eligible but none of them has an observation
    that [getLatestRate] finds, the call still answers [success: true]:
    both option lists are empty, the three recommendations are null, the
    narrative is the could-not-find sentence and there are no insights. *)
Theorem unrated_products_give_an_empty_success (db : Database)
    (rnd : nat -> Q) (params : Params) :
  let score := match creditScore params with Some s => s | None => 700 end in
  let eligibleProducts :=
    getEligibleProducts db (loanType params) (amount params) (term params)
                        score in
  eligibleProducts <> [] ->
  (forall p, In p eligibleProducts -> getLatestRate db (_id p) None = None) ->
  analyzeLoanOptions db rnd params
  = Analysis {| bestOverall := None; lowestRate := None;
                lowestPayment := None; text := [NoSuitableOptions] |}
             [] [] (getEducationalContent (loanType params)) [].
Proof.
  cbv zeta. intros Hne Hnone. unfold analyzeLoanOptions.
  destruct (getEligibleProducts db (loanType params) (amount params)
              (term params)
              match creditScore params with Some s => s | None => 700 end)
    as [|p rest] eqn:He; [now contradiction Hne|].
  assert (Hempty : calculateMetrics db rnd (p :: rest) (amount params)
                                    (term params) = []).
  { apply map_eq_nil with (f := product).
    unfold calculateMetrics. rewrite calculateMetrics_products.
    apply filter_none. intros x Hx. now rewrite (Hnone x Hx). }
  rewrite Hempty. reflexivity.
Qed.

Lemma unrated_products_give_an_empty_success_example :
  success (analyzeLoanOptions mortgageCatalog (fun _ => 0)
             {| loanType := "Mortgage"; amount := 250000; term := 360;
                creditScore := Some 700; preferences := noPreferences |})
  = true.
Proof.
  rewrite (unrated_products_give_an_empty_success mortgageCatalog (fun _ => 0)
             {| loanType := "Mortgage"; amount := 250000; term := 360;
                creditScore := Some 700; preferences := noPreferences |}).
  - reflexivity.
  - discriminate.
  - intros p _. reflexivity.
Defined.

(** X10: leaving [creditScore] out of [params] and passing 700 give the
    same eligible products, options, recommendations and educational
    content, since the filter defaults the score to 700; but
    [generateInsights] reads [params.creditScore] without the default.
    With no option at hand both lists of insights are empty; otherwise the
    two lists are the same rate-trend insight, a credit insight, the same
    term insight and the same special-offers insights, and only the
    credit insight differs: it is the lowest band when the score is left
    out and the "good credit" band when 700 is passed. *)
Theorem omitted_score_is_700_except_in_insights (db : Database)
    (rnd : nat -> Q) (params : Params) :
  match analyzeLoanOptions db rnd (withCreditScore params None),
        analyzeLoanOptions db rnd (withCreditScore params (Some 700)) with
  | NoEligibleProducts m a, NoEligibleProducts m' a' => m = m' /\ a = a'
  | Analysis r top all e i, Analysis r' top' all' e' i' =>
      r = r' /\ top = top' /\ all = all' /\ e = e' /\
      (all = [] -> i = [] /\ i' = []) /\
      (all <> [] ->
       exists rateTrend termImpact specialOffers,
         i = (rateTrend
              :: {| insight_type := "credit_impact";
                    insight_title := "Credit Score Impact";
                    insight_text := CreditImpactText Limiting |}
              :: termImpact :: specialOffers)%list /\
         i' = (rateTrend
               :: {| insight_type := "credit_impact";
                     insight_title := "Credit Score Impact";
                     insight_text := CreditImpactText Good |}
               :: termImpact :: specialOffers)%list /\
         insight_type rateTrend = "rate_trend"%string /\
         insight_type termImpact = "term_impact"%string /\
         Forall (fun x => insight_type x = "special_offers"%string)
                specialOffers)
  | _, _ => False
  end.
Proof.
  unfold analyzeLoanOptions. cbn [withCreditScore creditScore loanType amount
                                   term preferences].
  destruct (getEligibleProducts db (loanType params) (amount params)
              (term params) 700) as [|p rest].
  - split; reflexivity.
  - set (ranked := rankProducts _ _).
    split; [reflexivity|]. split; [reflexivity|]. split; [reflexivity|].
    split; [reflexivity|]. split.
    + intros ->. split; reflexivity.
    + intros Hne. destruct ranked as [|top rest']; [now contradiction Hne|].
      unfold generateInsights.
      cbn [withCreditScore creditScore loanType amount term preferences].
      destruct (getRateTrendText _ _) as [pos trend].
      destruct (getTermImpactText _ _) as [[years band] interest].
      eexists _, _, _. split; [reflexivity|]. split; [reflexivity|].
      split; [reflexivity|]. split; [reflexivity|].
      destruct (findSpecialOffers (top :: rest')); repeat constructor.
Qed.

(** ** Scores *)

Lemma weights_sum_one (preferences : Preferences) :
  w_interestRate (weights preferences) + w_monthlyPayment (weights preferences)
  + w_customerService (weights preferences) + w_flexibility (weights preferences)
  + w_approvalLikelihood (weights preferences) == 1.
Proof. each_preference preferences; reflexivity. Qed.

Lemma ranges_enclose (l : list AnalyzedProduct) (p : AnalyzedProduct)
    (key : Metric) :
  In p l -> Forall finiteMetrics l -> isCostKey key = true ->
  exists lo hi v,
    rangeOfKey (ranges l) key = {| r_min := Fin lo; r_max := Fin hi |} /\
    metric key p = Fin v /\ lo <= v <= hi.
Proof.
  intros Hin Hfin Hk. rewrite ranges_by_key by assumption.
  destruct (rangeFrom_empty_finite (metric key) l p Hin)
    as (lo & hi & Heq & Hle & Hall).
  - eapply Forall_impl; [|exact Hfin]. intros q Hq. apply Hq.
  - rewrite Forall_forall in Hfin. pose proof (Hfin p Hin key) as Hp.
    destruct (metric key p) as [v| | |] eqn:Hv; try contradiction.
    exists lo, hi, v. split; [exact Heq|]. split; [reflexivity|].
    now apply (Hall p v).
Qed.

Lemma cost_score_unit (lo hi v : Q) :
  lo <= v <= hi ->
  exists s, nsub (Fin 1) (normalize (Fin v) (Fin lo) (Fin hi)) = Fin s /\
            0 <= s <= 1 /\
            (lo < hi -> v == lo -> s == 1) /\
            (lo < hi -> v == hi -> s == 0).
Proof.
  intros [Hlo Hhi]. unfold normalize. cbn [strict_eq].
  destruct (Qeq_bool lo hi) eqn:E.
  - apply Qeq_bool_iff in E. exists (1 - 0.5).
    split; [reflexivity|]. split; [split; discriminate|].
    split; intros Hlt; lra.
  - apply Qeq_bool_neq in E.
    assert (Hd : 0 < hi - lo)
      by (destruct (Qlt_le_dec lo hi); [lra|]; exfalso; apply E; lra).
    change (nsub (Fin v) (Fin lo)) with (Fin (v - lo)).
    change (nsub (Fin hi) (Fin lo)) with (Fin (hi - lo)).
    rewrite ndiv_fin by lra.
    exists (1 - (v - lo) / (hi - lo)). split; [reflexivity|].
    assert (H0 : 0 <= (v - lo) / (hi - lo))
      by (apply Qle_shift_div_l; [exact Hd | lra]).
    assert (H1 : (v - lo) / (hi - lo) <= 1)
      by (apply Qle_shift_div_r; [exact Hd | lra]).
    split; [lra|]. split; intros _ Hv.
    + assert ((v - lo) / (hi - lo) == 0); [|lra].
      rewrite Hv. field. lra.
    + assert ((v - lo) / (hi - lo) == 1); [|lra].
      rewrite Hv. field. lra.
Qed.

(** X11: in a list of candidates with finite metrics, a candidate whose
    service, flexibility and approval scores lie in [0,1] gets five scores
    in [0,1] and a total score between 0 and the sum of the five weights.
    That sum is 1 on exact weights; on the binary64 weights, added in key
    order as the total score is, it is at most the float next above 1, so
    the total score of the code can reach 1.0000000000000002 but not
    more. *)
Theorem scores_lie_in_unit_interval (l : list AnalyzedProduct)
    (preferences : Preferences) (p : AnalyzedProduct) :
  Forall finiteMetrics l -> In p l -> benefitsInUnit p ->
  let s := scoreProduct (weights preferences) (ranges l) p in
  let weightSum :=
    w_interestRate (weights preferences) + w_monthlyPayment (weights preferences)
    + w_customerService (weights preferences)
    + w_flexibility (weights preferences)
    + w_approvalLikelihood (weights preferences) in
  (forall key, nle (Fin 0) (score (scores s) key) /\
               nle (score (scores s) key) (Fin 1)) /\
  nle (Fin 0) (totalScore s) /\ nle (totalScore s) (Fin weightSum) /\
  weightSum == 1 /\
  PrimFloat.leb (Binary64.weightSum preferences) Binary64.succ_one = true.
Proof.
  intros Hfin Hin Hben s weightSum.
  assert (Hscore : forall key, exists v, score (scores s) key = Fin v /\
                                         0 <= v <= 1).
  { intros key. unfold s. cbn [scores scoreProduct].
    destruct (isCostKey key) eqn:Hk.
    - rewrite scoresOf_cost by assumption.
      destruct (ranges_enclose l p key Hin Hfin Hk)
        as (lo & hi & v & -> & -> & Hv).
      cbn [r_min r_max].
      destruct (cost_score_unit lo hi v Hv) as (x & Hx & Hx01 & _).
      exists x. auto.
    - rewrite scoresOf_benefit by assumption.
      destruct (Hben key Hk) as [H0 H1].
      rewrite Forall_forall in Hfin. pose proof (Hfin p Hin key) as Hp.
      destruct (metric key p) as [v| | |]; try contradiction.
      exists v. split; [reflexivity|].
      apply nle_fin in H0. apply nle_fin in H1. auto. }
  split; [|split; [|split; [|split]]].
  - intros key. destruct (Hscore key) as (v & -> & Hv).
    split; apply nle_fin; apply Hv.
  - destruct (Hscore InterestRateKey) as (s1 & E1 & H1).
    destruct (Hscore MonthlyPaymentKey) as (s2 & E2 & H2).
    destruct (Hscore CustomerServiceKey) as (s3 & E3 & H3).
    destruct (Hscore FlexibilityKey) as (s4 & E4 & H4).
    destruct (Hscore ApprovalLikelihoodKey) as (s5 & E5 & H5).
    change (totalScore s) with (weightedTotal (weights preferences) (scores s)).
    rewrite (weightedTotal_finite _ _ s1 s2 s3 s4 s5) by assumption.
    pose proof (weights_positive preferences InterestRateKey) as W1.
    pose proof (weights_positive preferences MonthlyPaymentKey) as W2.
    pose proof (weights_positive preferences CustomerServiceKey) as W3.
    pose proof (weights_positive preferences FlexibilityKey) as W4.
    pose proof (weights_positive preferences ApprovalLikelihoodKey) as W5.
    cbn [weight] in *.
    apply nle_fin. nra.
  - destruct (Hscore InterestRateKey) as (s1 & E1 & H1).
    destruct (Hscore MonthlyPaymentKey) as (s2 & E2 & H2).
    destruct (Hscore CustomerServiceKey) as (s3 & E3 & H3).
    destruct (Hscore FlexibilityKey) as (s4 & E4 & H4).
    destruct (Hscore ApprovalLikelihoodKey) as (s5 & E5 & H5).
    change (totalScore s) with (weightedTotal (weights preferences) (scores s)).
    rewrite (weightedTotal_finite _ _ s1 s2 s3 s4 s5) by assumption.
    pose proof (weights_positive preferences InterestRateKey) as W1.
    pose proof (weights_positive preferences MonthlyPaymentKey) as W2.
    pose proof (weights_positive preferences CustomerServiceKey) as W3.
    pose proof (weights_positive preferences FlexibilityKey) as W4.
    pose proof (weights_positive preferences ApprovalLikelihoodKey) as W5.
    cbn [weight] in *. subst weightSum.
    apply nle_fin. nra.
  - apply weights_sum_one.
  - each_preference preferences; vm_compute; reflexivity.
Qed.

Lemma scores_lie_in_unit_interval_example :
  nle (Fin 0)
      (totalScore (scoreProduct (weights noPreferences)
                                (ranges [basicOffer; plusOffer]) plusOffer)).
Proof.
  assert (Hfin : Forall finiteMetrics [basicOffer; plusOffer]).
  { repeat apply Forall_cons; try apply Forall_nil;
      intros []; vm_compute; exact I. }
  assert (Hben : benefitsInUnit plusOffer).
  { intros [] Hk; try discriminate Hk; vm_compute; split; reflexivity. }
  exact (proj1 (proj2
           (scores_lie_in_unit_interval [basicOffer; plusOffer] noPreferences
              plusOffer Hfin (or_intror (or_introl eq_refl)) Hben))).
Defined.

Lemma rangeFrom_attained f l :
  Forall (fun p => is_finite (f p)) l ->
  forall lo hi lo' hi',
    rangeFrom f l {| r_min := Fin lo; r_max := Fin hi |}
    = {| r_min := Fin lo'; r_max := Fin hi' |} ->
    (lo' = lo \/ exists p, In p l /\ f p = Fin lo') /\
    (hi' = hi \/ exists p, In p l /\ f p = Fin hi').
Proof.
  induction 1 as [|p l Hp Hl IH]; intros lo hi lo' hi' Heq.
  - injection Heq as <- <-. auto.
  - destruct (f p) as [q| | |] eqn:Hq; try contradiction.
    assert (Hstep : rangeFrom f (p :: l) {| r_min := Fin lo; r_max := Fin hi |}
                    = rangeFrom f l
                        {| r_min := Fin (if Qle_bool lo q then lo else q);
                           r_max := Fin (if Qle_bool hi q then q else hi) |}).
    { unfold rangeFrom. cbn [fold_left]. f_equal.
      unfold widen. cbn [r_min r_max]. rewrite Hq. cbn [nmin nmax nleb].
      now destruct (Qle_bool lo q), (Qle_bool hi q). }
    rewrite Hstep in Heq. apply IH in Heq.
    destruct Heq as [Hmin Hmax]. split.
    + destruct Hmin as [->|(x & Hx & Hfx)].
      * destruct (Qle_bool lo q); [now left|].
        right. exists p. split; [now left | exact Hq].
      * right. exists x. split; [now right | exact Hfx].
    + destruct Hmax as [->|(x & Hx & Hfx)].
      * destruct (Qle_bool hi q); [|now left].
        right. exists p. split; [now left | exact Hq].
      * right. exists x. split; [now right | exact Hfx].
Qed.

(** X12: among candidates with finite metrics that do not all share the
    value of a cost-type metric, a candidate with the lowest value gets
    the score 1 for it and a candidate with the highest value the
    score 0. *)
Theorem extreme_costs_get_extreme_scores (l : list AnalyzedProduct)
    (key : Metric) (best worst : AnalyzedProduct) (lowest highest : Q) :
  Forall finiteMetrics l -> isCostKey key = true ->
  In best l -> In worst l ->
  metric key best = Fin lowest -> metric key worst = Fin highest ->
  lowest < highest ->
  (forall p v, In p l -> metric key p = Fin v -> lowest <= v <= highest) ->
  num_eq (score (scoresOf (ranges l) best) key) (Fin 1) /\
  num_eq (score (scoresOf (ranges l) worst) key) (Fin 0).
Proof.
  intros Hfin Hk Hbest Hworst Hlow Hhigh Hlt Hall.
  rewrite !scoresOf_cost by assumption.
  rewrite ranges_by_key by assumption.
  assert (Hf : Forall (fun p => is_finite (metric key p)) l).
  { eapply Forall_impl; [|exact Hfin]. intros q Hq. apply Hq. }
  destruct (rangeFrom_empty_finite (metric key) l best Hbest Hf)
    as (lo & hi & Heq & Hle & Henc).
  assert (Hlo : lo == lowest /\ hi == highest).
  { destruct l as [|p0 l0]; [contradiction|].
    rewrite rangeFrom_cons in Heq.
    inversion Hf as [|? ? Hp0 Hf0]; subst.
    destruct (metric key p0) as [q0| | |] eqn:Hq0; try contradiction.
    destruct (rangeFrom_attained (metric key) l0 Hf0 _ _ _ _ Heq)
      as [Hmin Hmax].
    pose proof (Henc best lowest Hbest Hlow) as Hb.
    pose proof (Henc worst highest Hworst Hhigh) as Hw.
    split.
    - destruct Hmin as [->|(x & Hx & Hfx)].
      + pose proof (Hall p0 q0 (or_introl eq_refl) Hq0). lra.
      + pose proof (Hall x lo (or_intror Hx) Hfx). lra.
    - destruct Hmax as [->|(x & Hx & Hfx)].
      + pose proof (Hall p0 q0 (or_introl eq_refl) Hq0). lra.
      + pose proof (Hall x hi (or_intror Hx) Hfx). lra. }
  destruct Hlo as [Hlo Hhi].
  rewrite Heq, Hlow, Hhigh. cbn [r_min r_max].
  destruct (cost_score_unit lo hi lowest) as (s & -> & _ & Hs1 & _); [lra|].
  destruct (cost_score_unit lo hi highest) as (s' & -> & _ & _ & Hs0); [lra|].
  split; simpl.
  - apply Hs1; lra.
  - apply Hs0; lra.
Qed.

Lemma extreme_costs_get_extreme_scores_example :
  num_eq (score (scoresOf (ranges [basicOffer; plusOffer]) plusOffer)
                InterestRateKey) (Fin 1).
Proof.
  assert (Hfin : Forall finiteMetrics [basicOffer; plusOffer]).
  { repeat apply Forall_cons; try apply Forall_nil;
      intros []; vm_compute; exact I. }
  assert (Hall : forall p v, In p [basicOffer; plusOffer] ->
                   metric InterestRateKey p = Fin v -> 4 <= v <= 5).
  { intros p v [<-|[<-|[]]] [= <-]; split; discriminate. }
  exact (proj1
           (extreme_costs_get_extreme_scores [basicOffer; plusOffer]
              InterestRateKey plusOffer basicOffer 4 5 Hfin eq_refl
              (or_intror (or_introl eq_refl)) (or_introl eq_refl)
              eq_refl eq_refl eq_refl Hall)).
Defined.

(** ** Recommendations *)

Lemma insert_by_first {A} (keep : A -> A -> bool) (x : A) (l : list A) :
  (forall y, In y l -> keep x y = true) -> insert_by keep x l = x :: l.
Proof.
  destruct l as [|y l]; intros H; simpl; [reflexivity|].
  now rewrite (H y (or_introl eq_refl)).
Qed.

Lemma insert_by_ext {A} (keep keep' : A -> A -> bool) (x : A) (l : list A) :
  (forall y, In y l -> keep x y = keep' x y) ->
  insert_by keep x l = insert_by keep' x l.
Proof.
  induction l as [|y l IH]; intros H; simpl; [reflexivity|].
  rewrite (H y (or_introl eq_refl)).
  destruct (keep' x y); [reflexivity|].
  f_equal. apply IH. intros z Hz. apply H. now right.
Qed.

Lemma sort_by_ext {A} (keep keep' : A -> A -> bool) (l : list A) :
  (forall x y, In x l -> In y l -> keep x y = keep' x y) ->
  sort_by keep l = sort_by keep' l.
Proof.
  induction l as [|x l IH]; intros H; simpl; [reflexivity|].
  rewrite IH by (intros y z Hy Hz; apply H; now right).
  apply insert_by_ext. intros y Hy. apply H; [now left | right].
  eapply Permutation_in; [apply sort_by_Permutation | exact Hy].
Qed.

Lemma indexed_from_In {A} (l : list A) (start i : nat) (x : A) :
  In (i, x) (combine (seq start (List.length l)) l) <->
  (start <= i)%nat /\ nth_error l (i - start) = Some x.
Proof.
  revert start. induction l as [|y l IH]; intros start; simpl.
  - split; [contradiction|]. intros [_ H]. now destruct (i - start)%nat.
  - rewrite IH. split.
    + intros [[= <- <-]|[Hle Hnth]].
      * split; [lia|]. now rewrite Nat.sub_diag.
      * split; [lia|]. now replace (i - start)%nat with (S (i - S start)) by lia.
    + intros [Hle Hnth].
      destruct (i - start)%nat as [|k] eqn:Ek.
      * left. injection Hnth as ->. f_equal. lia.
      * right. split; [lia|].
        now replace (i - S start)%nat with k by lia.
Qed.

Lemma indexed_In {A} (l : list A) (i : nat) (x : A) :
  In (i, x) (indexed l) <-> nth_error l i = Some x.
Proof.
  unfold indexed. rewrite indexed_from_In, Nat.sub_0_r.
  split; [now intros [_ H] | intros H; split; [lia | exact H]].
Qed.

(** The comparator [(a, b) => key(a) - key(b)] on two finite keys. *)
Lemma keep_ascending (ka kb : Q) :
  negb (nltb (Fin 0) (nsub (Fin ka) (Fin kb))) = true <-> ka <= kb.
Proof.
  cbn [nsub nneg nadd nltb]. unfold Qltb. rewrite negb_involutive.
  rewrite Qle_bool_iff. split; intros H; lra.
Qed.

(** [lowestBy] on a list with finite keys: an entry of the list that no
    entry undercuts. *)
Lemma lowestBy_minimal (key : ScoredProduct -> Num) (l : list ScoredProduct) :
  l <> [] ->
  Forall (fun s => is_finite (key s)) l ->
  exists i x,
    lowestBy key l = Some (i, x) /\ nth_error l i = Some x /\
    forall y, In y l -> nle (key x) (key y).
Proof.
  intros Hne Hfin. unfold lowestBy, js_sort.
  set (keep := fun a b : nat * ScoredProduct =>
                 negb (nltb (Fin 0) (nsub (key (snd a)) (key (snd b))))).
  pose proof (sort_by_Permutation keep (indexed l)) as Hperm.
  assert (Hidx : forall ix, In ix (indexed l) -> is_finite (key (snd ix))).
  { intros [i x] Hix. apply indexed_In in Hix. apply nth_error_In in Hix.
    rewrite Forall_forall in Hfin. now apply Hfin. }
  assert (Hk : forall a b ka kb,
             key (snd a) = Fin ka -> key (snd b) = Fin kb ->
             (keep a b = true <-> ka <= kb)).
  { intros a b ka kb Ha Hb. unfold keep. rewrite Ha, Hb. apply keep_ascending. }
  assert (Hs : StronglySorted (fun a b => keep a b = true)
                              (sort_by keep (indexed l))).
  { apply (sort_by_sorted keep (fun a => is_finite (key (snd a)))).
    - intros a b Pa Pb Hab.
      destruct (key (snd a)) as [ka| | |] eqn:Ea; try contradiction.
      destruct (key (snd b)) as [kb| | |] eqn:Eb; try contradiction.
      apply (Hk b a kb ka Eb Ea).
      destruct (Qlt_le_dec kb ka) as [Hlt|Hle]; [lra|].
      destruct (Qlt_le_dec ka kb) as [Hlt'|Hle']; [|lra].
      apply Qlt_le_weak in Hlt'. apply (Hk a b ka kb Ea Eb) in Hlt'.
      congruence.
    - intros a b c Pa Pb Pc Hab Hbc.
      destruct (key (snd a)) as [ka| | |] eqn:Ea; try contradiction.
      destruct (key (snd b)) as [kb| | |] eqn:Eb; try contradiction.
      destruct (key (snd c)) as [kc| | |] eqn:Ec; try contradiction.
      apply (Hk a b ka kb Ea Eb) in Hab. apply (Hk b c kb kc Eb Ec) in Hbc.
      apply (Hk a c ka kc Ea Ec). lra.
    - apply Forall_forall. exact Hidx. }
  destruct (sort_by keep (indexed l)) as [|[i x] rest] eqn:Hsort.
  - apply Permutation_nil in Hperm.
    destruct l; [now contradiction Hne | discriminate Hperm].
  - exists i, x. split; [reflexivity|].
    assert (Hix : In (i, x) (indexed l)).
    { eapply Permutation_in; [exact Hperm | now left]. }
    split; [now apply indexed_In|].
    intros y Hy. apply In_nth_error in Hy. destruct Hy as [j Hj].
    apply indexed_In in Hj.
    assert (Hj' : In (j, y) ((i, x) :: rest)).
    { eapply Permutation_in; [symmetry; exact Hperm | exact Hj]. }
    pose proof (Hidx _ Hix) as Fx. pose proof (Hidx _ Hj) as Fy.
    cbn [snd] in Fx, Fy.
    destruct (key x) as [kx| | |] eqn:Ex; try contradiction.
    destruct (key y) as [ky| | |] eqn:Ey; try contradiction.
    apply nle_fin.
    destruct (hd_sorted_first _ _ (i, x) Hs eq_refl (j, y) Hj') as [E|Hkeep].
    + injection E as _ ->. rewrite Ex in Ey. injection Ey as ->. lra.
    + now apply (Hk (i, x) (j, y) kx ky Ex Ey).
Qed.

(** X14: [generateRecommendations] on an empty list gives three nulls and
    the could-not-find sentence.  On a non-empty list with finite rates
    and payments, best overall is the first product, lowest rate and
    lowest payment are entries of the list that no entry undercuts on the
    rate and on the payment, and the narrative opens with the two
    sentences about the first product. *)
Theorem generateRecommendations_picks (rankedProducts : list ScoredProduct)
    (params : Params) :
  let r := generateRecommendations rankedProducts params in
  (rankedProducts = [] ->
   r = {| bestOverall := None; lowestRate := None; lowestPayment := None;
          text := [NoSuitableOptions] |}) /\
  (forall top rest,
     rankedProducts = top :: rest ->
     Forall (fun s => is_finite (interestRate (analyzed s)) /\
                      is_finite (monthlyPayment (analyzed s)))
            rankedProducts ->
     bestOverall r = Some top /\
     (exists byRate,
        lowestRate r = Some byRate /\ In byRate rankedProducts /\
        forall s, In s rankedProducts ->
                  nle (interestRate (analyzed byRate))
                      (interestRate (analyzed s))) /\
     (exists byPayment,
        lowestPayment r = Some byPayment /\ In byPayment rankedProducts /\
        forall s, In s rankedProducts ->
                  nle (monthlyPayment (analyzed byPayment))
                      (monthlyPayment (analyzed s))) /\
     firstn 2 (text r)
     = [ WeRecommend (loanType params) (amount params) (term params)
           (inst_name (institution (product (analyzed top))))
           (name (product (analyzed top)));
         CompetitiveRate (interestRate (analyzed top))
                         (monthlyPayment (analyzed top)) ]).
Proof.
  cbv zeta. split.
  - intros ->. reflexivity.
  - intros top rest -> Hfin.
    destruct (lowestBy_minimal (fun s => interestRate (analyzed s))
                (top :: rest)) as (i & x & Hx & Hnth & Hmin);
      [discriminate | eapply Forall_impl; [|exact Hfin]; now intros ? []|].
    destruct (lowestBy_minimal (fun s => monthlyPayment (analyzed s))
                (top :: rest)) as (j & y & Hy & Hnth' & Hmin');
      [discriminate | eapply Forall_impl; [|exact Hfin]; now intros ? []|].
    unfold generateRecommendations. rewrite Hx, Hy.
    split; [reflexivity|]. split; [|split].
    + exists x. split; [reflexivity|].
      split; [now apply nth_error_In in Hnth | exact Hmin].
    + exists y. split; [reflexivity|].
      split; [now apply nth_error_In in Hnth' | exact Hmin'].
    + cbn [text]. destruct (negb (0 =? i)%nat);
        destruct (negb (0 =? j)%nat && negb (i =? j)%nat); reflexivity.
Qed.

Lemma generateRecommendations_picks_example :
  bestOverall
    (generateRecommendations
       (rankProducts [basicOffer; plusOffer] noPreferences)
       {| loanType := "Auto"; amount := 12000; term := 12;
          creditScore := Some 720; preferences := noPreferences |})
  = hd_error (rankProducts [basicOffer; plusOffer] noPreferences).
Proof.
  assert (E : exists top rest,
             rankProducts [basicOffer; plusOffer] noPreferences = top :: rest)
    by (vm_compute; eexists _, _; reflexivity).
  destruct E as (top & rest & E).
  assert (Hfin : Forall (fun s => is_finite (interestRate (analyzed s)) /\
                                  is_finite (monthlyPayment (analyzed s)))
                        (rankProducts [basicOffer; plusOffer] noPreferences))
    by (vm_compute; repeat constructor).
  rewrite E in Hfin |- *.
  exact (proj1 (proj2 (generateRecommendations_picks (top :: rest)
                         {| loanType := "Auto"; amount := 12000; term := 12;
                            creditScore := Some 720;
                            preferences := noPreferences |})
                      top rest eq_refl Hfin)).
Defined.

Lemma lowestBy_some (key : ScoredProduct -> Num) (l : list ScoredProduct) :
  l <> [] ->
  exists i x, lowestBy key l = Some (i, x) /\ nth_error l i = Some x.
Proof.
  intros Hne. unfold lowestBy, js_sort.
  set (keep := fun a b : nat * ScoredProduct => _).
  pose proof (sort_by_Permutation keep (indexed l)) as Hperm.
  destruct (sort_by keep (indexed l)) as [|[i x] rest].
  - apply Permutation_nil in Hperm.
    destruct l; [now contradiction Hne | discriminate Hperm].
  - exists i, x. split; [reflexivity|]. apply indexed_In.
    eapply Permutation_in; [exact Hperm | now left].
Qed.

(** The record [generateRecommendations] builds from the two picks. *)
Lemma generateRecommendations_cons top rest params i x j y :
  lowestBy (fun p => interestRate (analyzed p)) (top :: rest) = Some (i, x) ->
  lowestBy (fun p => monthlyPayment (analyzed p)) (top :: rest) = Some (j, y) ->
  generateRecommendations (top :: rest) params
  = {| bestOverall := Some top; lowestRate := Some x; lowestPayment := Some y;
       text :=
         ([ WeRecommend (loanType params) (amount params) (term params)
              (inst_name (institution (product (analyzed top))))
              (name (product (analyzed top)));
            CompetitiveRate (interestRate (analyzed top))
                            (monthlyPayment (analyzed top)) ]
          ++ (if negb (0 =? i)%nat
              then [ AbsoluteLowestRate (interestRate (analyzed x))
                       (inst_name (institution (product (analyzed x))))
                       (name (product (analyzed x))) ]
              else [])
          ++ (if negb (0 =? j)%nat && negb (i =? j)%nat
              then [ LowestPaymentOffer
                       (inst_name (institution (product (analyzed y))))
                       (name (product (analyzed y)))
                       (monthlyPayment (analyzed y)) ]
              else []))%list |}.
Proof.
  intros Hx Hy. unfold generateRecommendations. rewrite Hx, Hy.
  destruct (negb (0 =? i)%nat), (negb (0 =? j)%nat && negb (i =? j)%nat);
    reflexivity.
Qed.

(** X15: with finite rates, the narrative holds the sentence about the
    absolute lowest rate exactly when some other product has a rate
    strictly below that of the first; when none has, lowest rate is the
    first product itself. *)
Theorem lowest_rate_sentence (top : ScoredProduct) (rest : list ScoredProduct)
    (params : Params) :
  Forall (fun s => is_finite (interestRate (analyzed s))) (top :: rest) ->
  let r := generateRecommendations (top :: rest) params in
  ((exists rate institutionName productName,
      In (AbsoluteLowestRate rate institutionName productName) (text r)) <->
   exists s, In s rest /\
             nlt (interestRate (analyzed s)) (interestRate (analyzed top))) /\
  ((forall s, In s rest ->
              nle (interestRate (analyzed top)) (interestRate (analyzed s))) ->
   lowestRate r = Some top).
Proof.
  intros Hfin r.
  set (key := fun s : ScoredProduct => interestRate (analyzed s)).
  destruct (lowestBy_minimal key (top :: rest)) as (i & x & Hx & Hnth & Hmin);
    [discriminate | exact Hfin |].
  destruct (lowestBy_some (fun p => monthlyPayment (analyzed p)) (top :: rest))
    as (j & y & Hy & _); [discriminate|].
  assert (Hr : r = _) by (apply (generateRecommendations_cons _ _ _ _ _ _ _ Hx Hy)).
  rewrite Forall_forall in Hfin.
  assert (Hzero : (forall s, In s rest -> nle (key top) (key s)) ->
                  i = 0%nat /\ x = top).
  { intros Hle.
    assert (E : lowestBy key (top :: rest) = Some (0%nat, top)).
    { unfold lowestBy, js_sort, indexed.
      cbn [List.length seq combine sort_by fold_right].
      rewrite insert_by_first; [reflexivity|].
      intros [k z] Hz.
      eapply Permutation_in in Hz; [|apply sort_by_Permutation].
      apply in_combine_r in Hz. cbn [snd].
      pose proof (Hfin top (or_introl eq_refl)) as Ft.
      pose proof (Hfin z (or_intror Hz)) as Fz.
      pose proof (Hle z Hz) as Htz. cbv beta in Ft, Fz. fold (key top) in Ft.
      fold (key z) in Fz.
      destruct (key top) as [kt| | |]; try contradiction.
      destruct (key z) as [kz| | |]; try contradiction.
      apply keep_ascending. now apply nle_fin. }
    rewrite E in Hx. now injection Hx as <- <-. }
  assert (Hlower : (exists s, In s rest /\ nlt (key s) (key top)) ->
                   i <> 0%nat).
  { intros (s & Hs & Hlt) ->. cbn [nth_error] in Hnth. injection Hnth as <-.
    pose proof (Hmin s (or_intror Hs)) as Hle.
    pose proof (Hfin top (or_introl eq_refl)) as Ft.
    pose proof (Hfin s (or_intror Hs)) as Fs. cbv beta in Ft, Fs.
    fold (key top) in Ft. fold (key s) in Fs.
    destruct (key top) as [kt| | |]; try contradiction.
    destruct (key s) as [ks| | |]; try contradiction.
    apply nle_fin in Hle. apply nlt_fin in Hlt. lra. }
  assert (Hdec : (forall s, In s rest -> nle (key top) (key s)) \/
                 exists s, In s rest /\ nlt (key s) (key top)).
  { pose proof (Hfin top (or_introl eq_refl)) as Ft. cbv beta in Ft.
    fold (key top) in Ft.
    assert (Fr : forall s, In s rest -> is_finite (key s))
      by (intros s Hs; apply (Hfin s (or_intror Hs))).
    clear -Ft Fr.
    destruct (key top) as [kt| | |]; try contradiction.
    induction rest as [|z rest IH]; [left; intros s []|].
    pose proof (Fr z (or_introl eq_refl)) as Fz.
    destruct (key z) as [kz| | |] eqn:Ez; try contradiction.
    destruct (Qlt_le_dec kz kt) as [Hlt|Hle].
    - right. exists z. split; [now left|]. rewrite Ez. now apply nlt_fin.
    - destruct IH as [IH|(s & Hs & Hlt)].
      + intros s Hs. apply Fr. now right.
      + left. intros s [<-|Hs]; [rewrite Ez; now apply nle_fin | now apply IH].
      + right. exists s. split; [now right | exact Hlt]. }
  split.
  - rewrite Hr. cbn [text]. split.
    + intros (rate & n1 & n2 & Hin).
      destruct Hdec as [Hle|Hex]; [|exact Hex]. exfalso.
      destruct (Hzero Hle) as [-> _].
      destruct (negb (0 =? j)%nat);
        cbn [Nat.eqb negb andb app In] in Hin;
        repeat (destruct Hin as [Hin|Hin]; try discriminate Hin);
        contradiction.
    + intros Hex. pose proof (Hlower Hex) as Hi.
      apply Nat.eqb_neq in Hi. rewrite Nat.eqb_sym in Hi. rewrite Hi.
      eexists _, _, _. cbn [negb app In]. right. right. left. reflexivity.
  - intros Hle. rewrite Hr. cbn [lowestRate].
    now destruct (Hzero Hle) as [_ ->].
Qed.

Lemma lowest_rate_sentence_example :
  exists rate institutionName productName,
    In (AbsoluteLowestRate rate institutionName productName)
       (text (generateRecommendations
                [scoredOffer "Basic" 5 1027 (3 # 5);
                 scoredOffer "Plus" 4 1022 (1 # 2)]
                {| loanType := "Auto"; amount := 12000; term := 12;
                   creditScore := Some 720; preferences := noPreferences |})).
Proof.
  apply (proj1 (lowest_rate_sentence (scoredOffer "Basic" 5 1027 (3 # 5))
                  [scoredOffer "Plus" 4 1022 (1 # 2)]
                  {| loanType := "Auto"; amount := 12000; term := 12;
                     creditScore := Some 720; preferences := noPreferences |}
                  ltac:(repeat constructor))).
  eexists. split; [left; reflexivity | reflexivity].
Defined.

(** ** Insights *)

Lemma existsb_eqb_In (x : string) (s : list string) :
  existsb (String.eqb x) s = true <-> In x s.
Proof.
  rewrite existsb_exists. split.
  - intros (y & Hy & E). apply String.eqb_eq in E. now subst.
  - intros H. exists x. split; [exact H | apply String.eqb_refl].
Qed.

Lemma set_add_In (s : list string) (x y : string) :
  In y (set_add s x) <-> In y s \/ y = x.
Proof.
  unfold set_add. destruct (existsb (String.eqb x) s) eqn:E.
  - apply existsb_eqb_In in E. split; [now left|].
    intros [H| ->]; assumption.
  - rewrite in_app_iff. cbn [In]. split; intros [H|H]; auto.
    + destruct H as [->|[]]. now right.
Qed.

Lemma set_add_NoDup (s : list string) (x : string) :
  NoDup s -> NoDup (set_add s x).
Proof.
  intros Hs. unfold set_add. destruct (existsb (String.eqb x) s) eqn:E.
  - exact Hs.
  - apply NoDup_app; [exact Hs | repeat constructor; intros [] |].
    intros y Hy [<-|[]].
    apply existsb_eqb_In in Hy. congruence.
Qed.

Lemma fold_set_add (l s : list string) :
  (forall y, In y (fold_left set_add l s) <-> In y s \/ In y l) /\
  (NoDup s -> NoDup (fold_left set_add l s)).
Proof.
  revert s. induction l as [|x l IH]; intros s; cbn [fold_left].
  - split; [|auto]. intros y. cbn [In]. tauto.
  - destruct (IH (set_add s x)) as [HIn HND]. split.
    + intros y. rewrite HIn, set_add_In. cbn [In]. split.
      * intros [[H|H]|H]; auto.
      * intros [H|[H|H]]; auto.
    + intros Hs. apply HND. now apply set_add_NoDup.
Qed.

(** The set [findSpecialOffers] collects: the perks of the candidates,
    each once. *)
Lemma uniquePerks_spec (products : list ScoredProduct) (s : list string) :
  let collected :=
    fold_left (fun s p => fold_left set_add (perks (product (analyzed p))) s)
              products s in
  (forall y, In y collected <->
             In y s \/ exists p, In p products /\
                                 In y (perks (product (analyzed p)))) /\
  (NoDup s -> NoDup collected).
Proof.
  cbv zeta. revert s. induction products as [|p l IH]; intros s;
    cbn [fold_left].
  - split; [|auto]. intros y. split; [now left|].
    intros [H|(p & [] & _)]. exact H.
  - destruct (IH (fold_left set_add (perks (product (analyzed p))) s))
      as [HIn HND].
    destruct (fold_set_add (perks (product (analyzed p))) s) as [HIn' HND'].
    split.
    + intros y. rewrite HIn, HIn'. split.
      * intros [[H|H]|(q & Hq & Hy)]; auto.
        -- right. exists p. split; [now left | exact H].
        -- right. exists q. split; [now right | exact Hy].
      * intros [H|(q & [<-|Hq] & Hy)]; auto.
        right. now exists q.
    + intros Hs. apply HND. now apply HND'.
Qed.

Lemma firstn_incl {A} (n : nat) (l : list A) (x : A) :
  In x (firstn n l) -> In x l.
Proof.
  revert n. induction l as [|y l IH]; intros [|n]; cbn [firstn In]; try tauto.
  intros [H|H]; [now left | right; now apply (IH n)].
Qed.

Lemma firstn_NoDup {A} (n : nat) (l : list A) :
  NoDup l -> NoDup (firstn n l).
Proof.
  revert n. induction l as [|y l IH]; intros [|n] Hl; cbn [firstn];
    try constructor.
  - inversion Hl; subst. intros Hin. apply firstn_incl in Hin. contradiction.
  - inversion Hl; subst. now apply IH.
Qed.

Lemma findSpecialOffers_None_iff (products : list ScoredProduct) :
  findSpecialOffers products = None <->
  forall p, In p products -> perks (product (analyzed p)) = [].
Proof.
  destruct (uniquePerks_spec products []) as [HIn _]. cbv zeta in HIn.
  unfold findSpecialOffers.
  destruct (fold_left _ products []) as [|x collected].
  - split; [|reflexivity]. intros _ p Hp.
    destruct (perks (product (analyzed p))) as [|y l] eqn:Ep; [reflexivity|].
    exfalso. apply (proj2 (HIn y)). right. exists p. split; [exact Hp|].
    rewrite Ep. now left.
  - split; [discriminate|]. intros Hnone. exfalso.
    destruct (proj1 (HIn x) (or_introl eq_refl)) as [[]|(p & Hp & Hx)].
    rewrite (Hnone p Hp) in Hx. contradiction.
Qed.

(** X17: [findSpecialOffers] returns null exactly when no candidate has a
    perk; otherwise it lists one to three perks, pairwise distinct, each a
    perk of some candidate. *)
Theorem findSpecialOffers_lists_distinct_perks
    (products : list ScoredProduct) :
  (findSpecialOffers products = None <->
   forall p, In p products -> perks (product (analyzed p)) = []) /\
  (forall offers,
     findSpecialOffers products = Some offers ->
     offers <> [] /\ (List.length offers <= 3)%nat /\ NoDup offers /\
     forall perk, In perk offers ->
                  exists p, In p products /\
                            In perk (perks (product (analyzed p)))).
Proof.
  split; [apply findSpecialOffers_None_iff|].
  destruct (uniquePerks_spec products []) as [HIn HND]. cbv zeta in HIn, HND.
  unfold findSpecialOffers.
  destruct (fold_left _ products []) as [|x collected]; [discriminate|].
  intros offers Heq.
  assert (Eo : offers = firstn 3 (x :: collected)) by congruence.
  rewrite Eo. clear Heq Eo.
  split; [discriminate|].
  split; [apply firstn_le_length|]. split.
  - apply firstn_NoDup, HND. constructor.
  - intros perk Hperk. apply firstn_incl in Hperk.
    destruct (proj1 (HIn perk) Hperk) as [[]|H]. exact H.
Qed.

Lemma findSpecialOffers_lists_distinct_perks_example :
  exists offers,
    findSpecialOffers [scoreProduct (weights noPreferences)
                         (ranges [plusOffer; selectOffer]) plusOffer;
                       scoreProduct (weights noPreferences)
                         (ranges [plusOffer; selectOffer]) selectOffer]
    = Some offers /\ NoDup offers.
Proof.
  eexists. split; [reflexivity|].
  apply (proj2 (findSpecialOffers_lists_distinct_perks
                  [scoreProduct (weights noPreferences)
                     (ranges [plusOffer; selectOffer]) plusOffer;
                   scoreProduct (weights noPreferences)
                     (ranges [plusOffer; selectOffer]) selectOffer])
               ["No prepayment penalty"%string] eq_refl).
Defined.

(** X18: [generateInsights] returns nothing for an empty list; for a
    non-empty list it returns the rate-trend, credit-impact and
    term-impact insights in this order, the last citing the total interest
    of the first product, followed by a special-offers insight exactly
    when some candidate has a perk. *)
Theorem generateInsights_shape (rankedProducts : list ScoredProduct)
    (params : Params) :
  (rankedProducts = [] -> generateInsights rankedProducts params = []) /\
  (forall top rest,
     rankedProducts = top :: rest ->
     let insights := generateInsights rankedProducts params in
     firstn 3 (map insight_type insights)
       = ["rate_trend"; "credit_impact"; "term_impact"]%string /\
     (exists band,
        nth_error insights 2
        = Some {| insight_type := "term_impact";
                  insight_title := "Loan Term Consideration";
                  insight_text :=
                    TermImpactText (inject_Z (term params) / 12) band
                                   (totalInterest (analyzed top)) |}) /\
     ((forall p, In p rankedProducts -> perks (product (analyzed p)) = []) ->
      List.length insights = 3%nat) /\
     ((exists p, In p rankedProducts /\ perks (product (analyzed p)) <> []) ->
      map insight_type insights
      = ["rate_trend"; "credit_impact"; "term_impact";
         "special_offers"]%string)).
Proof.
  split; [intros ->; reflexivity|].
  intros top rest -> insights. subst insights. unfold generateInsights.
  destruct (getRateTrendText _ _) as [pos trend].
  assert (Hterm : exists band,
             getTermImpactText (term params) top
             = (inject_Z (term params) / 12, band,
                totalInterest (analyzed top))).
  { unfold getTermImpactText.
    destruct (term params <=? 36)%Z; [eexists; reflexivity|].
    destruct (term params <=? 60)%Z; eexists; reflexivity. }
  destruct Hterm as (band & ->).
  split; [reflexivity|]. split; [exists band; reflexivity|].
  pose proof (findSpecialOffers_None_iff (top :: rest)) as Hnone.
  destruct (findSpecialOffers (top :: rest)) as [offers|].
  - split.
    + intros Hno. apply Hnone in Hno. discriminate Hno.
    + intros _. reflexivity.
  - split.
    + intros _. reflexivity.
    + intros (p & Hp & Hperk). exfalso. apply Hperk.
      now apply (proj1 Hnone eq_refl).
Qed.

(* ================================================================== *)
(** * Further properties of the rate tracker and the frontend *)
(* ================================================================== *)

(** ** Rate tracker: storing a feed *)

Import RateTrackerIngest.

Lemma findLoanProduct_products (db db' : Database) rateInfo :
  loanProducts db' = loanProducts db ->
  findLoanProduct db' rateInfo = findLoanProduct db rateInfo.
Proof. unfold findLoanProduct. now intros ->. Qed.

Lemma findLoanProduct_some (db : Database) rateInfo p :
  findLoanProduct db rateInfo = Some p ->
  In p (loanProducts db) /\ name p = ri_productName rateInfo
  /\ type p = ri_loanType rateInfo.
Proof.
  unfold findLoanProduct, find. intros H.
  assert (Hin : In p (filter
     (matches {| where_ := [ ("name"%string, Eq (VStr (ri_productName rateInfo)));
                             ("type"%string, Eq (VStr (ri_loanType rateInfo))) ];
                 or_ := None |}) (loanProducts db))).
  { destruct (filter _ _) as [|x l]; [discriminate|].
    simpl in H. injection H as ->. now left. }
  apply filter_In in Hin. destruct Hin as [Hin Hm].
  split; [exact Hin|].
  unfold matches, matches_filter in Hm. cbn in Hm.
  rewrite !andb_true_r in Hm. apply andb_prop in Hm. destruct Hm as [Hn Ht].
  apply String.eqb_eq in Hn, Ht. now split.
Qed.

Lemma processData_spec (timestamp : Z) (data : list RateInfo)
    (db0 db : Database) (processed : list InterestRate) :
  loanProducts db = loanProducts db0 ->
  let st := processData timestamp data (db, processed) in
  let added := flat_map (savedFor db0 timestamp) data in
  loanProducts (fst st) = loanProducts db0 /\
  interestRates (fst st) = (interestRates db ++ added)%list /\
  snd st = (processed ++ added)%list.
Proof.
  revert db processed. induction data as [|ri rest IH]; intros db processed Hp.
  - cbn. rewrite !app_nil_r. auto.
  - cbn [processData flat_map].
    rewrite (findLoanProduct_products db0 db ri Hp).
    assert (Hs : savedFor db0 timestamp ri
                 = match findLoanProduct db0 ri with
                   | Some p => [newRate p timestamp ri]
                   | None => []
                   end) by reflexivity.
    rewrite Hs. clear Hs.
    destruct (findLoanProduct db0 ri) as [p|].
    + specialize (IH {| loanProducts := loanProducts db;
                        interestRates := (interestRates db ++ [newRate p timestamp ri])%list |}
                     (processed ++ [newRate p timestamp ri])%list Hp).
      cbn zeta in IH. destruct IH as (H1 & H2 & H3).
      split; [exact H1|]. cbn [interestRates] in H2.
      rewrite H2, H3, <- !app_assoc. auto.
    + apply (IH db processed Hp).
Qed.

Lemma processResults_spec (results : list FetchResult)
    (db0 db : Database) (processed : list InterestRate) :
  loanProducts db = loanProducts db0 ->
  let st := processResults results (db, processed) in
  let added := flat_map (savedFrom db0) results in
  loanProducts (fst st) = loanProducts db0 /\
  interestRates (fst st) = (interestRates db ++ added)%list /\
  snd st = (processed ++ added)%list.
Proof.
  revert db processed. induction results as [|res rest IH]; intros db processed Hp.
  - cbn. rewrite !app_nil_r. auto.
  - cbn [processResults flat_map].
    pose proof (processData_spec (timestamp res) (data res) db0 db processed Hp)
      as (H1 & H2 & H3).
    destruct (processData (timestamp res) (data res) (db, processed))
      as [db1 processed1]. cbn [fst snd] in H1, H2, H3.
    pose proof (IH db1 processed1 H1) as (K1 & K2 & K3).
    split; [exact K1|]. rewrite K2, K3, H2, H3, <- !app_assoc.
    unfold savedFrom at 3 5. auto.
Qed.

Lemma savedFor_In (db : Database) (timestamp : Z) rateInfo r :
  In r (savedFor db timestamp rateInfo) ->
  exists p, In p (loanProducts db) /\ name p = ri_productName rateInfo /\
            type p = ri_loanType rateInfo /\ r = newRate p timestamp rateInfo.
Proof.
  unfold savedFor. destruct (findLoanProduct db rateInfo) as [p|] eqn:E;
    [|intros []].
  intros [<-|[]]. exists p. apply findLoanProduct_some in E.
  destruct E as (H1 & H2 & H3). auto.
Qed.

Lemma savedFor_length (db : Database) (timestamp : Z) rateInfo :
  (List.length (savedFor db timestamp rateInfo) <= 1)%nat.
Proof. unfold savedFor. destruct (findLoanProduct db rateInfo); simpl; lia. Qed.

Lemma flat_map_length_le {A B} (f : A -> list B) (l : list A) :
  (forall a, List.length (f a) <= 1)%nat ->
  (List.length (flat_map f l) <= List.length l)%nat.
Proof.
  intros H. induction l as [|a l IH]; simpl; [lia|].
  rewrite length_app. specialize (H a). lia.
Qed.

(** X20: [processRates] only appends.  It leaves the loan products as they
    are and adds the records it returns at the end of the interest rates,
    in the order of the feed: one record for each entry whose name and type
    are those of a stored product, none for the other entries.  A record
    added refers to such a product, carries the date of its source and the
    rate of its entry, and has both bounds of its score range set. *)
Theorem processRates_appends (db : Database) (results : list FetchResult) :
  let db' := fst (processRates db results) in
  let processed := snd (processRates db results) in
  loanProducts db' = loanProducts db /\
  interestRates db' = (interestRates db ++ processed)%list /\
  processed = flat_map (savedFrom db) results /\
  (forall r, In r processed ->
     exists result rateInfo p,
       In result results /\ In rateInfo (data result) /\
       In p (loanProducts db) /\
       name p = ri_productName rateInfo /\ type p = ri_loanType rateInfo /\
       loanProduct r = _id p /\ date r = timestamp result /\
       rate r = ri_interestRate rateInfo /\
       exists lo hi, creditScoreRange r = rangeOf lo hi) /\
  (List.length processed
   <= list_sum (map (fun result => List.length (data result)) results))%nat.
Proof.
  intros db' processed.
  pose proof (processResults_spec results db db [] eq_refl) as (H1 & H2 & H3).
  fold (processRates db results) in H1, H2, H3. cbn [app] in H3.
  fold db' in H1, H2. fold processed in H3.
  split; [exact H1|]. split; [now rewrite H2, H3|]. split; [exact H3|].
  split.
  - intros r Hr. rewrite H3 in Hr. apply in_flat_map in Hr.
    destruct Hr as (res & Hres & Hr). unfold savedFrom in Hr.
    apply in_flat_map in Hr. destruct Hr as (ri & Hri & Hr).
    apply savedFor_In in Hr. destruct Hr as (p & Hp & Hn & Ht & ->).
    exists res, ri, p. repeat (split; [assumption || reflexivity|]).
    cbn. eexists _, _. reflexivity.
  - rewrite H3. clear. induction results as [|res rest IH]; simpl; [lia|].
    rewrite length_app.
    pose proof (flat_map_length_le (savedFor db (timestamp res)) (data res)
                  (savedFor_length db (timestamp res))).
    unfold savedFrom at 1. lia.
Qed.

(** ** Rate tracker: ingesting a feed and looking the rate up *)

Lemma sort_desc_newest {D} (key : D -> Z) (l : list D) (x : D) :
  (forall y, In y l -> (key y < key x)%Z) ->
  sort_desc key (l ++ [x]) = x :: sort_desc key l.
Proof.
  unfold sort_desc, sort_by. induction l as [|y l IH]; intros H.
  - reflexivity.
  - cbn [app fold_right]. rewrite IH by (intros z Hz; apply H; now right).
    cbn [insert_by].
    assert (Hy : (key y < key x)%Z) by (apply H; now left).
    destruct (Z.leb_spec (key x) (key y)); [lia | reflexivity].
Qed.

Lemma newRate_applicable p timestamp rateInfo (id : nat) (s : Q) :
  applicable id s (newRate p timestamp rateInfo) <->
  _id p = id /\ or_default (ri_minCreditScore rateInfo) 0 <= s
  /\ s <= or_default (ri_maxCreditScore rateInfo) 850.
Proof.
  unfold applicable. cbn. split.
  - intros (H1 & (lo & Hlo & H2) & (hi & Hhi & H3)).
    injection Hlo as <-. injection Hhi as <-. auto.
  - intros (H1 & H2 & H3). split; [exact H1|]. split; eexists; eauto.
Qed.

Lemma processRates_singleEntry (db : Database) timestamp rateInfo p :
  findLoanProduct db rateInfo = Some p ->
  interestRates (fst (processRates db (singleEntry timestamp rateInfo)))
  = (interestRates db ++ [newRate p timestamp rateInfo])%list.
Proof.
  intros H. unfold processRates, singleEntry. cbn. rewrite H. reflexivity.
Qed.

(** X21: a rate ingested from a feed is what [getLatestRate] returns
    afterwards exactly for the scores of its range.  When a feed holds one
    entry, of a known product, and carries a date later than every stored
    observation, then after [processRates] the lookup of that product
    returns the new record for a score between [minCreditScore || 0] and
    [maxCreditScore || 850], and what it returned before for any other
    score; lookups of other products are unchanged. *)
Theorem ingested_rate_is_latest_in_its_range (db : Database) (timestamp : Z)
    (rateInfo : RateInfo) (p : LoanProduct) (creditScore : option Q) :
  findLoanProduct db rateInfo = Some p ->
  (forall r, In r (interestRates db) -> (date r < timestamp)%Z) ->
  let db' := fst (processRates db (singleEntry timestamp rateInfo)) in
  let score := match creditScore with Some s => s | None => 720 end in
  let lo := or_default (ri_minCreditScore rateInfo) 0 in
  let hi := or_default (ri_maxCreditScore rateInfo) 850 in
  (lo <= score /\ score <= hi ->
   getLatestRate db' (_id p) creditScore
   = Some (newRate p timestamp rateInfo)) /\
  (~ (lo <= score /\ score <= hi) ->
   getLatestRate db' (_id p) creditScore
   = getLatestRate db (_id p) creditScore) /\
  (forall id, id <> _id p ->
   getLatestRate db' id creditScore = getLatestRate db id creditScore).
Proof.
  intros Hp Hnew db' score lo hi.
  assert (Hrates : interestRates db'
                   = (interestRates db ++ [newRate p timestamp rateInfo])%list)
    by (apply processRates_singleEntry; exact Hp).
  assert (Hget : forall id,
    getLatestRate db' id creditScore
    = if matches {| where_ := [ ("loanProduct", Eq (VId id));
                                ("creditScoreRange.min", Lte score);
                                ("creditScoreRange.max", Gte score) ]%string;
                    or_ := None |} (newRate p timestamp rateInfo)
      then Some (newRate p timestamp rateInfo)
      else getLatestRate db id creditScore).
  { intros id. unfold getLatestRate, findOne_sorted_desc, find.
    fold score. rewrite Hrates, filter_app. cbn [filter].
    destruct (matches _ (newRate p timestamp rateInfo)).
    - rewrite sort_desc_newest; [reflexivity|].
      intros y Hy. apply filter_In in Hy. cbn [date newRate].
      apply Hnew. tauto.
    - now rewrite app_nil_r. }
  split; [|split].
  - intros Hin. rewrite Hget.
    destruct (matches _ (newRate p timestamp rateInfo)) eqn:E; [reflexivity|].
    assert (Ha : applicable (_id p) score (newRate p timestamp rateInfo))
      by (apply newRate_applicable; tauto).
    apply applicable_matches in Ha. congruence.
  - intros Hout. rewrite Hget.
    destruct (matches _ (newRate p timestamp rateInfo)) eqn:E; [|reflexivity].
    apply applicable_matches, newRate_applicable in E. tauto.
  - intros id Hid. rewrite Hget.
    destruct (matches _ (newRate p timestamp rateInfo)) eqn:E; [|reflexivity].
    apply applicable_matches, newRate_applicable in E.
    destruct E as [E _]. congruence.
Qed.

Lemma ingested_rate_is_latest_in_its_range_example :
  getLatestRate (fst (processRates bandedRates (singleEntry 20240401 premiumEntry)))
                1 (Some 760)
  = Some (newRate (personalProduct 1 "Steady") 20240401 premiumEntry)
  /\ getLatestRate (fst (processRates bandedRates (singleEntry 20240401 premiumEntry)))
                   1 None
     = getLatestRate bandedRates 1 None.
Proof.
  assert (Hp : findLoanProduct bandedRates premiumEntry
               = Some (personalProduct 1 "Steady")) by reflexivity.
  assert (Hnew : forall r, In r (interestRates bandedRates) ->
                           (date r < 20240401)%Z).
  { intros r Hr. cbn in Hr.
    destruct Hr as [<-|[<-|[<-|[]]]]; cbn; lia. }
  pose proof (ingested_rate_is_latest_in_its_range bandedRates 20240401
                premiumEntry _ (Some 760) Hp Hnew) as H1.
  pose proof (ingested_rate_is_latest_in_its_range bandedRates 20240401
                premiumEntry _ None Hp Hnew) as H2.
  cbv zeta in H1, H2. split.
  - apply (proj1 H1). split; vm_compute; discriminate.
  - apply (proj1 (proj2 H2)). intros [H _]. vm_compute in H. now apply H.
Defined.

(** ** Rate tracker: the mock feed *)

Lemma Qfloor_bounds (x : Q) (lo hi : Z) :
  inject_Z lo <= x -> x <= inject_Z hi ->
  (lo <= Qfloor (x + (1 # 2)) <= hi)%Z.
Proof.
  intros Hlo Hhi.
  pose proof (Qfloor_le (x + (1 # 2))) as H1.
  pose proof (Qlt_floor (x + (1 # 2))) as H2.
  split.
  - assert (H : inject_Z lo < inject_Z (Qfloor (x + (1 # 2)) + 1)) by lra.
    rewrite <- Zlt_Qlt in H. lia.
  - assert (H : inject_Z (Qfloor (x + (1 # 2))) < inject_Z (hi + 1)).
    { rewrite inject_Z_plus. change (inject_Z 1) with 1. lra. }
    rewrite <- Zlt_Qlt in H. lia.
Qed.

Lemma hundredths (z : Z) : z # 100 == inject_Z z * (1 # 100).
Proof. unfold Qeq. simpl. lia. Qed.

(** Rounding to two decimals keeps a non-negative number between two
    bounds that have two decimals themselves. *)
Lemma toFixed2_between (x : Q) (lo hi : Z) :
  (0 <= lo)%Z -> lo # 100 <= x -> x <= hi # 100 ->
  lo # 100 <= NumberFormat.toFixed2 x
  /\ NumberFormat.toFixed2 x <= hi # 100
  /\ exists n : Z, NumberFormat.toFixed2 x = n # 100.
Proof.
  intros H0 Hlo Hhi. unfold NumberFormat.toFixed2.
  rewrite (Zle_Qle 0) in H0. change (inject_Z 0) with 0 in H0.
  rewrite (hundredths lo) in Hlo. rewrite (hundredths hi) in Hhi.
  assert (H1 : inject_Z lo <= x * 100) by lra.
  assert (H2 : x * 100 <= inject_Z hi) by lra.
  assert (Hx : 0 <= x) by lra.
  apply Qle_bool_iff in Hx. rewrite Hx.
  destruct (Qfloor_bounds (x * 100) lo hi H1 H2) as [F1 F2].
  set (f := Qfloor (x * 100 + (1 # 2))) in *.
  rewrite Zle_Qle in F1, F2.
  split; [|split].
  - rewrite (hundredths lo), (hundredths f). lra.
  - rewrite (hundredths hi), (hundredths f). lra.
  - exists f. reflexivity.
Qed.

Ltac round_in_case :=
  match goal with
  | |- context [NumberFormat.toFixed2 (?b + ?v + ?d)] =>
      let lo := eval vm_compute in (Qfloor ((b + v - 0.1) * 100)) in
      let hi := eval vm_compute in (Qfloor ((b + v + 0.1) * 100)) in
      destruct (toFixed2_between (b + v + d) lo hi) as (B1 & B2 & B3);
      [lia | lra | lra | ]
  end.

Lemma mock_entry_ok (sourceName loanType suffix : string) (u : Q) :
  In loanType loanTypes -> In suffix productSuffixes -> 0 <= u -> u < 1 ->
  let rateInfo :=
    {| ri_productName := (sourceName ++ " " ++ loanType ++ " " ++ suffix)%string;
       ri_loanType := loanType;
       ri_interestRate :=
         NumberFormat.toFixed2
           (getBaseRateForType loanType + variationFactor suffix
            + (u * 0.2 - 0.1));
       ri_termMonths := getDefaultTermForType loanType;
       ri_minCreditScore := Some (getMinCreditScoreForProduct suffix);
       ri_maxCreditScore := None |} in
  mockEntry sourceName loanType suffix rateInfo /\
  3.85 <= ri_interestRate rateInfo /\ ri_interestRate rateInfo <= 8.8 /\
  620 <= getMinCreditScoreForProduct suffix /\
  getMinCreditScoreForProduct suffix <= 740.
Proof.
  intros Ht Hs H0 H1. unfold mockEntry. cbn [ri_productName ri_loanType
    ri_interestRate ri_termMonths ri_minCreditScore ri_maxCreditScore].
  assert (Hcases :
    getBaseRateForType loanType + variationFactor suffix - 0.1
    <= NumberFormat.toFixed2 (getBaseRateForType loanType
                              + variationFactor suffix + (u * 0.2 - 0.1))
    /\ NumberFormat.toFixed2 (getBaseRateForType loanType
                              + variationFactor suffix + (u * 0.2 - 0.1))
       <= getBaseRateForType loanType + variationFactor suffix + 0.1
    /\ (exists n : Z,
          NumberFormat.toFixed2 (getBaseRateForType loanType
                                 + variationFactor suffix + (u * 0.2 - 0.1))
          = n # 100)
    /\ 3.95 <= getBaseRateForType loanType + variationFactor suffix
    /\ getBaseRateForType loanType + variationFactor suffix <= 8.7
    /\ 620 <= getMinCreditScoreForProduct suffix
    /\ getMinCreditScoreForProduct suffix <= 740).
  { cbn in Ht, Hs.
    destruct Ht as [<-|[<-|[<-|[<-|[<-|[]]]]]];
    destruct Hs as [<-|[<-|[<-|[<-|[<-|[]]]]]];
    cbn [getBaseRateForType variationFactor getMinCreditScoreForProduct
         String.eqb Ascii.eqb Bool.eqb];
    round_in_case;
    (split; [lra|]); (split; [lra|]); (split; [exact B3|]);
    repeat split; vm_compute; discriminate. }
  destruct Hcases as (C1 & C2 & C3 & C4 & C5 & C6 & C7).
  repeat split; try assumption; try reflexivity; lra.
Qed.

Lemma mockRates_from_spec (sourceName : string) (rnd : nat -> Q)
    (P : RateInfo -> Prop) (pairs : list (string * string)) :
  (forall loanType suffix u,
     In (loanType, suffix) pairs -> 0 <= u -> u < 1 ->
     P {| ri_productName := (sourceName ++ " " ++ loanType ++ " " ++ suffix)%string;
          ri_loanType := loanType;
          ri_interestRate :=
            NumberFormat.toFixed2
              (getBaseRateForType loanType + variationFactor suffix
               + (u * 0.2 - 0.1));
          ri_termMonths := getDefaultTermForType loanType;
          ri_minCreditScore := Some (getMinCreditScoreForProduct suffix);
          ri_maxCreditScore := None |}) ->
  unitDraws rnd ->
  forall k,
    let out := mockRates_from sourceName rnd k pairs in
    (List.length (fst out) <= List.length pairs)%nat /\
    snd out = (k + List.length pairs + List.length (fst out))%nat /\
    Forall P (fst out).
Proof.
  intros HP Hrnd. induction pairs as [|[loanType suffix] rest IH]; intros k.
  - cbn. split; [lia|]. split; [lia | constructor].
  - assert (HP' : forall t s u, In (t, s) rest -> 0 <= u -> u < 1 ->
       P {| ri_productName := (sourceName ++ " " ++ t ++ " " ++ s)%string;
            ri_loanType := t;
            ri_interestRate :=
              NumberFormat.toFixed2
                (getBaseRateForType t + variationFactor s + (u * 0.2 - 0.1));
            ri_termMonths := getDefaultTermForType t;
            ri_minCreditScore := Some (getMinCreditScoreForProduct s);
            ri_maxCreditScore := None |})
      by (intros t s u Hin; apply HP; now right).
    specialize (IH HP'). cbn [mockRates_from].
    destruct (Qltb 0.7 (rnd k)).
    + destruct (IH (S k)) as (I1 & I2 & I3). cbn [List.length].
      split; [lia|]. split; [lia | exact I3].
    + destruct (IH (S (S k))) as (I1 & I2 & I3).
      destruct (mockRates_from sourceName rnd (S (S k)) rest) as [rates k'].
      cbn [fst snd List.length] in *.
      split; [lia|]. split; [lia|]. constructor; [|exact I3].
      apply HP; [now left | apply Hrnd | apply Hrnd].
Qed.

Lemma in_list_prod {A B} (l : list A) (l' : list B) (a : A) (b : B) :
  In (a, b) (list_prod l l') -> In a l /\ In b l'.
Proof. apply in_prod_iff. Qed.

(** X22: the feed [getMockRates] builds.  Whatever [Math.random]
    returns, the feed has at most 25 entries, one for each pair of a loan
    type and a suffix that was not skipped, and uses 25 draws plus one for
    each entry.  An entry is named after the source, the type and the
    suffix; its rate has two decimals and lies within 0.10 of the base rate
    of the type plus the variation of the suffix, hence between 3.85 and
    8.80; its term is the default term of the type, its minimum score that
    of the suffix, between 620 and 740, and it has no maximum score. *)
Theorem getMockRates_entries (sourceName : string) (rnd : nat -> Q) (k : nat) :
  unitDraws rnd ->
  let rates := fst (getMockRates sourceName rnd k) in
  (List.length rates <= 25)%nat /\
  snd (getMockRates sourceName rnd k) = (k + 25 + List.length rates)%nat /\
  Forall (fun rateInfo =>
            (exists loanType suffix,
               In loanType loanTypes /\ In suffix productSuffixes /\
               mockEntry sourceName loanType suffix rateInfo) /\
            3.85 <= ri_interestRate rateInfo /\
            ri_interestRate rateInfo <= 8.8 /\
            exists m, ri_minCreditScore rateInfo = Some m /\
                      620 <= m /\ m <= 740)
         rates.
Proof.
  intros Hrnd rates. subst rates. unfold getMockRates.
  apply (mockRates_from_spec sourceName rnd _
           (list_prod loanTypes productSuffixes)); [|exact Hrnd].
  intros loanType suffix u Hin H0 H1.
  apply in_list_prod in Hin. destruct Hin as [Ht Hs].
  destruct (mock_entry_ok sourceName loanType suffix u Ht Hs H0 H1)
    as (E & B1 & B2 & B3 & B4).
  split; [exists loanType, suffix; auto|].
  split; [exact B1|]. split; [exact B2|].
  eexists. split; [reflexivity|]. split; assumption.
Qed.

Lemma getMockRates_entries_example :
  unitDraws promoRandom /\
  (List.length (fst (getMockRates "Federal Reserve" promoRandom 0)) <= 25)%nat.
Proof.
  assert (H : unitDraws promoRandom).
  { intros n. unfold promoRandom. destruct n as [|[|n]]; split;
      vm_compute; congruence. }
  split; [exact H|].
  exact (proj1 (getMockRates_entries "Federal Reserve" promoRandom 0 H)).
Defined.

(** ** Rate tracker: history and trends *)

Lemma sort_asc_sorted {D} (key : D -> Z) (l : list D) :
  StronglySorted (fun a b => (key a <= key b)%Z) (sort_asc key l).
Proof.
  unfold sort_asc.
  eapply StronglySorted_weaken;
    [| apply (sort_by_sorted (fun x y => (key x <=? key y)%Z) (fun _ => True))].
  - intros a b _ _ H. now apply Z.leb_le.
  - intros x y _ _ H. apply Z.leb_gt in H. apply Z.leb_le. lia.
  - intros x y z _ _ _ H1 H2. apply Z.leb_le in H1, H2. apply Z.leb_le. lia.
  - apply Forall_forall. auto.
Qed.

(** X23: [getHistoricalRates] returns the observations of the product
    that are dated at or after the start of the window, each as often as
    it is stored, oldest first.  The start is the local date and time of
    the call moved back by [days] calendar days (30 when omitted) and
    converted back; on a server whose local time is UTC that is [days]
    times 24 hours before the call.  Where the conversion from local time
    is monotone, a longer window returns at least the same observations. *)
Theorem getHistoricalRates_spec (db : Database) (tz : TimeZone) (now : Z)
    (loanProductId : nat) (days : option Z) :
  let window := match days with Some d => d | None => 30%Z end in
  let startDate := UTC tz (LocalTime tz now - window * 86400000)%Z in
  let history := getHistoricalRates db tz now loanProductId days in
  StronglySorted (fun a b => (date a <= date b)%Z) history /\
  (forall r, In r history <->
             In r (interestRates db) /\ loanProduct r = loanProductId /\
             (startDate <= date r)%Z) /\
  Permutation history
    (filter (fun r => Nat.eqb (loanProduct r) loanProductId
                      && (startDate <=? date r)%Z)
            (interestRates db)) /\
  ((forall t, LocalTime tz t = t) -> (forall t, UTC tz t = t) ->
   startDate = (now - window * 86400000)%Z) /\
  ((forall a b, (a <= b)%Z -> (UTC tz a <= UTC tz b)%Z) ->
   forall days', (window <= days')%Z ->
     incl history (getHistoricalRates db tz now loanProductId (Some days'))).
Proof.
  intros window startDate history.
  assert (Hin : forall d r,
    In r (getHistoricalRates db tz now loanProductId (Some d)) <->
    In r (interestRates db) /\ loanProduct r = loanProductId /\
    (UTC tz (LocalTime tz now - d * 86400000) <= date r)%Z).
  { intros d r. unfold getHistoricalRates, sort_asc.
    split.
    + intros H. apply (Permutation_in _ (sort_by_Permutation _ _)) in H.
      revert H. rewrite filter_In, andb_true_iff, Nat.eqb_eq, Z.leb_le.
      unfold daysBefore, msPerDay. tauto.
    + intros H. apply (Permutation_in _ (Permutation_sym (sort_by_Permutation _ _))).
      rewrite filter_In, andb_true_iff, Nat.eqb_eq, Z.leb_le.
      unfold daysBefore, msPerDay. tauto. }
  assert (Hd : history = getHistoricalRates db tz now loanProductId (Some window))
    by (subst history window; destruct days; reflexivity).
  split; [apply sort_asc_sorted|]. split; [|split; [|split]].
  - intros r. rewrite Hd. apply Hin.
  - rewrite Hd. unfold getHistoricalRates, sort_asc.
    apply sort_by_Permutation.
  - intros Hl Hu. subst startDate. now rewrite Hu, Hl.
  - intros Hmono days' Hle r Hr. rewrite Hd in Hr. apply Hin in Hr. apply Hin.
    destruct Hr as (H1 & H2 & H3). repeat split; auto.
    etransitivity; [|exact H3]. apply Hmono. nia.
Qed.

Lemma insert_key_In (d x : Z) (keys : list Z) :
  In x (insert_key d keys) <-> x = d \/ In x keys.
Proof.
  induction keys as [|e rest IH]; cbn [insert_key].
  - cbn. intuition.
  - destruct (Z.ltb_spec d e).
    + cbn. intuition.
    + destruct (Z.eqb_spec d e).
      * subst. cbn. intuition.
      * cbn [In]. rewrite IH. intuition.
Qed.

Lemma insert_key_sorted (d : Z) (keys : list Z) :
  StronglySorted Z.lt keys -> StronglySorted Z.lt (insert_key d keys).
Proof.
  induction 1 as [|e rest Hs IH He]; cbn [insert_key].
  - repeat constructor.
  - destruct (Z.ltb_spec d e).
    + constructor; [now constructor|].
      constructor; [assumption|].
      rewrite Forall_forall in He |- *. intros z Hz. specialize (He z Hz). lia.
    + destruct (Z.eqb_spec d e).
      * now constructor.
      * constructor; [exact IH|].
        rewrite Forall_forall in He |- *. intros z Hz.
        apply insert_key_In in Hz. destruct Hz as [->|Hz]; [lia | now apply He].
Qed.

Lemma groupKeys_In (docs : list InterestRate) (d : Z) :
  In d (groupKeys docs) <-> exists r, In r docs /\ dayOf r = d.
Proof.
  induction docs as [|r rest IH]; cbn [groupKeys fold_right].
  - cbn. split; [intros [] | intros (r & [] & _)].
  - fold (groupKeys rest). rewrite insert_key_In, IH. split.
    + intros [->|(r' & Hr' & E)].
      * exists r. split; [now left | reflexivity].
      * exists r'. split; [now right | exact E].
    + intros (r' & [<-|Hr'] & E).
      * left. now symmetry.
      * right. now exists r'.
Qed.

Lemma groupKeys_sorted (docs : list InterestRate) :
  StronglySorted Z.lt (groupKeys docs).
Proof.
  induction docs as [|r rest IH]; cbn [groupKeys fold_right].
  - constructor.
  - now apply insert_key_sorted.
Qed.

Lemma StronglySorted_map {A B} (R : A -> A -> Prop) (R' : B -> B -> Prop)
    (f : A -> B) (l : list A) :
  (forall x y, R x y -> R' (f x) (f y)) ->
  StronglySorted R l -> StronglySorted R' (map f l).
Proof.
  intros HR. induction 1 as [|x l Hs IH Hx]; cbn [map].
  - constructor.
  - constructor; [exact IH|].
    rewrite Forall_forall in Hx |- *. intros y Hy.
    apply in_map_iff in Hy. destruct Hy as (z & <- & Hz). auto.
Qed.

(** The least and the greatest rate of a group bound every rate of it. *)
Lemma group_rate_bounds (r : InterestRate) (rest : list InterestRate) :
  let group := r :: rest in
  forall x, In x group ->
    leastRate group <= rate x /\ rate x <= greatestRate group.
Proof.
  cbv zeta. unfold leastRate, greatestRate.
  induction rest as [|y rest IH].
  - cbn. intros x [<-|[]]. split; lra.
  - set (lo := fold_right (fun r acc => Qmin (rate r) acc) (rate r) rest) in *.
    set (hi := fold_right (fun r acc => Qmax (rate r) acc) (rate r) rest) in *.
    cbn [fold_right]. fold lo hi.
    pose proof (Q.le_min_l (rate y) lo). pose proof (Q.le_min_r (rate y) lo).
    pose proof (Q.le_max_l (rate y) hi). pose proof (Q.le_max_r (rate y) hi).
    intros x [<-|[<-|Hx]].
    + specialize (IH r (or_introl eq_refl)). lra.
    + lra.
    + specialize (IH x (or_intror Hx)). lra.
Qed.

Lemma trendOf_bounds (docs : list InterestRate) (d : Z) :
  In d (groupKeys docs) ->
  let t := trendOf docs d in
  (1 <= count t)%nat /\
  forall r, In r docs -> dayOf r = d ->
            minRate t <= rate r /\ rate r <= maxRate t.
Proof.
  intros Hd. apply groupKeys_In in Hd. destruct Hd as (r0 & Hr0 & E0).
  cbv zeta. unfold trendOf. cbn [count minRate maxRate].
  assert (Hg : In r0 (groupOf docs d)).
  { unfold groupOf. apply filter_In. split; [exact Hr0|]. now apply Z.eqb_eq. }
  assert (Hall : forall r, In r docs -> dayOf r = d -> In r (groupOf docs d)).
  { intros r Hr E. unfold groupOf. apply filter_In. split; [exact Hr|].
    now apply Z.eqb_eq. }
  destruct (groupOf docs d) as [|x rest] eqn:Eg; [destruct Hg|].
  pose proof (group_rate_bounds x rest) as B1.
  split; [cbn [List.length]; lia|].
  intros r Hr E. apply B1. now apply Hall.
Qed.

(** Groups by distinct keys that cover the documents partition them. *)
Lemma group_counts_sum (docs : list InterestRate) (keys : list Z) :
  NoDup keys -> (forall r, In r docs -> In (dayOf r) keys) ->
  list_sum (map (fun d => List.length (groupOf docs d)) keys)
  = List.length docs.
Proof.
  intros Hnd. induction docs as [|r rest IH]; intros Hcov.
  - cbn. clear. induction keys as [|d keys IH]; [reflexivity | exact IH].
  - assert (Hone : forall ks, NoDup ks ->
      list_sum (map (fun d => List.length (groupOf (r :: rest) d)) ks)
      = (list_sum (map (fun d => List.length (groupOf rest d)) ks)
         + if existsb (Z.eqb (dayOf r)) ks then 1 else 0)%nat).
    { clear. induction 1 as [|d ks Hd Hks IH]; [reflexivity|].
      cbn [map existsb].
      change (list_sum (?a :: ?l)) with (a + list_sum l)%nat.
      rewrite IH. unfold groupOf at 1.
      cbn [filter]. fold (groupOf rest d).
      destruct (Z.eqb_spec (dayOf r) d) as [E|E].
      - cbn [orb List.length].
        assert (Hno : existsb (Z.eqb (dayOf r)) ks = false).
        { destruct (existsb _ ks) eqn:Ex; [|reflexivity].
          apply existsb_exists in Ex. destruct Ex as (z & Hz & Ez).
          apply Z.eqb_eq in Ez. subst. contradiction. }
        rewrite Hno. lia.
      - cbn [orb]. lia. }
    rewrite (Hone keys Hnd).
    rewrite IH by (intros x Hx; apply Hcov; now right).
    assert (Hex : existsb (Z.eqb (dayOf r)) keys = true).
    { apply existsb_exists. exists (dayOf r).
      split; [apply Hcov; now left | apply Z.eqb_refl]. }
    rewrite Hex. cbn [List.length]. lia.
Qed.

Lemma sorted_lt_NoDup (l : list Z) : StronglySorted Z.lt l -> NoDup l.
Proof.
  induction 1 as [|x l Hs IH Hx]; constructor; [|exact IH].
  intros Hin. rewrite Forall_forall in Hx. specialize (Hx x Hin). lia.
Qed.

Lemma matchedRates_In (db : Database) (tz : TimeZone) (now : Z)
    (loanType : string) (days : Z) (r : InterestRate) :
  In r (matchedRates db tz now loanType days) <->
  In r (interestRates db) /\
  (exists p, In p (loanProducts db) /\ type p = loanType
             /\ _id p = loanProduct r) /\
  (UTC tz (LocalTime tz now - days * 86400000) <= date r)%Z.
Proof.
  unfold matchedRates. rewrite filter_In, andb_true_iff, Z.leb_le.
  unfold daysBefore, msPerDay.
  assert (Hex : existsb (Nat.eqb (loanProduct r))
                  (map _id (find (loanProducts db)
                     {| where_ := [ ("type"%string, Eq (VStr loanType)) ];
                        or_ := None |})) = true
                <-> exists p, In p (loanProducts db) /\ type p = loanType
                              /\ _id p = loanProduct r).
  { rewrite existsb_exists. split.
    - intros (i & Hi & E). apply Nat.eqb_eq in E.
      apply in_map_iff in Hi. destruct Hi as (p & <- & Hp).
      unfold find in Hp. apply filter_In in Hp. destruct Hp as [Hp Hm].
      unfold matches, matches_filter in Hm. cbn in Hm.
      rewrite !andb_true_r in Hm. apply String.eqb_eq in Hm.
      exists p. auto.
    - intros (p & Hp & Ht & Hi). exists (_id p). split.
      + apply in_map. unfold find. apply filter_In. split; [exact Hp|].
        unfold matches, matches_filter. cbn. rewrite !andb_true_r.
        now apply String.eqb_eq.
      + apply Nat.eqb_eq. now symmetry. }
  rewrite Hex. tauto.
Qed.

(** X24: the groups of [getRateTrendsByType].  The observations matched
    are those of the products of the loan type dated at or after the start
    of the window, which is the local date and time of the call moved back
    by [days] calendar days (90 when omitted) and converted back.  There
    is one group for each UTC day on which some matched observation falls,
    the groups come in strictly increasing order of the day, the counts
    are positive and add up to the number of matched observations, and
    the minimum and the maximum of a group bound every rate of its day. *)
Theorem getRateTrendsByType_groups (db : Database) (tz : TimeZone) (now : Z)
    (loanType : string) (days : option Z) :
  let window := match days with Some d => d | None => 90%Z end in
  let startDate := UTC tz (LocalTime tz now - window * 86400000)%Z in
  let matched := matchedRates db tz now loanType window in
  let trends := getRateTrendsByType db tz now loanType days in
  StronglySorted (fun a b => (trend_id a < trend_id b)%Z) trends /\
  Forall (fun t => (1 <= count t)%nat /\ minRate t <= maxRate t) trends /\
  list_sum (map count trends) = List.length matched /\
  (forall r, In r matched ->
     exists t, In t trends /\ trend_id t = dayOf r /\
               minRate t <= rate r /\ rate r <= maxRate t) /\
  (forall t, In t trends -> exists r, In r matched /\ dayOf r = trend_id t) /\
  (forall r, In r matched <->
     In r (interestRates db) /\
     (exists p, In p (loanProducts db) /\ type p = loanType
                /\ _id p = loanProduct r) /\
     (startDate <= date r)%Z).
Proof.
  intros window startDate matched trends.
  assert (Ht : trends = map (trendOf matched) (groupKeys matched)) by reflexivity.
  rewrite Ht. split; [|split; [|split; [|split; [|split]]]].
  - apply (StronglySorted_map Z.lt); [|apply groupKeys_sorted].
    intros x y H. exact H.
  - apply Forall_forall. intros t Hin. apply in_map_iff in Hin.
    destruct Hin as (d & <- & Hd).
    destruct (trendOf_bounds matched d Hd) as (B1 & B2).
    split; [exact B1|].
    apply groupKeys_In in Hd. destruct Hd as (r & Hr & E).
    destruct (B2 r Hr E). lra.
  - rewrite map_map. cbn [count trendOf].
    apply group_counts_sum.
    + apply sorted_lt_NoDup, groupKeys_sorted.
    + intros r Hr. apply groupKeys_In. now exists r.
  - intros r Hr.
    assert (Hd : In (dayOf r) (groupKeys matched))
      by (apply groupKeys_In; now exists r).
    exists (trendOf matched (dayOf r)). split; [now apply in_map|].
    split; [reflexivity|].
    destruct (trendOf_bounds matched (dayOf r) Hd) as (_ & B).
    now apply B.
  - intros t Hin. apply in_map_iff in Hin. destruct Hin as (d & <- & Hd).
    apply groupKeys_In in Hd. exact Hd.
  - intros r. apply matchedRates_In.
Qed.

(** ** Frontend: the calculator and the comparison table *)

Lemma monthlyRateOf_pos (r : Q) : 0 < r -> 0 < monthlyRateOf r.
Proof.
  intros H. unfold monthlyRateOf. apply Qlt_shift_div_l; [reflexivity|].
  apply Qlt_shift_div_l; [reflexivity|]. lra.
Qed.

Lemma paymentFormula_zero_rate (amount r : Q) (months : Z) :
  r == 0 -> paymentFormula amount (Fin r) months = NaN.
Proof.
  intros Hr. unfold paymentFormula.
  change (nadd (Fin 1) (Fin r)) with (Fin (1 + r)).
  assert (Hb : 1 + r == 1) by (rewrite Hr; reflexivity).
  destruct (npow_fin_one _ months Hb) as (x & Hx & Hx1).
  rewrite Hx. apply ndiv_zero_zero.
  - rewrite Hr. ring.
  - rewrite Hx1. reflexivity.
Qed.

Lemma paymentFormula_no_months (amount r : Q) :
  0 < amount -> 0 < r -> paymentFormula amount (Fin r) 0 = PInf.
Proof.
  intros Ha Hr. unfold paymentFormula. cbn [npow Z.eqb nsub nneg nadd nmul].
  unfold ndiv. rewrite (Qeq_bool_true (1 + - (1)) 0) by reflexivity.
  unfold sign.
  assert (Hp : 0 < amount * r * 1) by nra.
  rewrite (Qeq_bool_false (amount * r * 1) 0) by lra.
  assert (Hle : Qle_bool 0 (amount * r * 1) = true)
    by (apply Qle_bool_iff; lra).
  rewrite Hle. reflexivity.
Qed.

(** X25: the figures of [LoanCalculator].  They are the monthly payment,
    total payment and total interest the analysis service computes for the
    same amount and rate over twelve times the term, each through
    [toFixed(2)].  At a rate of 0 all three show NaN, whatever the amount
    and the term; at a term of 0, for an amount of at least 1 and a rate of
    at least 0.01, the payment shows Infinity and the other two NaN. *)
Theorem calculateLoan_figures (loanAmount interestRate : Q) (loanTerm : Z) :
  let figures := Frontend.calculateLoan loanAmount interestRate loanTerm in
  let months := (loanTerm * 12)%Z in
  (forall product rateInfo random,
     rate rateInfo = interestRate ->
     let a := analyzeProduct product rateInfo loanAmount months random in
     figures
     = {| Frontend.shownMonthlyPayment := NumberFormat.toFixed (monthlyPayment a);
          Frontend.shownTotalPayment := NumberFormat.toFixed (totalPayment a);
          Frontend.shownTotalInterest := NumberFormat.toFixed (totalInterest a) |}) /\
  (interestRate == 0 ->
   figures = {| Frontend.shownMonthlyPayment := NumberFormat.ShownNaN;
                Frontend.shownTotalPayment := NumberFormat.ShownNaN;
                Frontend.shownTotalInterest := NumberFormat.ShownNaN |}) /\
  (1 <= loanAmount -> 1 # 100 <= interestRate -> loanTerm = 0%Z ->
   figures = {| Frontend.shownMonthlyPayment := NumberFormat.ShownInfinity;
                Frontend.shownTotalPayment := NumberFormat.ShownNaN;
                Frontend.shownTotalInterest := NumberFormat.ShownNaN |}).
Proof.
  intros figures months.
  assert (Hf : figures
    = let p := paymentFormula loanAmount (Fin (monthlyRateOf interestRate)) months in
      {| Frontend.shownMonthlyPayment := NumberFormat.toFixed p;
         Frontend.shownTotalPayment :=
           NumberFormat.toFixed (nmul p (Fin (inject_Z months)));
         Frontend.shownTotalInterest :=
           NumberFormat.toFixed (nsub (nmul p (Fin (inject_Z months)))
                                      (Fin loanAmount)) |})
    by reflexivity.
  split; [|split].
  - intros product rateInfo random <-. reflexivity.
  - intros Hr. rewrite Hf. cbv zeta.
    rewrite paymentFormula_zero_rate; [reflexivity|].
    unfold monthlyRateOf. rewrite Hr. reflexivity.
  - intros Ha Hr Ht. rewrite Hf. cbv zeta. subst months. rewrite Ht.
    change (0 * 12)%Z with 0%Z.
    rewrite paymentFormula_no_months;
      [reflexivity | lra | apply monthlyRateOf_pos; lra].
Qed.

(** X26: the table of [LoanComparison].  Its rows are the institutions
    that offer the selected loan type, each once and with the figures
    computed for it; when the monthly payments of the rows are finite
    numbers, the rows are in the order of the payment, lowest first. *)
Theorem comparisons_cheapest_first
    (institutions : list Frontend.OfferingInstitution)
    (selectedLoanType : string) (loanAmount : Q) (loanTerm : Z) :
  let rows :=
    Frontend.comparisons institutions selectedLoanType loanAmount loanTerm in
  Permutation (map Frontend.inst rows)
              (filter (offers selectedLoanType) institutions) /\
  Forall (fun row =>
            row = Frontend.compareOne selectedLoanType loanAmount loanTerm
                    (Frontend.inst row))
         rows /\
  (Forall (fun row => is_finite (Frontend.monthlyPayment row)) rows ->
   StronglySorted
     (fun a b => nle (Frontend.monthlyPayment a) (Frontend.monthlyPayment b))
     rows).
Proof.
  intros rows.
  set (made := map (Frontend.compareOne selectedLoanType loanAmount loanTerm)
                   (filter (offers selectedLoanType) institutions)).
  set (keep := fun a b : Frontend.Comparison =>
         negb (nltb (Fin 0) (nsub (Frontend.monthlyPayment a)
                                  (Frontend.monthlyPayment b)))).
  assert (Hrows : rows = sort_by keep made) by reflexivity.
  split; [|split].
  - rewrite Hrows.
    rewrite (Permutation_map Frontend.inst (sort_by_Permutation keep made)).
    subst made. rewrite map_map. cbn [Frontend.inst Frontend.compareOne].
    rewrite map_id. reflexivity.
  - rewrite Hrows. eapply Permutation_Forall;
      [symmetry; apply sort_by_Permutation|].
    subst made. apply Forall_forall. intros row Hrow.
    apply in_map_iff in Hrow. destruct Hrow as (i & <- & _). reflexivity.
  - intros Hfin.
    set (P := fun row : Frontend.Comparison =>
           is_finite (Frontend.monthlyPayment row)).
    assert (Hmade : Forall P made).
    { eapply Permutation_Forall; [|exact Hfin].
      rewrite Hrows. apply sort_by_Permutation. }
    eapply StronglySorted_weaken;
      [|rewrite Hrows; apply (sort_by_sorted keep P); [| |exact Hmade]].
    + intros x y Hx Hy H. rewrite Forall_forall in Hfin.
      pose proof (Hfin x Hx) as Fx. pose proof (Hfin y Hy) as Fy.
      subst keep. cbv beta in H.
      destruct (Frontend.monthlyPayment x) as [a| | |]; try contradiction.
      destruct (Frontend.monthlyPayment y) as [b| | |]; try contradiction.
      apply nle_fin. now apply keep_ascending.
    + intros x y Fx Fy H. subst keep P. cbv beta in *.
      destruct (Frontend.monthlyPayment x) as [a| | |]; try contradiction.
      destruct (Frontend.monthlyPayment y) as [b| | |]; try contradiction.
      apply keep_ascending.
      destruct (Qlt_le_dec a b) as [Hlt|Hge]; [|exact Hge].
      assert (Hk : negb (nltb (Fin 0) (nsub (Fin a) (Fin b))) = true)
        by (apply keep_ascending; lra).
      congruence.
    + intros x y z Fx Fy Fz H1 H2. subst keep P. cbv beta in *.
      destruct (Frontend.monthlyPayment x) as [a| | |]; try contradiction.
      destruct (Frontend.monthlyPayment y) as [b| | |]; try contradiction.
      destruct (Frontend.monthlyPayment z) as [c| | |]; try contradiction.
      apply keep_ascending in H1, H2. apply keep_ascending. lra.
Qed.

Lemma comparisons_cheapest_first_example :
  map Frontend.oi_name
      (map Frontend.inst
           (Frontend.comparisons initialInstitutions "Mortgage" 250000 2))
  = ["Community Credit Union"; "First National Bank"; "Global Financial"]%string
  /\ StronglySorted
       (fun a b => nle (Frontend.monthlyPayment a) (Frontend.monthlyPayment b))
       (Frontend.comparisons initialInstitutions "Mortgage" 250000 2).
Proof.
  split; [vm_compute; reflexivity|].
  apply (proj2 (proj2 (comparisons_cheapest_first initialInstitutions
                         "Mortgage" 250000 2))).
  vm_compute. repeat constructor.
Defined.

